(** * apipdf: the conversion job registry of [api.py]

    A shallow embedding of the PDF-to-Word conversion service: the
    in-memory registry [conversions], the background worker
    [process_conversion], the artifact discovery loop
    [_wait_for_download] and the HTTP handlers [convert_pdf],
    [get_status], [download_file] and [delete_conversion].

    Modelling conventions.
    - Python [str] is [string] (a sequence of one-byte characters);
      [lower] folds the ASCII letters only.
    - The registry is a [gmap] from conversion ids to job records; a job
      record is the dict literal built by [convert_pdf], whose key set
      never changes afterwards.
    - The file system is the set of paths that exist.  Paths are plain
      strings relative to the working directory; [os.remove] succeeds
      exactly on an existing path.
    - Modification times are integers (only their order is used).
    - Handlers and the worker live in a state-and-exception monad over
      [World]; the calls that leave the program (the browser session of
      [ILovePDFConverter.convert], [uuid.uuid4], the upload write) take
      their outcome as an explicit argument.
    - The worker is a thread without a lock: each of its statements
      that touches shared state (one write to the record, the call of
      [converter.convert], the return from it, [os.remove]) is an event
      of its own, and any request or any step of another worker can
      come between two of them.  A request handler is one event.  The
      files a browser session leaves in the output directory are on
      disk when its call returns.  [WorkerBegin] and [WorkerEnd] are
      shorthands for a worker that runs undisturbed up to its engine
      call, and from the return of that call to its end. *)

From Stdlib Require Import ZArith String Ascii List Bool Lia.
From stdpp Require Import gmap strings list fin_maps.
Import ListNotations.

Local Open Scope string_scope.
Local Open Scope Z_scope.

Set Warnings "-clear-no-such-hyp".

(** ** Strings *)

Module Str.

Definition lower_ascii (c : ascii) : ascii :=
  let n := nat_of_ascii c in
  if ((65 <=? n)%nat && (n <=? 90)%nat)%bool then ascii_of_nat (n + 32) else c.

(** [str.lower()] *)
Fixpoint lower (s : string) : string :=
  match s with
  | EmptyString => EmptyString
  | String c s' => String (lower_ascii c) (lower s')
  end.

(** [str.endswith(suf)]: some tail of [s] is [suf]. *)
Fixpoint endswith (s suf : string) : bool :=
  String.eqb s suf ||
  match s with
  | EmptyString => false
  | String _ s' => endswith s' suf
  end.

(** [str.startswith(pre)] *)
Definition startswith (s pre : string) : bool := String.prefix pre s.

Fixpoint contains_dot (s : string) : bool :=
  match s with
  | EmptyString => false
  | String c s' => Ascii.eqb c "."%char || contains_dot s'
  end.

(** [s.rsplit('.', 1)[0]]: the part before the last dot, or all of [s]
    when it has no dot. *)
Fixpoint rsplit_dot_head (s : string) : string :=
  match s with
  | EmptyString => EmptyString
  | String c s' =>
      if contains_dot s' then String c (rsplit_dot_head s')
      else if Ascii.eqb c "."%char then EmptyString
      else String c (rsplit_dot_head s')
  end.

(** Truthiness of a [str]: the empty string is falsy. *)
Definition truthy (s : string) : bool := negb (String.eqb s "").

(** Truthiness of an [Optional[str]]. *)
Definition truthy_opt (o : option string) : bool :=
  match o with
  | Some s => truthy s
  | None => false
  end.

End Str.

(** ** Exceptions and results *)

Inductive exn : Type :=
| KeyError (key : string)
| FileNotFoundError (path : string)
| Exception (text : string).

(** [str(e)] *)
Definition str (e : exn) : string :=
  match e with
  | KeyError k => "'" +:+ k +:+ "'"
  | FileNotFoundError p => "[Errno 2] No such file or directory: '" +:+ p +:+ "'"
  | Exception t => t
  end.

(** [fastapi.HTTPException(status_code, detail)] *)
Record HTTPException : Type := mkHTTPException {
  status_code : Z;
  detail : string
}.

Inductive result (E A : Type) : Type :=
| Ok (a : A)
| Raise (e : E).
Arguments Ok {E A} a.
Arguments Raise {E A} e.

(** ** Data model *)

(** The dict stored in [conversions] under a conversion id. *)
Record Job : Type := mkJob {
  id : string;
  status : string;
  message : string;
  url : option string;
  filename : option string;
  original_filename : string
}.

(** The pydantic response model. *)
Record ConversionStatus : Type := mkConversionStatus {
  cs_id : string;
  cs_status : string;
  cs_message : option string;
  cs_url : option string;
  cs_filename : option string
}.

Record FileResponse : Type := mkFileResponse {
  fr_path : string;
  fr_filename : string;
  fr_media_type : string
}.

(** The statements of [process_conversion] at which a worker thread can
    stand, by their line in [api.py].  The lines of the success branch
    carry the name [convert] returned, those of the [except] block the
    exception being handled, the [finally] block the exception that is
    to leave the worker after it. *)
Inductive Line : Type :=
| L230                              (* message := "Convertendo..." *)
| L237                              (* call of [converter.convert] *)
| L241 (filename : option string)   (* status := "completed" *)
| L242 (filename : option string)   (* message := "Conversão concluída!" *)
| L243 (filename : option string)   (* filename := filename *)
| L244 (filename : option string)   (* url := "/download/<id>" *)
| L247                              (* status := "error" *)
| L248                              (* message := "Falha na conversão" *)
| L251 (e : exn)                    (* except: status := "error" *)
| L252 (e : exn)                    (* except: message := str(e) *)
| L257 (escaped : option exn).      (* finally: os.remove(pdf_path) *)

(** What a worker thread started by [convert_pdf] is doing. *)
Inductive TState : Type :=
| Spawned                           (* started, about to run line 229 *)
| AtLine (l : Line)                 (* about to run the statement at [l] *)
| InEngine                          (* blocked in [converter.convert] *)
| Finished (escaped : option exn).  (* returned, or died with an exception *)

Record Thread : Type := mkThread {
  t_conversion_id : string;
  t_pdf_path : string;
  t_state : TState
}.

(** Calls that leave the process, in the order they were made. *)
Inductive Effect : Type :=
| EWrite (path : string)
| EConvert (pdf_path : string)
| ERemove (path : string).

Record World : Type := mkWorld {
  conversions : gmap string Job;
  files : gset string;
  threads : list Thread;
  effects : list Effect
}.

Definition set_conversions (f : gmap string Job -> gmap string Job) (w : World) : World :=
  mkWorld (f (conversions w)) (files w) (threads w) (effects w).

Definition set_files (f : gset string -> gset string) (w : World) : World :=
  mkWorld (conversions w) (f (files w)) (threads w) (effects w).

Definition set_threads (f : list Thread -> list Thread) (w : World) : World :=
  mkWorld (conversions w) (files w) (f (threads w)) (effects w).

Definition log (e : Effect) (w : World) : World :=
  mkWorld (conversions w) (files w) (threads w) (effects w ++ [e]).

Definition world0 : World := mkWorld ∅ ∅ [] [].

(** ** The state-and-exception monad *)

Definition M (E A : Type) : Type := World -> World * result E A.

Global Instance M_ret {E} : MRet (M E) := fun A a w => (w, Ok a).

Global Instance M_bind {E} : MBind (M E) := fun A B k m w =>
  match m w with
  | (w', Ok a) => k a w'
  | (w', Raise e) => (w', Raise e)
  end.

Definition raise {E A} (e : E) : M E A := fun w => (w, Raise e).

(** [try: body except Exception as e: handler(e)] *)
Definition try_except {E E' A} (body : M E A) (handler : E -> M E' A) : M E' A :=
  fun w =>
    match body w with
    | (w', Ok a) => (w', Ok a)
    | (w', Raise e) => handler e w'
    end.

(** [try: body finally: fin]: [fin] runs on every exit path; an
    exception of [fin] replaces the outcome of [body]. *)
Definition try_finally {E A} (body : M E A) (fin : M E unit) : M E A :=
  fun w =>
    match body w with
    | (w', r) =>
        match fin w' with
        | (w'', Ok _) => (w'', r)
        | (w'', Raise e) => (w'', Raise e)
        end
    end.

Definition modify {E} (f : World -> World) : M E unit := fun w => (f w, Ok tt).

Definition get {E} : M E World := fun w => (w, Ok w).

(** ** Configuration and paths *)

Definition UPLOAD_DIR : string := "uploads".
Definition OUTPUT_DIR : string := "outputs".

(** [dir / name] of [pathlib]: an absolute right operand replaces the
    left one. *)
Definition path_join (dir name : string) : string :=
  if Str.startswith name "/" then name else dir +:+ "/" +:+ name.

(** [UPLOAD_DIR / f"{conversion_id}.pdf"] *)
Definition upload_path (conversion_id : string) : string :=
  path_join UPLOAD_DIR (conversion_id +:+ ".pdf").

(** [os.remove(path)] *)
Definition os_remove (path : string) : M exn unit :=
  fun w =>
    let w1 := log (ERemove path) w in
    if decide (path ∈ files w1)
    then (set_files (fun fs => fs ∖ {[path]}) w1, Ok tt)
    else (w1, Raise (FileNotFoundError path)).

(** [path.exists()] *)
Definition exists_ (path : string) (w : World) : bool :=
  bool_decide (path ∈ files w).

(** ** The conversion engine, seen from the worker *)

(** One call of [ILovePDFConverter.convert], as the worker observes it:
    the files the browser session left in the output directory, and the
    value returned or the exception that escaped. *)
Record EngineRun : Type := mkEngineRun {
  downloaded : list string;
  outcome : result exn (option string)
}.

Definition output_file (name : string) : string := OUTPUT_DIR +:+ "/" +:+ name.

(** [converter.convert(pdf_path)] *)
Definition engine_convert (run : EngineRun) (pdf_path : string) : M exn (option string) :=
  fun w =>
    (set_files (fun fs => fs ∪ list_to_set (output_file <$> downloaded run))
       (log (EConvert pdf_path) w),
     outcome run).

(** ** The background worker *)

Definition set_status (v : string) (j : Job) : Job :=
  mkJob (id j) v (message j) (url j) (filename j) (original_filename j).

Definition set_message (v : string) (j : Job) : Job :=
  mkJob (id j) (status j) v (url j) (filename j) (original_filename j).

Definition set_url (v : option string) (j : Job) : Job :=
  mkJob (id j) (status j) (message j) v (filename j) (original_filename j).

Definition set_filename (v : option string) (j : Job) : Job :=
  mkJob (id j) (status j) (message j) (url j) v (original_filename j).

(** [conversions[conversion_id][key] = value]: a [KeyError] when the id
    is not in the registry. *)
Definition update_job (conversion_id : string) (f : Job -> Job) : M exn unit :=
  fun w =>
    match conversions w !! conversion_id with
    | Some j => (set_conversions (<[conversion_id := f j]>) w, Ok tt)
    | None => (w, Raise (KeyError conversion_id))
    end.

(** The [try] body up to the engine call. *)
Definition before_engine (conversion_id : string) : M exn unit :=
  update_job conversion_id (set_status "processing") ;;
  update_job conversion_id (set_message "Convertendo PDF para Word...").

(** The [try] body after the engine call returned [filename]. *)
Definition after_engine (conversion_id : string) (filename : option string) : M exn unit :=
  if Str.truthy_opt filename then
    update_job conversion_id (set_status "completed") ;;
    update_job conversion_id (set_message "Conversão concluída!") ;;
    update_job conversion_id (set_filename filename) ;;
    update_job conversion_id (set_url (Some ("/download/" +:+ conversion_id)))
  else
    update_job conversion_id (set_status "error") ;;
    update_job conversion_id (set_message "Falha na conversão").

(** [except Exception as e] *)
Definition on_exception (conversion_id : string) (e : exn) : M exn unit :=
  update_job conversion_id (set_status "error") ;;
  update_job conversion_id (set_message (str e)).

(** The [finally] block: [os.remove] under a bare [except: pass]. *)
Definition cleanup (pdf_path : string) : M exn unit :=
  try_except (os_remove pdf_path) (fun _ => mret tt).

Definition process_conversion (run : EngineRun) (conversion_id pdf_path : string) : M exn unit :=
  try_finally
    (try_except
       (before_engine conversion_id ;;
        filename ← engine_convert run pdf_path;
        after_engine conversion_id filename)
       (on_exception conversion_id))
    (cleanup pdf_path).

(** *** The worker, one statement at a time *)

(** The write to [conversions[conversion_id]] that stands at a program
    point: the field update, the point after it, and whether the
    statement is inside the [except] block. *)
Definition write_at (conversion_id : string) (s : TState)
  : option ((Job -> Job) * TState * bool) :=
  match s with
  | Spawned =>
      Some (set_status "processing", AtLine L230, false)
  | AtLine L230 =>
      Some (set_message "Convertendo PDF para Word...", AtLine L237, false)
  | AtLine (L241 filename) =>
      Some (set_status "completed", AtLine (L242 filename), false)
  | AtLine (L242 filename) =>
      Some (set_message "Conversão concluída!", AtLine (L243 filename), false)
  | AtLine (L243 filename) =>
      Some (set_filename filename, AtLine (L244 filename), false)
  | AtLine (L244 filename) =>
      Some (set_url (Some ("/download/" +:+ conversion_id)), AtLine (L257 None), false)
  | AtLine L247 =>
      Some (set_status "error", AtLine L248, false)
  | AtLine L248 =>
      Some (set_message "Falha na conversão", AtLine (L257 None), false)
  | AtLine (L251 e) =>
      Some (set_status "error", AtLine (L252 e), true)
  | AtLine (L252 e) =>
      Some (set_message (str e), AtLine (L257 None), true)
  | _ => None
  end.

(** One statement of the worker.  An exception of a write in the [try]
    body is caught by the [except] block; one raised inside the
    [except] block goes to the [finally] block and leaves the worker
    after it.  A thread inside the engine, or finished, does nothing. *)
Definition thread_step (conversion_id pdf_path : string) (s : TState) (w : World)
  : World * TState :=
  match write_at conversion_id s with
  | Some (f, next, in_except) =>
      match update_job conversion_id f w with
      | (w', Ok _) => (w', next)
      | (w', Raise e) =>
          (w', if in_except then AtLine (L257 (Some e)) else AtLine (L251 e))
      end
  | None =>
      match s with
      | AtLine L237 => (log (EConvert pdf_path) w, InEngine)
      | AtLine (L257 escaped) => (fst (cleanup pdf_path w), Finished escaped)
      | _ => (w, s)
      end
  end.

(** [converter.convert] comes back: the files of the browser session
    are in the output directory, and the worker goes on at the branch
    of [if filename:] its result selects, or at the [except] block. *)
Definition engine_return (run : EngineRun) (s : TState) (w : World) : World * TState :=
  match s with
  | InEngine =>
      (set_files (fun fs => fs ∪ list_to_set (output_file <$> downloaded run)) w,
       match outcome run with
       | Ok filename =>
           if Str.truthy_opt filename then AtLine (L241 filename) else AtLine L247
       | Raise e => AtLine (L251 e)
       end)
  | _ => (w, s)
  end.

(** ** The HTTP handlers *)

(** How saving the upload went: [await file.read()], [open], [write]. *)
Inductive SaveOutcome : Type :=
| SaveOk
| SaveFails (e : exn) (created : bool).

Definition save_upload (o : SaveOutcome) (pdf_path : string) : M exn unit :=
  fun w =>
    match o with
    | SaveOk => (set_files (fun fs => fs ∪ {[pdf_path]}) (log (EWrite pdf_path) w), Ok tt)
    | SaveFails e true => (set_files (fun fs => fs ∪ {[pdf_path]}) (log (EWrite pdf_path) w), Raise e)
    | SaveFails e false => (w, Raise e)
    end.

(** The dict literal stored for a new conversion. *)
Definition pending_job (conversion_id file_filename : string) : Job :=
  mkJob conversion_id "pending" "Aguardando processamento..." None None file_filename.

(** [POST /convert].  [uuid4] is the value of [uuid.uuid4()]. *)
Definition convert_pdf (file_filename : string) (uuid4 : string) (o : SaveOutcome)
  : M HTTPException ConversionStatus :=
  if negb (Str.endswith (Str.lower file_filename) ".pdf") then
    raise (mkHTTPException 400 "O arquivo deve ser um PDF")
  else
    let conversion_id := uuid4 in
    let pdf_path := upload_path conversion_id in
    try_except (save_upload o pdf_path)
      (fun e => raise (mkHTTPException 500 ("Erro ao salvar arquivo: " +:+ str e))) ;;
    modify (set_conversions
      (<[conversion_id := pending_job conversion_id file_filename]>)) ;;
    modify (set_threads (fun ts => (ts ++ [mkThread conversion_id pdf_path Spawned])%list)) ;;
    mret (mkConversionStatus conversion_id "pending"
            (Some "Conversão iniciada. Use /status/{id} para acompanhar.")
            None None).

(** [GET /status/{conversion_id}] *)
Definition get_status (conversion_id : string) : M HTTPException ConversionStatus :=
  w ← get;
  match conversions w !! conversion_id with
  | None => raise (mkHTTPException 404 "Conversão não encontrada")
  | Some conv =>
      mret (mkConversionStatus (id conv) (status conv) (Some (message conv))
              (url conv) (filename conv))
  end.

Definition docx_media_type : string :=
  "application/vnd.openxmlformats-officedocument.wordprocessingml.document".

(** [GET /download/{conversion_id}] *)
Definition download_file (conversion_id : string) : M HTTPException FileResponse :=
  w ← get;
  match conversions w !! conversion_id with
  | None => raise (mkHTTPException 404 "Conversão não encontrada")
  | Some conv =>
      if negb (String.eqb (status conv) "completed") then
        raise (mkHTTPException 400
                 ("Conversão não concluída. Status: " +:+ status conv))
      else
        match filename conv with
        | Some fname =>
            if Str.truthy fname then
              let file_path := path_join OUTPUT_DIR fname in
              if negb (exists_ file_path w) then
                raise (mkHTTPException 404 "Arquivo não encontrado no servidor")
              else
                let original := original_filename conv in
                let download_name := Str.rsplit_dot_head original +:+ ".docx" in
                mret (mkFileResponse file_path download_name docx_media_type)
            else raise (mkHTTPException 404 "Arquivo não encontrado")
        | None => raise (mkHTTPException 404 "Arquivo não encontrado")
        end
  end.

(** [GET /conversions] *)
Definition list_conversions : M HTTPException (list Job) :=
  w ← get;
  mret (snd <$> map_to_list (conversions w)).

(** [DELETE /conversion/{conversion_id}] *)
Definition delete_conversion (conversion_id : string) : M HTTPException string :=
  w ← get;
  match conversions w !! conversion_id with
  | None => raise (mkHTTPException 404 "Conversão não encontrada")
  | Some conv =>
      match filename conv with
      | Some fname =>
          if Str.truthy fname then
            try_except (os_remove (path_join OUTPUT_DIR fname)) (fun _ => mret tt)
          else mret tt
      | None => mret tt
      end ;;
      modify (set_conversions (delete conversion_id)) ;;
      mret "Conversão removida"
  end.

(** ** Artifact discovery *)

(** One [os.listdir(download_dir)], each name with its [getmtime]. *)
Definition Listing : Type := list (string * Z).

(** [sort(key=mtime, reverse=True)] is stable: among equal keys the
    listing order is kept. *)
Fixpoint insert_desc (x : string * Z) (l : Listing) : Listing :=
  match l with
  | [] => [x]
  | y :: l' => if snd x <? snd y then y :: insert_desc x l' else x :: y :: l'
  end.

Definition sort_desc (l : Listing) : Listing := foldr insert_desc [] l.

Definition is_crdownload (f : string * Z) : bool := Str.endswith (fst f) ".crdownload".
Definition is_docx (f : string * Z) : bool := Str.endswith (fst f) ".docx".

(** [ILovePDFConverter._wait_for_download]: one listing per turn of the
    [while] loop that starts before [end_time]. *)
Fixpoint _wait_for_download (polls : list Listing) : option string :=
  match polls with
  | [] => None
  | files :: later =>
      let downloading := existsb is_crdownload files in
      if negb downloading then
        let docx_files := List.filter is_docx files in
        match docx_files with
        | _ :: _ => fst <$> head (sort_desc docx_files)
        | [] => _wait_for_download later
        end
      else _wait_for_download later
  end.

(** The browser session of one [convert] call. *)
Record Browser : Type := mkBrowser {
  setup_error : option exn;     (* raised by [_setup_driver] *)
  driver_assigned : bool;       (* [self.driver] was set before that *)
  page_error : option exn;      (* raised between [driver.get] and the download click *)
  polls : list Listing;
  quit_error : option exn       (* raised by [driver.quit()] *)
}.

Definition driver_live (b : Browser) : bool :=
  match setup_error b with
  | None => true
  | Some _ => driver_assigned b
  end.

(** [ILovePDFConverter.convert]: every exception of the body is caught
    and turned into [None]; the [finally] block quits the driver. *)
Definition convert (b : Browser) : result exn (option string) :=
  let body : result exn (option string) :=
    match setup_error b with
    | Some e => Raise e
    | None =>
        match page_error b with
        | Some e => Raise e
        | None => Ok (_wait_for_download (polls b))
        end
    end in
  let caught : result exn (option string) :=
    match body with
    | Ok filename => Ok filename
    | Raise _ => Ok None
    end in
  if driver_live b then
    match quit_error b with
    | Some e => Raise e
    | None => caught
    end
  else caught.

(** ** The running service *)

(** What can happen next: a request arrives, a worker thread runs its
    next statement, or the engine call of a worker returns.
    [WorkerBegin] and [WorkerEnd] are the same steps taken without
    anything in between: a thread that has not started runs on until it
    is inside the engine or has ended, and a thread inside the engine
    gets its result and runs on to its end. *)
Inductive Event : Type :=
| ReqConvert (file_filename uuid4 : string) (o : SaveOutcome)
| ReqStatus (conversion_id : string)
| ReqDownload (conversion_id : string)
| ReqList
| ReqDelete (conversion_id : string)
| WorkerStep (n : nat)
| EngineReturn (n : nat) (run : EngineRun)
| WorkerBegin (n : nat)
| WorkerEnd (n : nat) (run : EngineRun).

Definition with_state (s : TState) (t : Thread) : Thread :=
  mkThread (t_conversion_id t) (t_pdf_path t) s.

Definition set_thread_state (n : nat) (s : TState) (w : World) : World :=
  set_threads (alter (with_state s) n) w.

(** Thread [n] runs its next statement. *)
Definition sched_step (n : nat) (w : World) : World :=
  match threads w !! n with
  | Some (mkThread cid path s) =>
      match thread_step cid path s w with
      | (w', s') => set_thread_state n s' w'
      end
  | None => w
  end.

(** The engine call of thread [n] returns. *)
Definition sched_return (n : nat) (run : EngineRun) (w : World) : World :=
  match threads w !! n with
  | Some (mkThread cid path s) =>
      match engine_return run s w with
      | (w', s') => set_thread_state n s' w'
      end
  | None => w
  end.

(** No path through [process_conversion] has more than eight
    statements between two points where the thread waits or ends. *)
Definition uninterrupted (n : nat) (w : World) : World :=
  Nat.iter 8 (sched_step n) w.

Definition sched_begin (n : nat) (w : World) : World :=
  match threads w !! n with
  | Some (mkThread cid path Spawned) => uninterrupted n w
  | _ => w
  end.

Definition sched_end (n : nat) (run : EngineRun) (w : World) : World :=
  match threads w !! n with
  | Some (mkThread cid path InEngine) => uninterrupted n (sched_return n run w)
  | _ => w
  end.

Definition step (e : Event) (w : World) : World :=
  match e with
  | ReqConvert file_filename uuid4 o => fst (convert_pdf file_filename uuid4 o w)
  | ReqStatus cid => fst (get_status cid w)
  | ReqDownload cid => fst (download_file cid w)
  | ReqList => fst (list_conversions w)
  | ReqDelete cid => fst (delete_conversion cid w)
  | WorkerStep n => sched_step n w
  | EngineReturn n run => sched_return n run w
  | WorkerBegin n => sched_begin n w
  | WorkerEnd n run => sched_end n run w
  end.

Definition run_events (evs : list Event) (w : World) : World :=
  foldl (fun w e => step e w) w evs.

(** The ids [uuid.uuid4()] returned along a run. *)
Fixpoint uuids (evs : list Event) : list string :=
  match evs with
  | [] => []
  | ReqConvert file_filename u _ :: evs' =>
      if Str.endswith (Str.lower file_filename) ".pdf" then u :: uuids evs'
      else uuids evs'
  | _ :: evs' => uuids evs'
  end.

Definition terminal (s : string) : Prop := s = "completed" \/ s = "error".


(** ** Closed forms used in the proofs *)

(** The record the worker leaves for an engine outcome. *)
Definition finish_job (cid : string) (o : result exn (option string)) (j : Job) : Job :=
  match o with
  | Ok fname =>
      if Str.truthy_opt fname then
        mkJob (id j) "completed" "Conversão concluída!"
              (Some ("/download/" +:+ cid)) fname (original_filename j)
      else
        mkJob (id j) "error" "Falha na conversão" (url j) (filename j)
              (original_filename j)
  | Raise e =>
      mkJob (id j) "error" (str e) (url j) (filename j) (original_filename j)
  end.

(** The path [delete_conversion] removes for a record: [OUTPUT_DIR /
    filename] when the record has a truthy [filename]. *)
Definition artifact_path (conv : Job) : option string :=
  match filename conv with
  | Some fname => if Str.truthy fname then Some (path_join OUTPUT_DIR fname) else None
  | None => None
  end.

Definition accepted_response (conversion_id : string) : ConversionStatus :=
  mkConversionStatus conversion_id "pending"
    (Some "Conversão iniciada. Use /status/{id} para acompanhar.") None None.

(** ** The invariant of the running service *)

(** What the record of a job looks like, given where its worker
    stands. *)
Definition job_ok (cid : string) (s : TState) (j : Job) : Prop :=
  match s with
  | Spawned =>
      status j = "pending" /\ filename j = None /\ url j = None
  | AtLine L230 | AtLine L237 | InEngine | AtLine L247 | AtLine (L251 _) =>
      status j = "processing" /\ filename j = None /\ url j = None
  | AtLine (L241 f) =>
      status j = "processing" /\ filename j = None /\ url j = None
      /\ Str.truthy_opt f = true
  | AtLine (L242 f) | AtLine (L243 f) =>
      status j = "completed" /\ filename j = None /\ url j = None
      /\ Str.truthy_opt f = true
  | AtLine (L244 f) =>
      status j = "completed" /\ filename j = f /\ url j = None
      /\ Str.truthy_opt f = true
  | AtLine L248 | AtLine (L252 _) =>
      status j = "error" /\ filename j = None /\ url j = None
  | AtLine (L257 _) | Finished _ =>
      (status j = "completed" /\ Str.truthy_opt (filename j) = true
       /\ url j = Some ("/download/" +:+ cid))
      \/ (status j = "error" /\ filename j = None /\ url j = None)
  end.

(** No two worker threads serve the same conversion id. *)
Definition unique_threads (w : World) : Prop :=
  forall i k t t',
    threads w !! i = Some t -> threads w !! k = Some t' ->
    t_conversion_id t = t_conversion_id t' -> i = k.

(** No worker thread was started for [u]. *)
Definition unused (u : string) (w : World) : Prop :=
  forall i t, threads w !! i = Some t -> t_conversion_id t <> u.

Record Inv (w : World) : Prop := mkInv {
  inv_unique : unique_threads w;
  inv_path : forall i t,
    threads w !! i = Some t -> t_pdf_path t = upload_path (t_conversion_id t);
  inv_job : forall cid j,
    conversions w !! cid = Some j ->
    exists i t, threads w !! i = Some t /\ t_conversion_id t = cid
                /\ job_ok cid (t_state t) j;
  inv_done : forall i t e,
    threads w !! i = Some t -> t_state t = Finished e ->
    upload_path (t_conversion_id t) ∉ files w
}.

(** The ids still to come are new to the world. *)
Definition fresh_for (evs : list Event) (w : World) : Prop :=
  NoDup (uuids evs) /\ forall u, u ∈ uuids evs -> unused u w.


(** An engine outcome the worker treats as a failure: an exception, or
    a falsy return value. *)
Definition failed (o : result exn (option string)) : Prop :=
  match o with
  | Ok fname => Str.truthy_opt fname = false
  | Raise _ => True
  end.

(** The message the worker records for a failed outcome. *)
Definition failure_message (o : result exn (option string)) : string :=
  match o with
  | Ok _ => "Falha na conversão"
  | Raise e => str e
  end.

(** ** The specification's artifact lookup *)

(** Following the spec's words, [locateArtifact(outputDir, extension,
    after)]: among the files with the extension whose modification time
    is at or after [after], the most recently modified one. *)
Definition locateArtifact_spec (files : Listing) (extension : string) (after : Z)
  : option string :=
  fst <$> head (sort_desc
    (List.filter (fun f => Str.endswith (fst f) extension && (after <=? snd f)) files)).

(** A poll of [_wait_for_download] that yields nothing: a download is
    still in progress, or no [.docx] file is listed. *)
Definition poll_empty (files : Listing) : Prop :=
  existsb is_crdownload files = true \/ List.filter is_docx files = [].

(** The worker has made its last write to the record: it stands at
    the [finally] block, or has finished. *)
Definition past_writes (s : TState) : bool :=
  match s with
  | AtLine (L257 _) | Finished _ => true
  | _ => false
  end.

(** The worker of the job has made its last write. *)
Definition written (cid : string) (w : World) : Prop :=
  exists n t,
    threads w !! n = Some t /\ t_conversion_id t = cid /\ past_writes (t_state t) = true.

(** Events that are one step; [WorkerBegin] and [WorkerEnd] are runs of
    several. *)
Definition atomic (e : Event) : bool :=
  match e with
  | WorkerBegin _ | WorkerEnd _ _ => false
  | _ => true
  end.

(** The exception, if any, with which a worker run ended. *)
Definition escaped_of (r : result exn unit) : option exn :=
  match r with
  | Ok _ => None
  | Raise e => Some e
  end.

(** A thread followed on its own, [k] statements long. *)
Definition run_thread (k : nat) (cid path : string) (x : World * TState)
  : World * TState :=
  Nat.iter k (fun x => thread_step cid path (snd x) (fst x)) x.

(** The number of statements a thread can still run before it waits
    for the engine or ends, at most. *)
Definition rank (s : TState) : nat :=
  match s with
  | Spawned => 5
  | AtLine L230 => 4
  | AtLine L237 => 1
  | AtLine (L241 _) => 7
  | AtLine (L242 _) => 6
  | AtLine (L243 _) => 5
  | AtLine (L244 _) => 4
  | AtLine L247 => 5
  | AtLine L248 => 4
  | AtLine (L251 _) => 3
  | AtLine (L252 _) => 2
  | AtLine (L257 _) => 1
  | InEngine | Finished _ => 0
  end.

(** ** Further definitions for the properties of the service *)

(** Requests that only read: status, download, listing. *)
Definition is_query (e : Event) : bool :=
  match e with
  | ReqStatus _ | ReqDownload _ | ReqList => true
  | _ => false
  end.

(** The ids of the submissions that start a worker, in order: the file
    name passed validation and the upload was saved. *)
Fixpoint spawned_ids (evs : list Event) : list string :=
  match evs with
  | [] => []
  | ReqConvert file_filename u SaveOk :: evs' =>
      if Str.endswith (Str.lower file_filename) ".pdf" then u :: spawned_ids evs'
      else spawned_ids evs'
  | _ :: evs' => spawned_ids evs'
  end.

(** The order of the statuses: a status, and the ones that can come
    after it. *)
Definition forward (s s' : string) : Prop :=
  s' = s
  \/ (s = "pending" /\ (s' = "processing" \/ terminal s'))
  \/ (s = "processing" /\ terminal s').

(** The id has a worker thread. *)
Definition served (cid : string) (w : World) : Prop :=
  exists n t, threads w !! n = Some t /\ t_conversion_id t = cid.

(** What identifies a worker thread: the id and the path it was given. *)
Definition thread_key (t : Thread) : string * string :=
  (t_conversion_id t, t_pdf_path t).


(** The paths handed to the engine, in the order of the calls. *)
Definition converted (effs : list Effect) : list string :=
  omap (fun x => match x with EConvert p => Some p | _ => None end) effs.

(** The thread has made its call of [converter.convert], or has left
    the [try] body before reaching it. *)
Definition past_call (s : TState) : bool :=
  match s with
  | Spawned | AtLine L230 | AtLine L237 => false
  | _ => true
  end.

(** No path was handed to the engine twice; every engine call on
    record was made by a worker thread, with the path that thread was
    given, and that thread is at or past its call; and every worker
    that is inside the engine has its call on record. *)
Definition engine_log_ok (w : World) : Prop :=
  NoDup (converted (effects w))
  /\ (forall p, p ∈ converted (effects w) ->
       exists n t,
         threads w !! n = Some t /\ t_pdf_path t = p /\ past_call (t_state t) = true)
  /\ (forall n t,
       threads w !! n = Some t -> t_state t = InEngine ->
       t_pdf_path t ∈ converted (effects w)).

(** What has become of the record [j] of a job: it is gone, or it has
    the same id and original file name and a status not before that
    of [j]. *)
Definition follows (cid : string) (j : Job) (w : World) : Prop :=
  match conversions w !! cid with
  | None => True
  | Some j' =>
      forward (status j) (status j')
      /\ id j' = id j /\ original_filename j' = original_filename j
  end.

(** The worker has written a terminal status and has not yet run the
    [finally] block. *)
Definition before_cleanup (s : TState) : bool :=
  match s with
  | AtLine (L242 _) | AtLine (L243 _) | AtLine (L244 _)
  | AtLine L248 | AtLine (L252 _) | AtLine (L257 _) => true
  | _ => false
  end.

(** The paths handed to [os.remove], in the order of the calls. *)
Definition removed (effs : list Effect) : list string :=
  omap (fun x => match x with ERemove p => Some p | _ => None end) effs.

(** How many times [os.remove] was called on [p]. *)
Definition removals (p : string) (effs : list Effect) : nat :=
  length (filter (fun q => q = p) (removed effs)).

Definition finished (s : TState) : bool :=
  match s with
  | Finished _ => true
  | _ => false
  end.

(** The ids of a run are plain names: none starts with a slash (a
    [uuid4] string never does), so that [UPLOAD_DIR / f"{id}.pdf"] is
    a path inside the upload directory. *)
Definition plain_ids (evs : list Event) : Prop :=
  Forall (fun u => Str.startswith u "/" = false) (uuids evs).

(** The worker of a job has called [os.remove] on the upload once if
    it has finished, and not at all if it has not; and nothing else
    removes an upload. *)
Definition removals_ok (w : World) : Prop :=
  (forall n t, threads w !! n = Some t ->
     Str.startswith (t_conversion_id t) "/" = false)
  /\ (forall u, Str.startswith u "/" = false ->
        upload_path u ∈ removed (effects w) -> served u w)
  /\ (forall n t, threads w !! n = Some t ->
        removals (t_pdf_path t) (effects w)
        = if finished (t_state t) then 1%nat else 0%nat).
(** * Properties *)

(** ** Strings *)

Section StringFacts.

Lemma list_ascii_append (a b : string) :
  list_ascii_of_string (a +:+ b) = (list_ascii_of_string a ++ list_ascii_of_string b)%list.
Proof. induction a as [|c a IH]; simpl; [done | by rewrite IH]. Qed.

Lemma list_ascii_inj (a b : string) :
  list_ascii_of_string a = list_ascii_of_string b -> a = b.
Proof.
  intros H. rewrite <- (string_of_list_ascii_of_string a), H.
  apply string_of_list_ascii_of_string.
Qed.

Lemma append_inv_tail (a b s : string) : a +:+ s = b +:+ s -> a = b.
Proof.
  intros H. apply list_ascii_inj.
  apply (f_equal list_ascii_of_string) in H.
  rewrite !list_ascii_append in H. by apply app_inv_tail in H.
Qed.

Lemma append_cons (x : ascii) (a b : string) : String x a +:+ b = String x (a +:+ b).
Proof. reflexivity. Qed.

Lemma endswith_unfold (s suf : string) :
  Str.endswith s suf =
  (String.eqb s suf ||
   match s with
   | EmptyString => false
   | String _ s' => Str.endswith s' suf
   end).
Proof. by destruct s. Qed.

Lemma endswith_refl (s : string) : Str.endswith s s = true.
Proof. by rewrite endswith_unfold, String.eqb_refl. Qed.

Lemma endswith_append (pre suf : string) : Str.endswith (pre +:+ suf) suf = true.
Proof.
  induction pre as [|c pre IH].
  - apply endswith_refl.
  - rewrite append_cons, endswith_unfold, IH. apply orb_true_r.
Qed.

(** [endswith] is the suffix test. *)
Lemma endswith_spec (s suf : string) :
  Str.endswith s suf = true <-> exists pre, s = pre +:+ suf.
Proof.
  split.
  - induction s as [|c s IH]; rewrite endswith_unfold; intros H.
    + apply orb_true_iff in H as [H | H]; [|done].
      apply String.eqb_eq in H. by exists "".
    + apply orb_true_iff in H as [H | H].
      * apply String.eqb_eq in H. by exists "".
      * destruct (IH H) as [pre ->]. by exists (String c pre).
  - intros [pre ->]. apply endswith_append.
Qed.


Lemma truthy_spec (s : string) : Str.truthy s = true <-> s <> "".
Proof.
  unfold Str.truthy. rewrite negb_true_iff. apply String.eqb_neq.
Qed.

Lemma truthy_opt_spec (o : option string) :
  Str.truthy_opt o = true <-> exists f, o = Some f /\ f <> "".
Proof.
  destruct o as [f|]; simpl.
  - rewrite truthy_spec. split; [eauto | by intros (? & [= ->] & ?)].
  - split; [done | by intros (? & ? & ?)].
Qed.


Lemma startswith_slash (s : string) :
  Str.startswith s "/" = true -> exists s', s = String "/"%char s'.
Proof.
  unfold Str.startswith. destruct s as [|c s]; [done|].
  change (String.prefix "/" (String c s))
    with (if ascii_dec "/" c then String.prefix "" s else false).
  destruct (ascii_dec "/" c) as [<-|]; [eauto | done].
Qed.

Lemma upload_path_inj (a b : string) : upload_path a = upload_path b -> a = b.
Proof.
  unfold upload_path, path_join, UPLOAD_DIR.
  destruct (Str.startswith (a +:+ ".pdf") "/") eqn:Ha,
           (Str.startswith (b +:+ ".pdf") "/") eqn:Hb; intros H.
  - by apply append_inv_tail in H.
  - apply startswith_slash in Ha as [a' Ha]. rewrite Ha in H. discriminate.
  - apply startswith_slash in Hb as [b' Hb]. rewrite Hb in H. discriminate.
  - simpl in H. injection H as H.
    change (a +:+ ".pdf" = b +:+ ".pdf") in H. by apply append_inv_tail in H.
Qed.

Lemma output_file_not_upload (name cid : string) : output_file name <> upload_path cid.
Proof.
  unfold output_file, upload_path, path_join, OUTPUT_DIR, UPLOAD_DIR.
  destruct (Str.startswith (cid +:+ ".pdf") "/") eqn:Hc; simpl.
  - apply startswith_slash in Hc as [c' ->]. discriminate.
  - discriminate.
Qed.

End StringFacts.

(** ** The worker, step by step *)

Section Worker.

Implicit Types (w : World) (j : Job) (cid path : string).

(** [os.remove] under [except: pass] always ends normally, with the
    path gone. *)
Lemma remove_quietly_eq {E} path w :
  try_except (E' := E) (os_remove path) (fun _ => mret tt) w
  = (set_files (fun fs => fs ∖ {[path]}) (log (ERemove path) w), Ok tt).
Proof.
  unfold try_except, os_remove.
  destruct (decide (path ∈ files (log (ERemove path) w))) as [Hin|Hout]; [done|].
  unfold mret, M_ret, set_files, log. simpl in *. do 2 f_equal.
  symmetry. apply difference_disjoint_L. set_solver.
Qed.

Lemma cleanup_eq path w :
  cleanup path w = (set_files (fun fs => fs ∖ {[path]}) (log (ERemove path) w), Ok tt).
Proof. apply remove_quietly_eq. Qed.

Lemma update_job_present cid f w j :
  conversions w !! cid = Some j ->
  update_job cid f w = (set_conversions (<[cid := f j]>) w, Ok tt).
Proof. intros H. unfold update_job. by rewrite H. Qed.

Lemma update_job_absent cid f w :
  conversions w !! cid = None ->
  update_job cid f w = (w, Raise (KeyError cid)).
Proof. intros H. unfold update_job. by rewrite H. Qed.

(** Two writes to the same record in a row. *)
Lemma update_job_twice cid f g w j :
  conversions w !! cid = Some j ->
  (update_job cid f ;; update_job cid g) w
  = (set_conversions (<[cid := g (f j)]>) w, Ok tt).
Proof.
  intros H. unfold mbind, M_bind. rewrite (update_job_present _ _ _ _ H).
  unfold update_job, set_conversions. simpl.
  rewrite lookup_insert_eq. simpl. by rewrite insert_insert_eq.
Qed.

Lemma before_engine_present cid w j :
  conversions w !! cid = Some j ->
  before_engine cid w
  = (set_conversions
       (<[cid := set_message "Convertendo PDF para Word..." (set_status "processing" j)]>) w,
     Ok tt).
Proof. apply update_job_twice. Qed.

Lemma before_engine_absent cid w :
  conversions w !! cid = None ->
  before_engine cid w = (w, Raise (KeyError cid)).
Proof.
  intros H. unfold before_engine, mbind, M_bind.
  by rewrite (update_job_absent _ _ _ H).
Qed.

Lemma on_exception_present cid e w j :
  conversions w !! cid = Some j ->
  on_exception cid e w
  = (set_conversions (<[cid := set_message (str e) (set_status "error" j)]>) w, Ok tt).
Proof. apply update_job_twice. Qed.

Lemma on_exception_absent cid e w :
  conversions w !! cid = None ->
  on_exception cid e w = (w, Raise (KeyError cid)).
Proof.
  intros H. unfold on_exception, mbind, M_bind.
  by rewrite (update_job_absent _ _ _ H).
Qed.


Lemma after_engine_present cid fname w j :
  conversions w !! cid = Some j ->
  after_engine cid fname w
  = (set_conversions (<[cid := finish_job cid (Ok fname) j]>) w, Ok tt).
Proof.
  intros H. unfold after_engine, finish_job.
  destruct (Str.truthy_opt fname).
  - unfold mbind, M_bind. rewrite (update_job_present _ _ _ _ H).
    unfold update_job, set_conversions. simpl.
    rewrite lookup_insert_eq. simpl. rewrite lookup_insert_eq. simpl.
    rewrite lookup_insert_eq. simpl. by rewrite !insert_insert_eq.
  - by rewrite (update_job_twice _ _ _ _ _ H).
Qed.

Lemma after_engine_absent cid fname w :
  conversions w !! cid = None ->
  after_engine cid fname w = (w, Raise (KeyError cid)).
Proof.
  intros H. unfold after_engine, mbind, M_bind.
  destruct (Str.truthy_opt fname); by rewrite (update_job_absent _ _ _ H).
Qed.

(** The worker run as one piece, for a registered job. *)
Lemma process_conversion_present run cid path w j :
  conversions w !! cid = Some j ->
  process_conversion run cid path w
  = (mkWorld
       (<[cid := finish_job cid (outcome run)
                   (set_message "Convertendo PDF para Word..." (set_status "processing" j))]>
          (conversions w))
       ((files w ∪ list_to_set (output_file <$> downloaded run)) ∖ {[path]})
       (threads w)
       (effects w ++ [EConvert path; ERemove path]),
     Ok tt).
Proof.
  intros Hc. unfold process_conversion, try_finally, try_except.
  unfold mbind at 1. unfold M_bind at 1. rewrite (before_engine_present _ _ _ Hc).
  unfold mbind at 1. unfold M_bind at 1. unfold engine_convert.
  match goal with
  | |- context [after_engine cid _ ?w1] =>
      assert (conversions w1 !! cid
              = Some (set_message "Convertendo PDF para Word..."
                        (set_status "processing" j))) as Hw
        by (simpl; apply lookup_insert_eq)
  end.
  destruct (outcome run) as [fname|e].
  - rewrite (after_engine_present _ _ _ _ Hw), cleanup_eq.
    unfold set_files, set_conversions, log. simpl.
    by rewrite insert_insert_eq, <- app_assoc.
  - rewrite (on_exception_present _ _ _ _ Hw), cleanup_eq.
    unfold set_files, set_conversions, log. simpl.
    by rewrite insert_insert_eq, <- app_assoc.
Qed.

Lemma process_conversion_absent run cid path w :
  conversions w !! cid = None ->
  process_conversion run cid path w
  = (mkWorld (conversions w) (files w ∖ {[path]}) (threads w)
             (effects w ++ [ERemove path]),
     Raise (KeyError cid)).
Proof.
  intros Hc. unfold process_conversion, try_finally, try_except.
  unfold mbind at 1. unfold M_bind at 1.
  by rewrite (before_engine_absent _ _ Hc), (on_exception_absent _ _ _ Hc), cleanup_eq.
Qed.

(** *** One statement *)

(** A write of the worker either finds the record and updates it, or
    finds none, changes nothing and raises [KeyError]. *)
Lemma thread_step_write cid path s w f next in_except :
  write_at cid s = Some (f, next, in_except) ->
  (exists j, conversions w !! cid = Some j
     /\ thread_step cid path s w = (set_conversions (<[cid := f j]>) w, next))
  \/ (conversions w !! cid = None
      /\ thread_step cid path s w
         = (w, if in_except then AtLine (L257 (Some (KeyError cid)))
               else AtLine (L251 (KeyError cid)))).
Proof.
  intros Hw. unfold thread_step. rewrite Hw.
  destruct (conversions w !! cid) as [j|] eqn:Hc.
  - left. exists j. split; [done|]. by rewrite (update_job_present _ _ _ _ Hc).
  - right. split; [done|]. by rewrite (update_job_absent _ _ _ Hc).
Qed.

(** The statements that are not writes. *)
Lemma thread_step_other cid path s w :
  write_at cid s = None ->
  (s = AtLine L237 /\ thread_step cid path s w = (log (EConvert path) w, InEngine))
  \/ (exists esc, s = AtLine (L257 esc)
        /\ thread_step cid path s w
           = (set_files (fun fs => fs ∖ {[path]}) (log (ERemove path) w), Finished esc))
  \/ ((s = InEngine \/ exists esc, s = Finished esc) /\ thread_step cid path s w = (w, s)).
Proof.
  intros Hw. unfold thread_step. rewrite Hw.
  destruct s as [|[]| |esc]; try discriminate Hw.
  - by left.
  - right. left. eexists. split; [done|]. by rewrite cleanup_eq.
  - right. right. split; [by left | done].
  - right. right. split; [right; by eexists | done].
Qed.

Lemma threads_thread_step cid path s w :
  threads (fst (thread_step cid path s w)) = threads w.
Proof.
  unfold thread_step. destruct (write_at cid s) as [[[f next] inx]|].
  - unfold update_job. by destruct (conversions w !! cid).
  - destruct s as [|[]| |esc]; try done. by rewrite cleanup_eq.
Qed.

End Worker.

(** ** The handlers *)

Section Handlers.

Implicit Types (w : World) (conv : Job) (cid : string).

Lemma convert_pdf_rejected file_filename uuid4 o w :
  Str.endswith (Str.lower file_filename) ".pdf" = false ->
  convert_pdf file_filename uuid4 o w
  = (w, Raise (mkHTTPException 400 "O arquivo deve ser um PDF")).
Proof. intros H. unfold convert_pdf. by rewrite H. Qed.

Lemma convert_pdf_saved file_filename uuid4 w :
  Str.endswith (Str.lower file_filename) ".pdf" = true ->
  convert_pdf file_filename uuid4 SaveOk w
  = (mkWorld (<[uuid4 := pending_job uuid4 file_filename]> (conversions w))
             (files w ∪ {[upload_path uuid4]})
             (threads w ++ [mkThread uuid4 (upload_path uuid4) Spawned])
             (effects w ++ [EWrite (upload_path uuid4)]),
     Ok (accepted_response uuid4)).
Proof. intros H. unfold convert_pdf. by rewrite H. Qed.

Lemma convert_pdf_not_saved file_filename uuid4 e created w :
  Str.endswith (Str.lower file_filename) ".pdf" = true ->
  exists w',
    convert_pdf file_filename uuid4 (SaveFails e created) w
    = (w', Raise (mkHTTPException 500 ("Erro ao salvar arquivo: " +:+ str e)))
    /\ conversions w' = conversions w /\ threads w' = threads w
    /\ files w' ⊆ files w ∪ {[upload_path uuid4]} /\ files w ⊆ files w'.
Proof.
  intros H. unfold convert_pdf. rewrite H. simpl.
  destruct created; eexists; (split; [reflexivity|]); simpl; set_solver.
Qed.

Lemma get_status_absent cid w :
  conversions w !! cid = None ->
  get_status cid w = (w, Raise (mkHTTPException 404 "Conversão não encontrada")).
Proof. intros H. unfold get_status, mbind, M_bind, get. by rewrite H. Qed.

Lemma download_file_absent cid w :
  conversions w !! cid = None ->
  download_file cid w = (w, Raise (mkHTTPException 404 "Conversão não encontrada")).
Proof. intros H. unfold download_file, mbind, M_bind, get. by rewrite H. Qed.

(** The read-only handlers leave the world as it is. *)
Lemma get_status_pure cid w : fst (get_status cid w) = w.
Proof.
  unfold get_status, mbind, M_bind, get. by destruct (conversions w !! cid).
Qed.

Lemma download_file_pure cid w : fst (download_file cid w) = w.
Proof.
  unfold download_file, mbind, M_bind, get.
  destruct (conversions w !! cid) as [conv|]; [|done].
  destruct (negb _); [done|].
  destruct (filename conv) as [fname|]; [|done].
  destruct (Str.truthy fname); [|done]. by destruct (negb _).
Qed.

Lemma list_conversions_pure w : fst (list_conversions w) = w.
Proof. done. Qed.

Lemma delete_conversion_absent cid w :
  conversions w !! cid = None ->
  delete_conversion cid w = (w, Raise (mkHTTPException 404 "Conversão não encontrada")).
Proof. intros H. unfold delete_conversion, mbind, M_bind, get. by rewrite H. Qed.

Lemma delete_conversion_present cid w conv :
  conversions w !! cid = Some conv ->
  delete_conversion cid w
  = (mkWorld (delete cid (conversions w))
             (match artifact_path conv with
              | Some p => files w ∖ {[p]}
              | None => files w
              end)
             (threads w)
             (match artifact_path conv with
              | Some p => effects w ++ [ERemove p]
              | None => effects w
              end),
     Ok "Conversão removida").
Proof.
  intros H. unfold delete_conversion, artifact_path.
  unfold mbind at 1. unfold M_bind at 1. unfold get at 1. rewrite H.
  unfold mbind at 1. unfold M_bind at 1.
  destruct (filename conv) as [fname|]; [destruct (Str.truthy fname)|].
  - by rewrite remove_quietly_eq.
  - by destruct w.
  - by destruct w.
Qed.

End Handlers.

(** ** The service invariant *)

Section Invariant.

Implicit Types (w : World) (j : Job) (cid path : string) (t : Thread).

Lemma lookup_with_state s n (ts : list Thread) i t' :
  alter (with_state s) n ts !! i = Some t' ->
  exists t, ts !! i = Some t
    /\ t_conversion_id t' = t_conversion_id t
    /\ t_pdf_path t' = t_pdf_path t
    /\ (i = n -> t_state t' = s)
    /\ (i <> n -> t' = t).
Proof.
  destruct (decide (i = n)) as [->|Hne].
  - rewrite list_lookup_alter_eq.
    destruct (ts !! n) as [t|]; simpl; [|done].
    intros [= <-]. exists t. by repeat split.
  - rewrite list_lookup_alter_ne by done.
    intros H. exists t'. by repeat split.
Qed.

Lemma Inv_world0 : Inv world0.
Proof. by split. Qed.

(** A step that only moves thread [n] to state [s]: the invariant
    survives when the record of that thread's job fits [s] and no
    upload reappears. *)
Lemma Inv_move_thread w w' n t0 s :
  Inv w ->
  threads w !! n = Some t0 ->
  threads w' = alter (with_state s) n (threads w) ->
  (forall cid j', conversions w' !! cid = Some j' ->
     (cid = t_conversion_id t0 /\ job_ok cid s j') \/
     (cid <> t_conversion_id t0 /\ conversions w !! cid = Some j')) ->
  (forall cid, upload_path cid ∈ files w' -> upload_path cid ∈ files w) ->
  (forall e, s = Finished e -> upload_path (t_conversion_id t0) ∉ files w') ->
  Inv w'.
Proof.
  intros [Hu Hp Hj Hd] Hn Hts Hconv Hfiles Hfin. split.
  - intros i k t t' Hi Hk Heq. rewrite Hts in Hi, Hk.
    apply lookup_with_state in Hi as (a & Ha & Hia & _).
    apply lookup_with_state in Hk as (b & Hb & Hib & _).
    apply (Hu i k a b Ha Hb). congruence.
  - intros i t Hi. rewrite Hts in Hi.
    apply lookup_with_state in Hi as (a & Ha & Hia & Hpa & _).
    rewrite Hia, Hpa. by apply (Hp i).
  - intros cid j' Hc. destruct (Hconv cid j' Hc) as [[-> Hok] | [Hne Hold]].
    + exists n, (with_state s t0). rewrite Hts, list_lookup_alter_eq, Hn. by repeat split.
    + destruct (Hj cid j' Hold) as (i & t & Hi & Hid & Hok).
      assert (i <> n) as Hin.
      { intros ->. rewrite Hn in Hi. by injection Hi as <-. }
      exists i, t. rewrite Hts, list_lookup_alter_ne by done. by repeat split.
  - intros i t e Hi Hst Hin. rewrite Hts in Hi.
    apply lookup_with_state in Hi as (a & Ha & Hia & _ & His & Hother).
    destruct (decide (i = n)) as [->|Hne].
    + rewrite Hn in Ha. injection Ha as <-.
      rewrite His in Hst by done. rewrite Hia in Hin. by apply (Hfin e).
    + rewrite (Hother Hne) in Hst, Hin.
      apply (Hd i a e Ha Hst). by apply Hfiles.
Qed.

(** The record of a job whose worker is thread [n] fits that thread. *)
Lemma Inv_job_of_thread w n t j :
  Inv w -> threads w !! n = Some t ->
  conversions w !! t_conversion_id t = Some j ->
  job_ok (t_conversion_id t) (t_state t) j.
Proof.
  intros [Hu _ Hj _] Hn Hc.
  destruct (Hj _ _ Hc) as (i & t' & Hi & Hid & Hok).
  assert (i = n) as -> by (by apply (Hu i n t' t)).
  rewrite Hn in Hi. by injection Hi as <-.
Qed.

Lemma upload_not_downloaded cid (names : list string) :
  upload_path cid ∉ (list_to_set (output_file <$> names) : gset string).
Proof.
  rewrite elem_of_list_to_set, list_elem_of_fmap.
  intros (name & Heq & _). by apply (output_file_not_upload name cid).
Qed.


(** Moving a thread to the state it is in changes nothing. *)
Lemma set_thread_state_same n w cid path s :
  threads w !! n = Some (mkThread cid path s) -> set_thread_state n s w = w.
Proof.
  intros Hn. destruct w as [c f ts e]. unfold set_thread_state, set_threads. simpl in *.
  f_equal. apply list_eq. intros i. destruct (decide (i = n)) as [->|Hne].
  - by rewrite list_lookup_alter_eq, Hn.
  - by rewrite list_lookup_alter_ne.
Qed.

(** Every write of the worker takes a record that fits the point
    before it to one that fits the point after it. *)
Lemma job_ok_write cid s f next in_except j :
  write_at cid s = Some (f, next, in_except) ->
  job_ok cid s j -> job_ok cid next (f j).
Proof.
  destruct s as [|[]| |]; simpl; try done; intros [= <- <- <-]; simpl;
    try (intros (? & ? & ? & ?)); try (intros (? & ? & ?)); try by repeat split.
  - left. repeat split; try done. congruence.
  - by right.
  - by right.
Qed.

Lemma write_at_next_not_finished cid s f next in_except :
  write_at cid s = Some (f, next, in_except) -> forall e, next <> Finished e.
Proof. by destruct s as [|[]| |]; simpl; try done; intros [= <- <- <-]. Qed.

Lemma Inv_sched_step n w : Inv w -> Inv (sched_step n w).
Proof.
  intros HI. unfold sched_step.
  destruct (threads w !! n) as [[cid path s]|] eqn:Hn; [|done].
  assert (path = upload_path cid) as Hpath by apply (inv_path _ HI _ _ Hn).
  destruct (write_at cid s) as [[[f next] inx]|] eqn:Hw.
  - destruct (thread_step_write cid path s w f next inx Hw) as [(j & Hc & ->) | [Hc ->]].
    + pose proof (Inv_job_of_thread _ _ _ _ HI Hn Hc) as Hok.
      apply (Inv_move_thread w _ n _ next HI Hn); simpl; try done.
      * intros c j'. destruct (decide (c = cid)) as [->|Hne].
        -- rewrite lookup_insert_eq. intros [= <-]. left. split; [done|].
           by apply (job_ok_write cid s f next inx).
        -- rewrite lookup_insert_ne by done. by right.
      * intros e He. by destruct (write_at_next_not_finished _ _ _ _ _ Hw e).
    + eapply (Inv_move_thread w); [exact HI | exact Hn | reflexivity | | | ]; simpl.
      * intros c j' Hc'. right. split; [|done]. intros ->. congruence.
      * done.
      * by destruct inx.
  - destruct (thread_step_other cid path s w Hw)
      as [[-> ->] | [(esc & -> & ->) | [_ ->]]].
    + apply (Inv_move_thread w _ n _ InEngine HI Hn); simpl; try done.
      intros c j' Hc'. destruct (decide (c = cid)) as [->|Hne]; [|by right].
      left. split; [done|]. apply (Inv_job_of_thread _ _ _ _ HI Hn Hc').
    + apply (Inv_move_thread w _ n _ (Finished esc) HI Hn); simpl; try done.
      * intros c j' Hc'. destruct (decide (c = cid)) as [->|Hne]; [|by right].
        left. split; [done|]. apply (Inv_job_of_thread _ _ _ _ HI Hn Hc').
      * set_solver.
      * intros _ _. rewrite Hpath. set_solver.
    + by rewrite (set_thread_state_same _ _ _ _ _ Hn).
Qed.

Lemma Inv_sched_return n run w : Inv w -> Inv (sched_return n run w).
Proof.
  intros HI. unfold sched_return.
  destruct (threads w !! n) as [[cid path s]|] eqn:Hn; [|done].
  destruct s as [|l| |esc]; simpl;
    try by rewrite (set_thread_state_same _ _ _ _ _ Hn).
  eapply (Inv_move_thread w); [exact HI | exact Hn | reflexivity | | | ]; simpl.
  - intros c j' Hc'. destruct (decide (c = cid)) as [->|Hne]; [|by right].
    left. split; [done|].
    pose proof (Inv_job_of_thread _ _ _ _ HI Hn Hc') as Hok. simpl in Hok.
    destruct (outcome run) as [fname|e]; [|done].
    destruct (Str.truthy_opt fname) eqn:Ht; simpl; [|done].
    destruct Hok as (? & ? & ?). by repeat split.
  - intros c. pose proof (upload_not_downloaded c (downloaded run)). set_solver.
  - intros e. destruct (outcome run) as [fname|e0]; [|done].
    by destruct (Str.truthy_opt fname).
Qed.

(** What holds before and after every statement holds after a run of
    statements taken without interruption. *)
Lemma uninterrupted_ind (P : World -> Prop) n w :
  (forall w', P w' -> P (sched_step n w')) -> P w -> P (uninterrupted n w).
Proof. intros Hstep Hw. unfold uninterrupted. by apply Nat.iter_invariant. Qed.

Lemma sched_begin_ind (P : World -> Prop) n w :
  (forall w', P w' -> P (sched_step n w')) -> P w -> P (sched_begin n w).
Proof.
  intros Hstep Hw. unfold sched_begin.
  destruct (threads w !! n) as [[cid path []]|]; try done.
  by apply uninterrupted_ind.
Qed.

Lemma sched_end_ind (P : World -> Prop) n run w :
  (forall w', P w' -> P (sched_step n w')) ->
  (forall w', P w' -> P (sched_return n run w')) ->
  P w -> P (sched_end n run w).
Proof.
  intros Hstep Hret Hw. unfold sched_end.
  destruct (threads w !! n) as [[cid path []]|]; try done.
  apply uninterrupted_ind; [done|]. by apply Hret.
Qed.

(** A property kept by every single step is kept by every event. *)
Lemma step_lift (P : World -> Prop) e w :
  (atomic e = true -> P w -> P (step e w)) ->
  (forall n w', P w' -> P (step (WorkerStep n) w')) ->
  (forall n run w', P w' -> P (step (EngineReturn n run) w')) ->
  P w -> P (step e w).
Proof.
  intros Hat Hstep Hret Hw.
  destruct e as [f u o|c|c| |c|n|n run|n|n run]; try (by apply Hat).
  - simpl. apply sched_begin_ind; [apply Hstep | done].
  - simpl. apply sched_end_ind; [apply Hstep | apply Hret | done].
Qed.

Lemma Inv_sched_begin n w : Inv w -> Inv (sched_begin n w).
Proof. apply sched_begin_ind. intros w'. apply Inv_sched_step. Qed.

Lemma Inv_sched_end n run w : Inv w -> Inv (sched_end n run w).
Proof.
  apply sched_end_ind; intros w'; [apply Inv_sched_step | apply Inv_sched_return].
Qed.

Lemma Inv_delete_conversion cid w : Inv w -> Inv (fst (delete_conversion cid w)).
Proof.
  intros [Hu Hp Hj Hd].
  destruct (conversions w !! cid) as [conv|] eqn:Hc.
  - rewrite (delete_conversion_present _ _ _ Hc). split; simpl; try done.
    + intros c j. destruct (decide (c = cid)) as [->|Hne].
      * by rewrite lookup_delete_eq.
      * rewrite lookup_delete_ne by done. apply Hj.
    + intros i t e Hi Hst Hin. apply (Hd i t e Hi Hst).
      destruct (artifact_path conv); set_solver.
  - by rewrite (delete_conversion_absent _ _ Hc).
Qed.

Lemma Inv_convert_pdf file_filename u o w :
  Inv w ->
  (Str.endswith (Str.lower file_filename) ".pdf" = true -> unused u w) ->
  Inv (fst (convert_pdf file_filename u o w)).
Proof.
  intros HI Hfresh.
  destruct (Str.endswith (Str.lower file_filename) ".pdf") eqn:Hext.
  2: { by rewrite (convert_pdf_rejected _ _ _ _ Hext). }
  specialize (Hfresh eq_refl). destruct HI as [Hu Hp Hj Hd].
  assert (forall i t e, threads w !! i = Some t -> t_state t = Finished e ->
            upload_path (t_conversion_id t) ∉ files w ∪ {[upload_path u]}) as Hfiles.
  { intros i t e Hi Hst. specialize (Hd i t e Hi Hst).
    assert (upload_path (t_conversion_id t) <> upload_path u).
    { intros Heq. apply upload_path_inj in Heq. by apply (Hfresh i t). }
    set_solver. }
  destruct o as [|e created].
  - rewrite (convert_pdf_saved _ _ _ Hext). split; simpl.
    + intros i k t t' Hi Hk Heq.
      apply lookup_snoc_Some in Hi as [[_ Hi] | [Hi <-]],
                                Hk as [[_ Hk] | [Hk <-]].
      * by apply (Hu i k t t').
      * by destruct (Hfresh i t Hi).
      * symmetry in Heq. by destruct (Hfresh k t' Hk).
      * congruence.
    + intros i t Hi. apply lookup_snoc_Some in Hi as [[_ Hi] | [_ <-]]; [|done].
      by apply (Hp i).
    + intros c j. destruct (decide (c = u)) as [->|Hne].
      * rewrite lookup_insert_eq. intros [= <-].
        exists (length (threads w)), (mkThread u (upload_path u) Spawned).
        split; [|done]. apply lookup_snoc_Some. by right.
      * rewrite lookup_insert_ne by done. intros Hc.
        destruct (Hj c j Hc) as (i & t & Hi & Hid & Hok).
        exists i, t. split; [|done]. by apply lookup_app_l_Some.
    + intros i t e Hi Hst.
      apply lookup_snoc_Some in Hi as [[_ Hi] | [_ <-]]; [|done].
      by apply (Hfiles i t e).
  - destruct (convert_pdf_not_saved file_filename u e created w Hext)
      as (w' & -> & Hc' & Ht' & Hf' & _).
    split; simpl.
    + unfold unique_threads. by rewrite Ht'.
    + by rewrite Ht'.
    + by rewrite Hc', Ht'.
    + rewrite Ht'. intros i t e' Hi Hst Hin.
      apply (Hfiles i t e' Hi Hst). set_solver.
Qed.

(** Every step keeps the invariant, provided a new id is really new. *)
Lemma Inv_step e w :
  Inv w -> (forall u, u ∈ uuids [e] -> unused u w) -> Inv (step e w).
Proof.
  intros HI Hfresh. destruct e as [f u o|cid|cid| |cid|n|n run|n|n run]; simpl.
  - apply Inv_convert_pdf; [done|]. intros Hext. apply Hfresh.
    simpl. rewrite Hext. set_solver.
  - by rewrite get_status_pure.
  - by rewrite download_file_pure.
  - done.
  - by apply Inv_delete_conversion.
  - by apply Inv_sched_step.
  - by apply Inv_sched_return.
  - by apply Inv_sched_begin.
  - by apply Inv_sched_end.
Qed.


(** A worker step changes no thread but the state of its own. *)
Lemma threads_sched_step n w :
  threads (sched_step n w) = threads w \/
  exists s, threads (sched_step n w) = alter (with_state s) n (threads w).
Proof.
  unfold sched_step.
  destruct (threads w !! n) as [[cid path s]|] eqn:Hn; [|by left].
  right. destruct (write_at cid s) as [[[f next] inx]|] eqn:Hw.
  - destruct (thread_step_write cid path s w f next inx Hw) as [(j & Hc & ->) | [Hc ->]];
      by eexists.
  - destruct (thread_step_other cid path s w Hw)
      as [[-> ->] | [(esc & -> & ->) | [_ ->]]]; by eexists.
Qed.

Lemma threads_sched_return n run w :
  threads (sched_return n run w) = threads w \/
  exists s, threads (sched_return n run w) = alter (with_state s) n (threads w).
Proof.
  unfold sched_return.
  destruct (threads w !! n) as [[cid path s]|] eqn:Hn; [|by left].
  right. destruct s; by eexists.
Qed.

(** The conversion id of every thread after a step is that of a thread
    before it, or the id the step was given by [uuid4]. *)
Lemma thread_ids_step e w i t :
  threads (step e w) !! i = Some t ->
  (exists t0, threads w !! i = Some t0 /\ t_conversion_id t0 = t_conversion_id t) \/
  t_conversion_id t ∈ uuids [e].
Proof.
  revert i t.
  apply (step_lift (fun w' => forall i t, threads w' !! i = Some t ->
     (exists t0, threads w !! i = Some t0 /\ t_conversion_id t0 = t_conversion_id t) \/
     t_conversion_id t ∈ uuids [e])).
  - intros Hat Hw. destruct e as [f u o|cid|cid| |cid|n|n run|n|n run]; try done; simpl.
    + destruct (Str.endswith (Str.lower f) ".pdf") eqn:Hext.
      2: { rewrite (convert_pdf_rejected _ _ _ _ Hext). intros i t Hi. left. by exists t. }
      destruct o as [|e created].
      * rewrite (convert_pdf_saved _ _ _ Hext). simpl.
        intros i t [[_ Hi] | [_ <-]]%lookup_snoc_Some; [eauto|]. right. set_solver.
      * destruct (convert_pdf_not_saved f u e created w Hext)
          as (w' & -> & _ & Ht' & _). simpl. rewrite Ht'.
        intros i t Hi. left. by exists t.
    + rewrite get_status_pure. intros i t Hi. left. by exists t.
    + rewrite download_file_pure. intros i t Hi. left. by exists t.
    + destruct (conversions w !! cid) as [conv|] eqn:Hc.
      * rewrite (delete_conversion_present _ _ _ Hc). simpl.
        intros i t Hi. left. by exists t.
      * rewrite (delete_conversion_absent _ _ Hc). simpl.
        intros i t Hi. left. by exists t.
    + intros i t. destruct (threads_sched_step n w) as [-> | [s ->]].
      * intros Hi. left. by exists t.
      * intros (t0 & Ht0 & Hid & _)%lookup_with_state. left. by exists t0.
    + intros i t. destruct (threads_sched_return n run w) as [-> | [s ->]].
      * intros Hi. left. by exists t.
      * intros (t0 & Ht0 & Hid & _)%lookup_with_state. left. by exists t0.
  - intros n w' Hw' i t. simpl.
    destruct (threads_sched_step n w') as [-> | [s ->]]; [apply Hw'|].
    intros (t0 & Ht0 & -> & _)%lookup_with_state. by apply Hw'.
  - intros n run w' Hw' i t. simpl.
    destruct (threads_sched_return n run w') as [-> | [s ->]]; [apply Hw'|].
    intros (t0 & Ht0 & -> & _)%lookup_with_state. by apply Hw'.
  - intros i t Hi. left. by exists t.
Qed.

Lemma unused_step e w u :
  unused u w -> u ∉ uuids [e] -> unused u (step e w).
Proof.
  intros Hu Hne i t Hi Heq.
  destruct (thread_ids_step e w i t Hi) as [(t0 & Ht0 & Hid) | Hin].
  - apply (Hu i t0 Ht0). congruence.
  - by rewrite Heq in Hin.
Qed.

Lemma uuids_cons e evs : uuids (e :: evs) = (uuids [e] ++ uuids evs)%list.
Proof.
  destruct e as [f u o| | | | | | | | ]; simpl; try done.
  by destruct (Str.endswith (Str.lower f) ".pdf").
Qed.

Lemma uuids_app evs1 evs2 :
  uuids (evs1 ++ evs2) = (uuids evs1 ++ uuids evs2)%list.
Proof.
  induction evs1 as [|e evs1 IH]; [done|].
  rewrite <- app_comm_cons, (uuids_cons e (evs1 ++ evs2)), (uuids_cons e evs1), IH.
  by rewrite app_assoc.
Qed.

Lemma run_events_app evs1 evs2 w :
  run_events (evs1 ++ evs2) w = run_events evs2 (run_events evs1 w).
Proof. apply foldl_app. Qed.

Lemma fresh_for_cons e evs w :
  fresh_for (e :: evs) w ->
  (forall u, u ∈ uuids [e] -> unused u w) /\ fresh_for evs (step e w).
Proof.
  unfold fresh_for. rewrite uuids_cons.
  intros [(Hn1 & Hdisj & Hn2)%NoDup_app Hun]. split; [|split; [done|]].
  - intros u Hu. apply Hun. set_solver.
  - intros u Hu. apply unused_step.
    + apply Hun. set_solver.
    + intros Hin. by apply (Hdisj u).
Qed.

Lemma fresh_for_world0 evs : NoDup (uuids evs) -> fresh_for evs world0.
Proof. intros H. split; [done|]. by intros u _ i t. Qed.

Lemma Inv_run evs w : Inv w -> fresh_for evs w -> Inv (run_events evs w).
Proof.
  revert w. induction evs as [|e evs IH]; intros w HI Hf; [done|].
  apply fresh_for_cons in Hf as [He Hf]. simpl.
  apply IH; [|done]. by apply Inv_step.
Qed.

(** Every state the service reaches when [uuid4] never repeats. *)
Lemma Inv_reachable evs : NoDup (uuids evs) -> Inv (run_events evs world0).
Proof. intros H. apply Inv_run; [apply Inv_world0 | by apply fresh_for_world0]. Qed.

End Invariant.

(** ** What one step changes *)

Section StepShape.

Implicit Types (w : World) (j : Job) (cid path : string) (t : Thread).

Lemma lookup_set_thread_state_ne n s w i :
  i <> n -> threads (set_thread_state n s w) !! i = threads w !! i.
Proof. intros Hne. unfold set_thread_state. simpl. by apply list_lookup_alter_ne. Qed.

Lemma conversions_set_thread_state n s w :
  conversions (set_thread_state n s w) = conversions w.
Proof. done. Qed.

(** A record found after a single step was there before, or is the
    pending record of a submission, or was written by the worker of
    its job, at one of its writes. *)
Lemma registry_step e w cid j' :
  atomic e = true ->
  conversions (step e w) !! cid = Some j' ->
  conversions w !! cid = Some j'
  \/ (exists f o, e = ReqConvert f cid o
        /\ Str.endswith (Str.lower f) ".pdf" = true /\ j' = pending_job cid f)
  \/ (exists n path s f next inx j, e = WorkerStep n
        /\ threads w !! n = Some (mkThread cid path s)
        /\ write_at cid s = Some (f, next, inx)
        /\ conversions w !! cid = Some j /\ j' = f j).
Proof.
  intros Hat. destruct e as [f u o|c|c| |c|n|n run|n|n run]; try done; simpl.
  - destruct (Str.endswith (Str.lower f) ".pdf") eqn:Hext.
    2: { rewrite (convert_pdf_rejected _ _ _ _ Hext). by left. }
    destruct o as [|e0 created].
    + rewrite (convert_pdf_saved _ _ _ Hext). simpl.
      destruct (decide (cid = u)) as [->|Hne].
      * rewrite lookup_insert_eq. intros [= <-]. right. left. by exists f, SaveOk.
      * rewrite lookup_insert_ne by done. by left.
    + destruct (convert_pdf_not_saved f u e0 created w Hext) as (w' & -> & Hc' & _).
      simpl. rewrite Hc'. by left.
  - rewrite get_status_pure. by left.
  - rewrite download_file_pure. by left.
  - by left.
  - destruct (conversions w !! c) as [conv|] eqn:Hc.
    + rewrite (delete_conversion_present _ _ _ Hc). simpl.
      intros [_ H]%lookup_delete_Some. by left.
    + rewrite (delete_conversion_absent _ _ Hc). by left.
  - unfold sched_step.
    destruct (threads w !! n) as [[c path s]|] eqn:Hn; [|by left].
    destruct (write_at c s) as [[[f next] inx]|] eqn:Hw.
    + destruct (thread_step_write c path s w f next inx Hw) as [(j & Hc & ->) | [Hc ->]];
        rewrite conversions_set_thread_state; [|by left]. simpl.
      destruct (decide (cid = c)) as [->|Hne].
      * rewrite lookup_insert_eq. intros [= <-]. right. right.
        by exists n, path, s, f, next, inx, j.
      * rewrite lookup_insert_ne by done. by left.
    + destruct (thread_step_other c path s w Hw)
        as [[-> ->] | [(esc & -> & ->) | [_ ->]]];
        rewrite conversions_set_thread_state; by left.
  - unfold sched_return.
    destruct (threads w !! n) as [[c path s]|] eqn:Hn; [|by left].
    destruct s; simpl; by left.
Qed.

(** A finished thread is never touched again. *)
Lemma finished_kept_step e w n0 t e0 :
  threads w !! n0 = Some t -> t_state t = Finished e0 ->
  threads (step e w) !! n0 = Some t.
Proof.
  intros Hn0 Hst. revert Hn0.
  assert (forall n w', threads w' !! n0 = Some t ->
            threads (sched_step n w') !! n0 = Some t) as Hstep.
  { intros n w' Hn0. unfold sched_step.
    destruct (threads w' !! n) as [[c path s]|] eqn:Hn; [|done].
    destruct (decide (n0 = n)) as [->|Hne].
    - rewrite Hn in Hn0. injection Hn0 as <-. simpl in Hst. subst s.
      change (thread_step c path (Finished e0) w') with (w', Finished e0).
      cbv beta iota.
      by rewrite (set_thread_state_same _ _ _ _ _ Hn).
    - destruct (thread_step c path s w') as [w'' s'] eqn:Hts.
      rewrite lookup_set_thread_state_ne by done.
      assert (threads w'' = threads w') as ->; [|done].
      destruct (write_at c s) as [[[f next] inx]|] eqn:Hw.
      + destruct (thread_step_write c path s w' f next inx Hw)
          as [(j & Hc & Heq) | [Hc Heq]]; rewrite Heq in Hts; by injection Hts as <- _.
      + destruct (thread_step_other c path s w' Hw)
          as [[-> Heq] | [(esc & -> & Heq) | [_ Heq]]];
          rewrite Heq in Hts; by injection Hts as <- _. }
  assert (forall n run w', threads w' !! n0 = Some t ->
            threads (sched_return n run w') !! n0 = Some t) as Hret.
  { intros n run w' Hn0. unfold sched_return.
    destruct (threads w' !! n) as [[c path s]|] eqn:Hn; [|done].
    destruct (decide (n0 = n)) as [->|Hne].
    - rewrite Hn in Hn0. injection Hn0 as <-. simpl in Hst. subst s.
      change (engine_return run (Finished e0) w') with (w', Finished e0).
      cbv beta iota.
      by rewrite (set_thread_state_same _ _ _ _ _ Hn).
    - destruct (engine_return run s w') as [w'' s'] eqn:Hts.
      rewrite lookup_set_thread_state_ne by done.
      destruct s; simpl in Hts; by injection Hts as <- _. }
  apply (step_lift (fun w' => threads w' !! n0 = Some t)).
  - intros Hat Hn0. destruct e as [f u o|c|c| |c|n|n run|n|n run]; try done; simpl.
    + destruct (Str.endswith (Str.lower f) ".pdf") eqn:Hext.
      2: { by rewrite (convert_pdf_rejected _ _ _ _ Hext). }
      destruct o as [|e1 created].
      * rewrite (convert_pdf_saved _ _ _ Hext). simpl. by apply lookup_app_l_Some.
      * destruct (convert_pdf_not_saved f u e1 created w Hext)
          as (w' & -> & _ & Ht' & _). simpl. by rewrite Ht'.
    + by rewrite get_status_pure.
    + by rewrite download_file_pure.
    + destruct (conversions w !! c) as [conv|] eqn:Hc.
      * by rewrite (delete_conversion_present _ _ _ Hc).
      * by rewrite (delete_conversion_absent _ _ Hc).
    + by apply Hstep.
    + by apply Hret.
  - intros n w'. apply Hstep.
  - intros n run w'. apply Hret.
Qed.

(** What an event does to one thread: the id and the path stay, and a
    property of the state that no statement of the worker and no return
    of the engine undoes stays as well. *)
Lemma thread_state_kept (Q : TState -> Prop) e w n0 t :
  (forall c p s w', Q s -> Q (snd (thread_step c p s w'))) ->
  (forall run s w', Q s -> Q (snd (engine_return run s w'))) ->
  threads w !! n0 = Some t -> Q (t_state t) ->
  exists t', threads (step e w) !! n0 = Some t'
    /\ t_conversion_id t' = t_conversion_id t /\ t_pdf_path t' = t_pdf_path t
    /\ Q (t_state t').
Proof.
  intros HQs HQr Hn0 HQ.
  pose (P := fun w' : World => exists t', threads w' !! n0 = Some t'
    /\ t_conversion_id t' = t_conversion_id t /\ t_pdf_path t' = t_pdf_path t
    /\ Q (t_state t')).
  assert (forall n w', P w' -> P (sched_step n w')) as Hstep.
  { intros n w' (t' & Hn' & Hid & Hp & HQ'). unfold sched_step.
    destruct (threads w' !! n) as [[c path s]|] eqn:Hn; [|by exists t'].
    pose proof (threads_thread_step c path s w') as Hth.
    destruct (thread_step c path s w') as [w'' s'] eqn:Hts. simpl in Hth.
    destruct (decide (n0 = n)) as [->|Hne].
    - rewrite Hn in Hn'. injection Hn' as <-. simpl in *.
      exists (mkThread c path s'). unfold set_thread_state. simpl.
      rewrite Hth, list_lookup_alter_eq, Hn. simpl. repeat split; try done.
      replace s' with (snd (thread_step c path s w')) by by rewrite Hts.
      by apply HQs.
    - exists t'. rewrite lookup_set_thread_state_ne by done. by rewrite Hth. }
  assert (forall n run w', P w' -> P (sched_return n run w')) as Hret.
  { intros n run w' (t' & Hn' & Hid & Hp & HQ'). unfold sched_return.
    destruct (threads w' !! n) as [[c path s]|] eqn:Hn; [|by exists t'].
    assert (threads (fst (engine_return run s w')) = threads w') as Hth
      by by destruct s.
    destruct (engine_return run s w') as [w'' s'] eqn:Hts. simpl in Hth.
    destruct (decide (n0 = n)) as [->|Hne].
    - rewrite Hn in Hn'. injection Hn' as <-. simpl in *.
      exists (mkThread c path s'). unfold set_thread_state. simpl.
      rewrite Hth, list_lookup_alter_eq, Hn. simpl. repeat split; try done.
      replace s' with (snd (engine_return run s w')) by by rewrite Hts.
      by apply HQr.
    - exists t'. rewrite lookup_set_thread_state_ne by done. by rewrite Hth. }
  apply (step_lift P).
  - intros Hat (t' & Hn' & Hid & Hp & HQ').
    destruct e as [f u o|c|c| |c|n|n run|n|n run]; try done; simpl.
    + exists t'. split; [|done].
      destruct (Str.endswith (Str.lower f) ".pdf") eqn:Hext.
      2: { by rewrite (convert_pdf_rejected _ _ _ _ Hext). }
      destruct o as [|e1 created].
      * rewrite (convert_pdf_saved _ _ _ Hext). simpl. by apply lookup_app_l_Some.
      * destruct (convert_pdf_not_saved f u e1 created w Hext)
          as (w' & -> & _ & Ht' & _). simpl. by rewrite Ht'.
    + exists t'. by rewrite get_status_pure.
    + exists t'. by rewrite download_file_pure.
    + by exists t'.
    + exists t'. destruct (conversions w !! c) as [conv|] eqn:Hc.
      * by rewrite (delete_conversion_present _ _ _ Hc).
      * by rewrite (delete_conversion_absent _ _ Hc).
    + apply Hstep. by exists t'.
    + apply Hret. by exists t'.
  - intros n w'. apply Hstep.
  - intros n run w'. apply Hret.
  - by exists t.
Qed.

Lemma past_writes_thread_step c p s w :
  past_writes s = true -> past_writes (snd (thread_step c p s w)) = true.
Proof.
  by destruct s as [|[]| |esc].
Qed.

Lemma past_writes_engine_return run s w :
  past_writes s = true -> past_writes (snd (engine_return run s w)) = true.
Proof. by destruct s as [|[]| |esc]. Qed.

Lemma past_writes_no_write cid s : past_writes s = true -> write_at cid s = None.
Proof. by destruct s as [|[]| |esc]. Qed.

Lemma served_not_unused cid w : served cid w -> unused cid w -> False.
Proof. intros (n & t & Hn & Hid) Hu. by apply (Hu n t). Qed.

Lemma registered_served w cid j :
  Inv w -> conversions w !! cid = Some j -> served cid w.
Proof.
  intros HI Hj. destruct (inv_job _ HI _ _ Hj) as (n & t & Hn & Hid & _).
  by exists n, t.
Qed.

End StepShape.

(** ** Jobs whose worker has made its last write *)

Section Written.

Implicit Types (w : World) (j : Job) (cid path : string) (t : Thread).

Lemma written_kept e w cid : written cid w -> written cid (step e w).
Proof.
  intros (n0 & t0 & Hn0 & Hid & Hpw).
  destruct (thread_state_kept (fun s => past_writes s = true) e w n0 t0)
    as (t' & Hn' & Hid' & _ & Hpw'); try done.
  - intros c p s w'. apply past_writes_thread_step.
  - intros run s w'. apply past_writes_engine_return.
  - exists n0, t'. by rewrite Hid'.
Qed.

(** No step changes the record of a job whose worker has made its last
    write, other than removing it. *)
Lemma written_step e w cid :
  Inv w -> (forall u, u ∈ uuids [e] -> unused u w) -> written cid w ->
  conversions (step e w) !! cid = conversions w !! cid \/
  conversions (step e w) !! cid = None.
Proof.
  intros HI Hfresh Hs.
  assert (forall e' w', atomic e' = true ->
            (forall u, u ∈ uuids [e'] -> unused u w') ->
            Inv w' -> written cid w' ->
            conversions (step e' w') !! cid = conversions w' !! cid \/
            conversions (step e' w') !! cid = None) as Hat.
  { intros e' w' Hat Hfr HI' (n0 & t0 & Hn0 & Hid & Hst).
    destruct (conversions (step e' w') !! cid) as [j'|] eqn:Hj'; [|by right].
    left. destruct (registry_step e' w' cid j' Hat Hj')
      as [H | [(f & o & -> & Hext & _) | (n & p & s & f & nx & ix & j & -> & Hn & Hw & _)]].
    + done.
    + destruct (served_not_unused cid w'); [by exists n0, t0|].
      apply Hfr. simpl. rewrite Hext. apply list_elem_of_here.
    + assert (n = n0) as ->.
      { apply (inv_unique _ HI' n n0 _ _ Hn Hn0). by rewrite Hid. }
      rewrite Hn in Hn0. injection Hn0 as <-. simpl in Hst.
      by rewrite (past_writes_no_write _ _ Hst) in Hw. }
  enough (Inv (step e w) /\ written cid (step e w) /\
          (conversions (step e w) !! cid = conversions w !! cid \/
           conversions (step e w) !! cid = None)) as (_ & _ & ?) by done.
  apply (step_lift (fun w' => Inv w' /\ written cid w' /\
          (conversions w' !! cid = conversions w !! cid \/
           conversions w' !! cid = None))).
  - intros Ha (_ & _ & _). split; [by apply Inv_step|].
    split; [by apply written_kept | by apply Hat].
  - intros n w' (HI' & Hs' & Hc'). split; [by apply Inv_sched_step|].
    split; [by apply (written_kept (WorkerStep n))|].
    destruct (Hat (WorkerStep n) w' eq_refl) as [Hc2 | Hc2]; try done.
    { by intros u Hu%elem_of_nil. }
    + by rewrite Hc2.
    + by right.
  - intros n run w' (HI' & Hs' & Hc'). split; [by apply Inv_sched_return|].
    split; [by apply (written_kept (EngineReturn n run))|].
    destruct (Hat (EngineReturn n run) w' eq_refl) as [Hc2 | Hc2]; try done.
    { by intros u Hu%elem_of_nil. }
    + by rewrite Hc2.
    + by right.
  - split; [done|]. split; [done | by left].
Qed.

Lemma terminal_job_finished cid s j :
  job_ok cid s j -> terminal (status j) ->
  before_cleanup s = true \/ exists esc, s = Finished esc.
Proof.
  destruct s as [|[]| |esc]; simpl; eauto;
    intros (Hs & _) [H | H]; rewrite Hs in H; discriminate.
Qed.

Lemma written_run evs w cid :
  Inv w -> fresh_for evs w -> written cid w ->
  conversions (run_events evs w) !! cid = conversions w !! cid \/
  conversions (run_events evs w) !! cid = None.
Proof.
  revert w. induction evs as [|e evs IH]; intros w HI Hf Hs; [by left|].
  apply fresh_for_cons in Hf as [He Hf]. simpl.
  pose proof (written_step e w cid HI He Hs) as Hstep.
  destruct (IH (step e w) (Inv_step _ _ HI He) Hf (written_kept e w cid Hs))
    as [Hrun | Hrun]; [|by right].
  rewrite Hrun. destruct Hstep as [-> | ->]; [by left | by right].
Qed.

Lemma fresh_for_run evs later w :
  fresh_for (evs ++ later) w -> fresh_for later (run_events evs w).
Proof.
  revert w. induction evs as [|e evs IH]; intros w Hf; [done|].
  rewrite <- app_comm_cons in Hf. apply fresh_for_cons in Hf as [_ Hf].
  simpl. by apply IH.
Qed.

End Written.

(** ** The threads of a run *)

Section Threads.

Implicit Types (w : World) (cid : string) (evs : list Event).

Lemma run_events_cons (e : Event) evs w :
  run_events (e :: evs) w = run_events evs (step e w).
Proof. reflexivity. Qed.

Lemma thread_keys_alter s n (ts : list Thread) :
  thread_key <$> alter (with_state s) n ts = thread_key <$> ts.
Proof.
  apply list_eq. intros i. rewrite !list_lookup_fmap.
  destruct (decide (i = n)) as [->|Hne].
  - rewrite list_lookup_alter_eq. by destruct (ts !! n).
  - by rewrite list_lookup_alter_ne.
Qed.

Lemma spawned_ids_cons (e : Event) evs :
  spawned_ids (e :: evs) = (spawned_ids [e] ++ spawned_ids evs)%list.
Proof.
  destruct e as [f u [|]| | | | | | | | ]; simpl; try done.
  by destruct (Str.endswith (Str.lower f) ".pdf").
Qed.

(** Only an accepted, saved submission starts a thread; no step ends
    one or changes its id or path. *)
Lemma thread_keys_step (e : Event) w :
  thread_key <$> threads (step e w)
  = ((thread_key <$> threads w) ++ ((fun u => (u, upload_path u)) <$> spawned_ids [e]))%list.
Proof.
  assert (forall n w', thread_key <$> threads (sched_step n w') = thread_key <$> threads w')
    as Hstep.
  { intros n w'. destruct (threads_sched_step n w') as [-> | [s ->]]; [done|].
    apply thread_keys_alter. }
  assert (forall n run w',
            thread_key <$> threads (sched_return n run w') = thread_key <$> threads w')
    as Hret.
  { intros n run w'. destruct (threads_sched_return n run w') as [-> | [s ->]]; [done|].
    apply thread_keys_alter. }
  destruct e as [f u o|c|c| |c|n|n run|n|n run]; simpl.
  - destruct (Str.endswith (Str.lower f) ".pdf") eqn:Hext.
    2: { rewrite (convert_pdf_rejected _ _ _ _ Hext). simpl.
         destruct o; by rewrite app_nil_r. }
    destruct o as [|e0 created].
    + rewrite (convert_pdf_saved _ _ _ Hext). simpl. by rewrite fmap_app.
    + destruct (convert_pdf_not_saved f u e0 created w Hext)
        as (w' & -> & _ & Ht' & _). simpl. by rewrite Ht', app_nil_r.
  - by rewrite get_status_pure, app_nil_r.
  - by rewrite download_file_pure, app_nil_r.
  - by rewrite app_nil_r.
  - rewrite app_nil_r. destruct (conversions w !! c) as [conv|] eqn:Hc.
    + by rewrite (delete_conversion_present _ _ _ Hc).
    + by rewrite (delete_conversion_absent _ _ Hc).
  - by rewrite Hstep, app_nil_r.
  - by rewrite Hret, app_nil_r.
  - rewrite app_nil_r.
    apply (sched_begin_ind (fun w' => thread_key <$> threads w' = thread_key <$> threads w));
      [|done].
    intros w' Hw'. by rewrite Hstep.
  - rewrite app_nil_r.
    apply (sched_end_ind (fun w' => thread_key <$> threads w' = thread_key <$> threads w));
      [| |done].
    + intros w' Hw'. by rewrite Hstep.
    + intros w' Hw'. by rewrite Hret.
Qed.

Lemma served_spec cid w :
  served cid w <-> cid ∈ (fst <$> (thread_key <$> threads w)).
Proof.
  unfold served. rewrite <- list_fmap_compose, list_elem_of_fmap. split.
  - intros (n & t & Hn & <-). exists t. split; [done|].
    by apply list_elem_of_lookup_2 in Hn.
  - intros (t & -> & (n & Hn)%list_elem_of_lookup_1). by exists n, t.
Qed.

Lemma served_step cid (e : Event) w : served cid w -> served cid (step e w).
Proof.
  rewrite !served_spec, thread_keys_step, fmap_app.
  intros H. apply elem_of_app. by left.
Qed.

End Threads.

(** ** A worker left alone runs [process_conversion] *)

Section Agreement.

Implicit Types (w : World) (j : Job) (cid path : string) (s : TState).

Lemma thread_step_present cid path s w f next inx j :
  write_at cid s = Some (f, next, inx) -> conversions w !! cid = Some j ->
  thread_step cid path s w = (set_conversions (<[cid := f j]>) w, next).
Proof.
  intros Hw Hc. unfold thread_step. rewrite Hw.
  by rewrite (update_job_present _ _ _ _ Hc).
Qed.

Lemma thread_step_absent cid path s w f next inx :
  write_at cid s = Some (f, next, inx) -> conversions w !! cid = None ->
  thread_step cid path s w
  = (w, if inx then AtLine (L257 (Some (KeyError cid))) else AtLine (L251 (KeyError cid))).
Proof.
  intros Hw Hc. unfold thread_step. rewrite Hw.
  by rewrite (update_job_absent _ _ _ Hc).
Qed.

(** No statement of the worker reads or writes the thread table. *)
Lemma thread_step_set_threads g cid path s w :
  thread_step cid path s (set_threads g w)
  = (set_threads g (fst (thread_step cid path s w)), snd (thread_step cid path s w)).
Proof.
  unfold thread_step. destruct (write_at cid s) as [[[f next] inx]|].
  - unfold update_job. simpl. by destruct (conversions w !! cid).
  - destruct s as [|[]| |esc]; try done. by rewrite !cleanup_eq.
Qed.

Lemma set_thread_state_twice n s s' w :
  set_thread_state n s' (set_thread_state n s w) = set_thread_state n s' w.
Proof.
  unfold set_thread_state, set_threads. simpl. f_equal.
  rewrite list_alter_alter_eq. by apply list_alter_ext.
Qed.

Lemma lookup_set_thread_state_eq n s w cid path s0 :
  threads w !! n = Some (mkThread cid path s0) ->
  threads (set_thread_state n s w) !! n = Some (mkThread cid path s).
Proof.
  intros Hn. unfold set_thread_state. simpl.
  by rewrite list_lookup_alter_eq, Hn.
Qed.

Lemma sched_step_at n cid path s0 s w :
  threads w !! n = Some (mkThread cid path s0) ->
  sched_step n (set_thread_state n s w)
  = set_thread_state n (snd (thread_step cid path s w)) (fst (thread_step cid path s w)).
Proof.
  intros Hn. unfold sched_step.
  rewrite (lookup_set_thread_state_eq _ _ _ _ _ _ Hn).
  unfold set_thread_state at 1. rewrite thread_step_set_threads.
  apply set_thread_state_twice.
Qed.

Lemma sched_return_at n cid path s0 run w :
  threads w !! n = Some (mkThread cid path s0) ->
  sched_return n run (set_thread_state n InEngine w)
  = set_thread_state n (snd (engine_return run InEngine w))
      (fst (engine_return run InEngine w)).
Proof.
  intros Hn. unfold sched_return.
  rewrite (lookup_set_thread_state_eq _ _ _ _ _ _ Hn). simpl.
  unfold set_thread_state, set_threads, set_files. simpl. f_equal.
  rewrite list_alter_alter_eq. by apply list_alter_ext.
Qed.

Lemma run_thread_S k cid path (x : World * TState) :
  run_thread (S k) cid path x
  = run_thread k cid path (thread_step cid path (snd x) (fst x)).
Proof.
  unfold run_thread.
  exact (Nat.iter_succ_r k (fun x => thread_step cid path (snd x) (fst x)) x).
Qed.

Lemma run_thread_idle k cid path s w :
  thread_step cid path s w = (w, s) -> run_thread k cid path (w, s) = (w, s).
Proof.
  intros H. induction k as [|k IH]; [done|].
  rewrite run_thread_S. simpl. by rewrite H.
Qed.

(** A thread scheduled [k] times in a row runs its next [k] statements. *)
Lemma iter_sched_step n cid path s0 k s w :
  threads w !! n = Some (mkThread cid path s0) ->
  Nat.iter k (sched_step n) (set_thread_state n s w)
  = set_thread_state n (snd (run_thread k cid path (w, s)))
      (fst (run_thread k cid path (w, s))).
Proof.
  revert s w. induction k as [|k IH]; intros s w Hn; [done|].
  rewrite Nat.iter_succ_r, run_thread_S, (sched_step_at _ _ _ _ _ _ Hn). simpl.
  destruct (thread_step cid path s w) as [w' s'] eqn:Hts. simpl.
  apply IH. replace w' with (fst (thread_step cid path s w)) by by rewrite Hts.
  by rewrite threads_thread_step.
Qed.

(** *** Eight statements are enough *)

Lemma rank_thread_step cid path s w :
  (rank (snd (thread_step cid path s w)) < rank s)%nat
  \/ (rank s = 0%nat /\ thread_step cid path s w = (w, s)).
Proof.
  destruct s as [|[]| |esc]; unfold thread_step; simpl; unfold update_job;
    try (destruct (conversions w !! cid); simpl; left; lia);
    try (right; done).
Qed.

Lemma run_thread_rests k cid path s w :
  (rank s <= k)%nat -> rank (snd (run_thread k cid path (w, s))) = 0%nat.
Proof.
  revert s w. induction k as [|k IH]; intros s w Hk; [simpl; lia|].
  rewrite run_thread_S. simpl fst. simpl snd.
  destruct (rank_thread_step cid path s w) as [Hlt | [H0 ->]].
  - destruct (thread_step cid path s w) as [w' s']. apply IH. simpl in Hlt. lia.
  - apply IH. lia.
Qed.

Lemma threads_run_thread k cid path s w :
  threads (fst (run_thread k cid path (w, s))) = threads w.
Proof.
  revert s w. induction k as [|k IH]; intros s w; [done|].
  rewrite run_thread_S. simpl fst. simpl snd.
  pose proof (threads_thread_step cid path s w) as Hth.
  destruct (thread_step cid path s w) as [w' s']. simpl in Hth.
  by rewrite IH.
Qed.

Lemma rank_le_8 s : (rank s <= 8)%nat.
Proof. destruct s as [|[]| |esc]; simpl; lia. Qed.

Lemma rank_0 s : rank s = 0%nat -> s = InEngine \/ exists esc, s = Finished esc.
Proof. destruct s as [|[]| |esc]; simpl; try lia; eauto. Qed.

(** A thread that runs uninterrupted comes to rest: it ends inside
    the engine call or finished, never in the middle of its writes. *)
Lemma uninterrupted_rests n cid path s w :
  threads w !! n = Some (mkThread cid path s) ->
  exists s', threads (uninterrupted n w) !! n = Some (mkThread cid path s')
    /\ (s' = InEngine \/ exists esc, s' = Finished esc).
Proof.
  intros Hn.
  assert (uninterrupted n w
          = set_thread_state n (snd (run_thread 8 cid path (w, s)))
              (fst (run_thread 8 cid path (w, s)))) as ->.
  { unfold uninterrupted. rewrite <- (set_thread_state_same _ _ _ _ _ Hn) at 1.
    apply (iter_sched_step _ _ _ _ _ _ _ Hn). }
  exists (snd (run_thread 8 cid path (w, s))). split.
  - apply (lookup_set_thread_state_eq _ _ _ cid path s).
    by rewrite threads_run_thread.
  - apply rank_0, run_thread_rests, rank_le_8.
Qed.

(** The statements up to the engine call, for a registered job. *)
Lemma run_thread_begin_present cid path w j :
  conversions w !! cid = Some j ->
  run_thread 8 cid path (w, Spawned)
  = (log (EConvert path)
       (set_conversions
          (<[cid := set_message "Convertendo PDF para Word..."
                      (set_status "processing" j)]>) w),
     InEngine).
Proof.
  intros Hc. rewrite run_thread_S. simpl fst. simpl snd.
  erewrite thread_step_present; [|reflexivity|exact Hc].
  rewrite run_thread_S. simpl fst. simpl snd.
  erewrite (thread_step_present cid path (AtLine L230)); [|reflexivity|apply lookup_insert_eq].
  rewrite run_thread_S. simpl fst. simpl snd.
  change (thread_step cid path (AtLine L237) ?w') with (log (EConvert path) w', InEngine).
  rewrite run_thread_idle by done.
  unfold set_conversions, log. simpl. by rewrite insert_insert_eq.
Qed.

(** The statements after the engine call, for a registered job. *)
Lemma run_thread_end_present run cid path w j :
  conversions w !! cid = Some j ->
  run_thread 8 cid path (engine_return run InEngine w)
  = (mkWorld (<[cid := finish_job cid (outcome run) j]> (conversions w))
       ((files w ∪ list_to_set (output_file <$> downloaded run)) ∖ {[path]})
       (threads w) (effects w ++ [ERemove path]),
     Finished None).
Proof.
  intros Hc. unfold engine_return.
  set (w1 := set_files _ w).
  assert (conversions w1 !! cid = Some j) as Hc1 by done.
  unfold finish_job. destruct (outcome run) as [fname|e].
  - destruct (Str.truthy_opt fname).
    + rewrite run_thread_S. simpl fst. simpl snd.
      erewrite thread_step_present; [|reflexivity|exact Hc1].
      rewrite run_thread_S. simpl fst. simpl snd.
      erewrite (thread_step_present cid path (AtLine (L242 fname)));
        [|reflexivity|apply lookup_insert_eq].
      rewrite run_thread_S. simpl fst. simpl snd.
      erewrite (thread_step_present cid path (AtLine (L243 fname)));
        [|reflexivity|apply lookup_insert_eq].
      rewrite run_thread_S. simpl fst. simpl snd.
      erewrite (thread_step_present cid path (AtLine (L244 fname)));
        [|reflexivity|apply lookup_insert_eq].
      rewrite run_thread_S. simpl fst. simpl snd.
      unfold thread_step at 1. simpl write_at. cbv beta iota. rewrite cleanup_eq.
      simpl fst. rewrite run_thread_idle by done.
      unfold set_conversions, set_files, log, w1, set_files. simpl.
      by rewrite !insert_insert_eq.
    + rewrite run_thread_S. simpl fst. simpl snd.
      erewrite thread_step_present; [|reflexivity|exact Hc1].
      rewrite run_thread_S. simpl fst. simpl snd.
      erewrite (thread_step_present cid path (AtLine L248));
        [|reflexivity|apply lookup_insert_eq].
      rewrite run_thread_S. simpl fst. simpl snd.
      unfold thread_step at 1. simpl write_at. cbv beta iota. rewrite cleanup_eq.
      simpl fst. rewrite run_thread_idle by done.
      unfold set_conversions, set_files, log, w1, set_files. simpl.
      by rewrite !insert_insert_eq.
  - rewrite run_thread_S. simpl fst. simpl snd.
    erewrite thread_step_present; [|reflexivity|exact Hc1].
    rewrite run_thread_S. simpl fst. simpl snd.
    erewrite (thread_step_present cid path (AtLine (L252 e)));
      [|reflexivity|apply lookup_insert_eq].
    rewrite run_thread_S. simpl fst. simpl snd.
    unfold thread_step at 1. simpl write_at. cbv beta iota. rewrite cleanup_eq.
    simpl fst. rewrite run_thread_idle by done.
    unfold set_conversions, set_files, log, w1, set_files. simpl.
    by rewrite !insert_insert_eq.
Qed.

(** The statements of a worker whose job has no record. *)
Lemma run_thread_absent cid path w :
  conversions w !! cid = None ->
  run_thread 8 cid path (w, Spawned)
  = (set_files (fun fs => fs ∖ {[path]}) (log (ERemove path) w),
     Finished (Some (KeyError cid))).
Proof.
  intros Hc. rewrite run_thread_S. simpl fst. simpl snd.
  erewrite thread_step_absent; [|reflexivity|exact Hc].
  rewrite run_thread_S. simpl fst. simpl snd.
  erewrite thread_step_absent; [|reflexivity|exact Hc].
  rewrite run_thread_S. simpl fst. simpl snd.
  unfold thread_step at 1. simpl write_at. cbv beta iota. rewrite cleanup_eq.
  simpl fst. by rewrite run_thread_idle.
Qed.

(** A worker thread that runs from its start to its end with nothing
    else in between leaves the registry, the disk and the log of
    external calls as [process_conversion] does, called once. *)
Lemma uninterrupted_worker_is_process_conversion n cid path run w :
  threads w !! n = Some (mkThread cid path Spawned) ->
  run_events [WorkerBegin n; WorkerEnd n run] w
  = set_thread_state n
      (Finished (escaped_of (snd (process_conversion run cid path w))))
      (fst (process_conversion run cid path w)).
Proof.
  intros Hn.
  change (run_events [WorkerBegin n; WorkerEnd n run] w)
    with (sched_end n run (sched_begin n w)).
  assert (sched_begin n w
          = set_thread_state n (snd (run_thread 8 cid path (w, Spawned)))
              (fst (run_thread 8 cid path (w, Spawned)))) as ->.
  { unfold sched_begin. rewrite Hn. unfold uninterrupted.
    rewrite <- (set_thread_state_same _ _ _ _ _ Hn) at 1.
    apply (iter_sched_step _ _ _ _ _ _ _ Hn). }
  destruct (conversions w !! cid) as [j|] eqn:Hc.
  - rewrite (run_thread_begin_present _ _ _ _ Hc),
      (process_conversion_present _ _ _ _ _ Hc). simpl fst. simpl snd.
    set (w1 := log (EConvert path) _).
    assert (threads w1 !! n = Some (mkThread cid path Spawned)) as Hn1 by done.
    assert (conversions w1 !! cid
            = Some (set_message "Convertendo PDF para Word..."
                      (set_status "processing" j))) as Hc1
      by apply lookup_insert_eq.
    unfold sched_end. rewrite (lookup_set_thread_state_eq _ _ _ _ _ _ Hn1).
    rewrite (sched_return_at _ _ _ _ _ _ Hn1). unfold uninterrupted.
    assert (threads (fst (engine_return run InEngine w1)) !! n
            = Some (mkThread cid path Spawned)) as Hn2 by done.
    rewrite (iter_sched_step _ _ _ _ _ _ _ Hn2).
    rewrite <- surjective_pairing, (run_thread_end_present _ _ _ _ _ Hc1).
    unfold set_thread_state, set_threads, w1, log, set_conversions. simpl.
    by rewrite insert_insert_eq, <- app_assoc.
  - rewrite (run_thread_absent _ _ _ Hc), (process_conversion_absent _ _ _ _ Hc).
    simpl fst. simpl snd.
    set (w1 := set_files _ _).
    assert (threads w1 !! n = Some (mkThread cid path Spawned)) as Hn1 by done.
    unfold sched_end. by rewrite (lookup_set_thread_state_eq _ _ _ _ _ _ Hn1).
Qed.

End Agreement.

(** ** The status of a job only moves forward *)

Section Forward.

Implicit Types (w : World) (j : Job) (cid path : string) (s : TState).

Lemma forward_refl (a : string) : forward a a.
Proof. by left. Qed.

Lemma terminal_not_pending (a : string) : terminal a -> a <> "pending".
Proof. by intros [-> | ->]. Qed.

Lemma terminal_not_processing (a : string) : terminal a -> a <> "processing".
Proof. by intros [-> | ->]. Qed.

Lemma forward_trans (a b c : string) : forward a b -> forward b c -> forward a c.
Proof.
  intros [-> | [[-> [-> | Hb]] | [-> Hb]]] Hbc; try done.
  - destruct Hbc as [-> | [[? _] | [_ Hc]]]; try done.
    + right. left. split; [done | by left].
    + right. left. split; [done | by right].
  - destruct Hbc as [-> | [[-> _] | [-> _]]].
    + right. left. split; [done | by right].
    + by destruct (terminal_not_pending _ Hb).
    + by destruct (terminal_not_processing _ Hb).
  - destruct Hbc as [-> | [[-> _] | [-> _]]].
    + right. right. by split.
    + by destruct (terminal_not_pending _ Hb).
    + by destruct (terminal_not_processing _ Hb).
Qed.

(** From a terminal status there is nowhere to go. *)
Lemma forward_terminal (a b : string) : terminal a -> forward a b -> b = a.
Proof.
  intros Ha [-> | [[-> _] | [-> _]]]; [done| |].
  - by destruct (terminal_not_pending _ Ha).
  - by destruct (terminal_not_processing _ Ha).
Qed.

(** Each write of the worker keeps the id and the original file name,
    and moves the status forward or leaves it. *)
Lemma write_forward cid s f next inx j :
  write_at cid s = Some (f, next, inx) -> job_ok cid s j ->
  forward (status j) (status (f j))
  /\ id (f j) = id j /\ original_filename (f j) = original_filename j.
Proof.
  destruct s as [|[]| |]; simpl; try done; intros [= <- <- <-]; simpl;
    intros (Hs & _); (split; [|done]); rewrite ?Hs; try by left.
  - right. left. split; [done | by left].
  - right. right. split; [done | by left].
  - right. right. split; [done | by right].
  - right. right. split; [done | by right].
Qed.

Lemma follows_step_atomic (e : Event) w cid j0 :
  atomic e = true ->
  Inv w -> (forall u, u ∈ uuids [e] -> unused u w) -> served cid w ->
  follows cid j0 w -> follows cid j0 (step e w).
Proof.
  intros Hat HI Hfr Hsv Hf. unfold follows in *.
  destruct (conversions (step e w) !! cid) as [j'|] eqn:Hj'; [|done].
  destruct (registry_step e w cid j' Hat Hj')
    as [H | [(f & o & -> & Hext & _) | (n & p & s & f & nx & ix & j & -> & Hn & Hw & Hc & ->)]].
  - by rewrite H in Hf.
  - destruct (served_not_unused cid w Hsv).
    apply Hfr. simpl. rewrite Hext. apply list_elem_of_here.
  - rewrite Hc in Hf. destruct Hf as (Hfw & Hid & Hof).
    pose proof (Inv_job_of_thread w n _ j HI Hn Hc) as Hok. simpl in Hok.
    destruct (write_forward cid s f nx ix j Hw Hok) as (Hfw' & Hid' & Hof').
    split; [by apply (forward_trans _ (status j)) | split; congruence].
Qed.

Lemma follows_step (e : Event) w cid j0 :
  Inv w -> (forall u, u ∈ uuids [e] -> unused u w) -> served cid w ->
  follows cid j0 w -> follows cid j0 (step e w).
Proof.
  intros HI Hfr Hsv Hf.
  enough (Inv (step e w) /\ served cid (step e w) /\ follows cid j0 (step e w))
    as (_ & _ & ?) by done.
  apply (step_lift (fun w' => Inv w' /\ served cid w' /\ follows cid j0 w')).
  - intros Hat _. split; [by apply Inv_step|]. split; [by apply served_step|].
    by apply follows_step_atomic.
  - intros n w' (HI' & Hsv' & Hf'). split; [by apply Inv_sched_step|].
    split; [by apply (served_step cid (WorkerStep n))|].
    apply follows_step_atomic; try done. by intros u Hu%elem_of_nil.
  - intros n run w' (HI' & Hsv' & Hf'). split; [by apply Inv_sched_return|].
    split; [by apply (served_step cid (EngineReturn n run))|].
    apply follows_step_atomic; try done. by intros u Hu%elem_of_nil.
  - done.
Qed.

Lemma follows_run evs w cid j0 :
  Inv w -> fresh_for evs w -> served cid w ->
  follows cid j0 w -> follows cid j0 (run_events evs w).
Proof.
  revert w. induction evs as [|e evs IH]; intros w HI Hf Hsv Hfo; [done|].
  apply fresh_for_cons in Hf as [He Hf]. simpl.
  apply IH; [by apply Inv_step | done | by apply served_step | by apply follows_step].
Qed.

Lemma follows_start w cid j : conversions w !! cid = Some j -> follows cid j w.
Proof. intros H. unfold follows. rewrite H. split; [apply forward_refl | done]. Qed.

(** What the record of a job found in a reachable state becomes in any
    later one. *)
Lemma follows_later evs later cid j :
  NoDup (uuids (evs ++ later)) ->
  conversions (run_events evs world0) !! cid = Some j ->
  follows cid j (run_events (evs ++ later) world0).
Proof.
  intros Hnd Hj. rewrite run_events_app.
  pose proof (fresh_for_world0 _ Hnd) as Hf.
  assert (NoDup (uuids evs)) as Hnd1.
  { rewrite uuids_app in Hnd. by apply NoDup_app in Hnd as (? & _). }
  pose proof (Inv_reachable _ Hnd1) as HI.
  apply follows_run; [done | by apply fresh_for_run | | by apply follows_start].
  by apply (registered_served _ _ j).
Qed.

End Forward.

(** ** The upload is removed once *)

Section Removals.

Implicit Types (w : World) (evs : list Event) (p q u : string).

Lemma removed_app (l1 l2 : list Effect) :
  removed (l1 ++ l2) = (removed l1 ++ removed l2)%list.
Proof. apply omap_app. Qed.

Lemma removals_app p (l1 l2 : list Effect) :
  removals p (l1 ++ l2) = (removals p l1 + removals p l2)%nat.
Proof. unfold removals. by rewrite removed_app, filter_app, length_app. Qed.

Lemma removals_remove_eq p : removals p [ERemove p] = 1%nat.
Proof. unfold removals. simpl. by rewrite filter_cons_True. Qed.

Lemma removals_remove_ne p q : q <> p -> removals p [ERemove q] = 0%nat.
Proof. intros H. unfold removals. simpl. by rewrite filter_cons_False. Qed.

Lemma removals_none p (l : list Effect) : removed l = [] -> removals p l = 0%nat.
Proof. intros H. unfold removals. by rewrite H. Qed.

Lemma removals_0 p (l : list Effect) : p ∉ removed l -> removals p l = 0%nat.
Proof.
  unfold removals. induction (removed l) as [|q qs IH]; [done|].
  intros [Hne Hq]%not_elem_of_cons.
  rewrite filter_cons_False by done. by apply IH.
Qed.

Lemma startswith_slash_pdf u :
  Str.startswith u "/" = false -> Str.startswith (u +:+ ".pdf") "/" = false.
Proof.
  unfold Str.startswith. destruct u as [|c u]; [done|].
  change (String c u +:+ ".pdf") with (String c (u +:+ ".pdf")).
  change (String.prefix "/" (String c u))
    with (if ascii_dec "/" c then String.prefix "" u else false).
  change (String.prefix "/" (String c (u +:+ ".pdf")))
    with (if ascii_dec "/" c then String.prefix "" (u +:+ ".pdf") else false).
  destruct (ascii_dec "/" c); [|done]. by destruct u.
Qed.

(** The file [delete_conversion] removes is never the upload of a job
    with a plain id. *)
Lemma artifact_not_upload (conv : Job) p u :
  artifact_path conv = Some p -> Str.startswith u "/" = false -> p <> upload_path u.
Proof.
  unfold artifact_path. destruct (filename conv) as [fname|]; [|done].
  destruct (Str.truthy fname); [|done]. intros [= <-] Hu.
  unfold upload_path, path_join. rewrite (startswith_slash_pdf _ Hu).
  destruct (Str.startswith fname "/") eqn:Hf.
  - apply startswith_slash in Hf as [f' ->]. discriminate.
  - discriminate.
Qed.

(** A step of thread [n]: either it removes nothing and does not end
    the thread, or it is the removal that ends it. *)
Lemma removals_move w w' n c path (s s' : TState) :
  Inv w -> removals_ok w ->
  threads w !! n = Some (mkThread c path s) ->
  threads w' = alter (with_state s') n (threads w) ->
  (effects w' = effects w /\ finished s' = finished s)
  \/ (exists e, effects w' = (effects w ++ [e])%list
        /\ (forall q, e <> ERemove q) /\ finished s' = finished s)
  \/ (effects w' = (effects w ++ [ERemove path])%list
      /\ finished s = false /\ finished s' = true) ->
  removals_ok w'.
Proof.
  intros HI (Hplain & Hup & Hcnt) Hn Hth Hcase.
  assert (threads w' !! n = Some (mkThread c path s')) as Hn'
    by (by rewrite Hth, list_lookup_alter_eq, Hn).
  assert (forall i, i <> n -> threads w' !! i = threads w !! i) as Hother
    by (intros i Hi; rewrite Hth; by apply list_lookup_alter_ne).
  assert (forall i t', threads w' !! i = Some t' ->
            exists t, threads w !! i = Some t
              /\ t_conversion_id t' = t_conversion_id t
              /\ t_pdf_path t' = t_pdf_path t
              /\ (i <> n -> t' = t)) as Hback.
  { intros i t' Hi. destruct (decide (i = n)) as [->|Hne].
    - rewrite Hn' in Hi. injection Hi as <-. by exists (mkThread c path s).
    - rewrite Hother in Hi by done. by exists t'. }
  assert (forall u, served u w -> served u w') as Hserved.
  { intros u (i & t & Hi & Hid). destruct (decide (i = n)) as [->|Hne].
    - rewrite Hn in Hi. injection Hi as <-. by exists n, (mkThread c path s').
    - exists i, t. by rewrite Hother. }
  split; [|split].
  - intros i t' Hi. destruct (Hback i t' Hi) as (t & Ht & -> & _). by apply (Hplain i).
  - intros u Hu Hin. apply Hserved.
    destruct Hcase as [[Heff _] | [(e & Heff & He & _) | (Heff & _)]];
      rewrite Heff in Hin.
    + by apply Hup.
    + rewrite removed_app in Hin. apply elem_of_app in Hin as [Hin | Hin]; [by apply Hup|].
      destruct e; simpl in Hin; try by apply elem_of_nil in Hin.
      by destruct (He path0).
    + rewrite removed_app in Hin. apply elem_of_app in Hin as [Hin | Hin]; [by apply Hup|].
      apply list_elem_of_singleton in Hin.
      exists n, (mkThread c path s). split; [done|]. simpl.
      apply upload_path_inj. rewrite Hin.
      symmetry. apply (inv_path _ HI n _ Hn).
  - intros i t' Hi. destruct (Hback i t' Hi) as (t & Ht & _ & Hp & Heq).
    destruct Hcase as [[Heff Hfin] | [(e & Heff & He & Hfin) | (Heff & Hs & Hs')]];
      rewrite Heff.
    + rewrite Hp, (Hcnt i t Ht). destruct (decide (i = n)) as [->|Hne].
      * rewrite Hn' in Hi. rewrite Hn in Ht. injection Hi as <-. injection Ht as <-.
        simpl. by rewrite Hfin.
      * by rewrite (Heq Hne).
    + rewrite removals_app, Hp, (Hcnt i t Ht).
      rewrite (removals_none _ [e]) by (destruct e; try done; by destruct (He path0)).
      rewrite Nat.add_0_r. destruct (decide (i = n)) as [->|Hne].
      * rewrite Hn' in Hi. rewrite Hn in Ht. injection Hi as <-. injection Ht as <-.
        simpl. by rewrite Hfin.
      * by rewrite (Heq Hne).
    + rewrite removals_app, Hp, (Hcnt i t Ht). destruct (decide (i = n)) as [->|Hne].
      * rewrite Hn' in Hi. rewrite Hn in Ht. injection Hi as <-. injection Ht as <-.
        simpl. by rewrite Hs, Hs', removals_remove_eq.
      * rewrite (Heq Hne), removals_remove_ne; [lia|].
        intros Hpath. apply Hne. symmetry.
        by apply (inv_unique _ HI n i (mkThread c path s) t Hn Ht),
                 upload_path_inj;
          rewrite <- (inv_path _ HI n _ Hn), <- (inv_path _ HI i _ Ht).
Qed.

Lemma removals_sched_step n w :
  Inv w -> removals_ok w -> removals_ok (sched_step n w).
Proof.
  intros HI Hok. unfold sched_step.
  destruct (threads w !! n) as [[c path s]|] eqn:Hn; [|done].
  destruct (write_at c s) as [[[f next] inx]|] eqn:Hw.
  - assert (finished s = false /\ finished next = false) as (Hs & Hnx)
      by (by destruct s as [|[]| |]; simpl in Hw; try done; injection Hw as <- <- <-).
    destruct (thread_step_write c path s w f next inx Hw) as [(j & _ & ->) | [_ ->]].
    + apply (removals_move w _ n c path s next); try done. left. split; [done|].
      by rewrite Hs, Hnx.
    + apply (removals_move w _ n c path s
               (if inx then AtLine (L257 (Some (KeyError c)))
                else AtLine (L251 (KeyError c)))); try done.
      left. split; [done|]. rewrite Hs. by destruct inx.
  - destruct (thread_step_other c path s w Hw)
      as [[-> ->] | [(esc & -> & ->) | [Hs ->]]].
    + apply (removals_move w _ n c path (AtLine L237) InEngine); try done.
      right. left. by exists (EConvert path).
    + apply (removals_move w _ n c path (AtLine (L257 esc)) (Finished esc)); try done.
      right. right. done.
    + by rewrite (set_thread_state_same _ _ _ _ _ Hn).
Qed.

Lemma removals_sched_return n run w :
  Inv w -> removals_ok w -> removals_ok (sched_return n run w).
Proof.
  intros HI Hok. unfold sched_return.
  destruct (threads w !! n) as [[c path s]|] eqn:Hn; [|done].
  destruct (engine_return run s w) as [w' s'] eqn:Her.
  assert (effects w' = effects w /\ threads w' = threads w
          /\ finished s' = finished s) as (Heff & Hth & Hfin).
  { destruct s as [|[]| |]; simpl in Her; injection Her as <- <-; try done.
    repeat split; try done.
    by destruct (outcome run) as [fn|]; [destruct (Str.truthy_opt fn)|]. }
  apply (removals_move w _ n c path s s'); try done.
  - simpl. by rewrite Hth.
  - left. simpl. by rewrite Heff.
Qed.

Lemma removals_step (e : Event) w :
  Inv w ->
  (forall u, u ∈ uuids [e] -> unused u w /\ Str.startswith u "/" = false) ->
  removals_ok w -> removals_ok (step e w).
Proof.
  intros HI Hfresh Hok.
  assert (forall u, u ∈ uuids [e] -> unused u w) as Hfr by (intros u Hu; by apply Hfresh).
  enough (Inv (step e w) /\ removals_ok (step e w)) as [_ ?] by done.
  apply (step_lift (fun w' => Inv w' /\ removals_ok w')); [| | |done].
  - intros Hat _. split; [by apply Inv_step|].
    destruct Hok as (Hplain & Hup & Hcnt).
    destruct e as [f u o|c|c| |c|n|n run|n|n run]; try done; simpl.
    + destruct (Str.endswith (Str.lower f) ".pdf") eqn:Hext.
      2: { by rewrite (convert_pdf_rejected _ _ _ _ Hext). }
      destruct (Hfresh u) as [Hun Hu]; [simpl; rewrite Hext; apply list_elem_of_here|].
      destruct o as [|e0 created].
      * rewrite (convert_pdf_saved _ _ _ Hext). split; [|split]; simpl.
        -- intros n t [[_ Hn] | [_ <-]]%lookup_snoc_Some; [by apply (Hplain n) | done].
        -- intros u' Hu'. rewrite removed_app. simpl. rewrite app_nil_r.
           intros (n & t & Hn & Hid)%Hup; [|done].
           exists n, t. split; [by apply lookup_app_l_Some | done].
        -- intros n t. rewrite removals_app, (removals_none _ [EWrite _]) by done.
           rewrite Nat.add_0_r.
           intros [[_ Hn] | [_ <-]]%lookup_snoc_Some; [by apply (Hcnt n)|]. simpl.
           apply removals_0. intros Hin.
           apply (served_not_unused u w); [by apply Hup | done].
      * unfold convert_pdf. rewrite Hext.
        destruct created; simpl; [|done].
        split; [done|]. split; simpl.
        -- intros u' Hu'. rewrite removed_app. simpl. rewrite app_nil_r. by apply Hup.
        -- intros n t Hn. rewrite removals_app, (removals_none _ [EWrite _]) by done.
           rewrite Nat.add_0_r. by apply (Hcnt n).
    + by rewrite get_status_pure.
    + by rewrite download_file_pure.
    + destruct (conversions w !! c) as [conv|] eqn:Hc.
      2: { by rewrite (delete_conversion_absent _ _ Hc). }
      rewrite (delete_conversion_present _ _ _ Hc).
      destruct (artifact_path conv) as [p|] eqn:Hp; [|done].
      split; [done|]. split; simpl.
      * intros u' Hu'. rewrite removed_app. simpl.
        intros [Hin | Hin%list_elem_of_singleton]%elem_of_app; [by apply Hup|].
        by destruct (artifact_not_upload conv p u' Hp Hu').
      * intros n t Hn. rewrite removals_app, (Hcnt n t Hn), removals_remove_ne; [lia|].
        rewrite (inv_path _ HI n t Hn).
        apply (artifact_not_upload conv); [done | by apply (Hplain n)].
    + by apply removals_sched_step.
    + by apply removals_sched_return.
  - intros n w' [HI' Hok']. split; [by apply Inv_sched_step|].
    by apply removals_sched_step.
  - intros n run w' [HI' Hok']. split; [by apply Inv_sched_return|].
    by apply removals_sched_return.
Qed.

Lemma plain_ids_cons (e : Event) evs :
  plain_ids (e :: evs) ->
  (forall u, u ∈ uuids [e] -> Str.startswith u "/" = false) /\ plain_ids evs.
Proof.
  unfold plain_ids. rewrite uuids_cons, Forall_app, Forall_forall. done.
Qed.

Lemma removals_run evs w :
  Inv w -> fresh_for evs w -> plain_ids evs ->
  removals_ok w -> removals_ok (run_events evs w).
Proof.
  revert w. induction evs as [|e evs IH]; intros w HI Hf Hpl Hok; [done|].
  apply fresh_for_cons in Hf as [He Hf]. apply plain_ids_cons in Hpl as [Hpe Hpl].
  rewrite run_events_cons.
  apply IH; [by apply Inv_step | done | done |].
  apply removals_step; [done | | done]. intros u Hu. split; [by apply He | by apply Hpe].
Qed.

(** In a run with plain, distinct ids, [os.remove] was called on the
    upload of a job once if its worker has finished, and never
    otherwise. *)
Lemma removals_reachable evs n (t : Thread) :
  NoDup (uuids evs) -> plain_ids evs ->
  threads (run_events evs world0) !! n = Some t ->
  removals (t_pdf_path t) (effects (run_events evs world0))
  = if finished (t_state t) then 1%nat else 0%nat.
Proof.
  intros Hnd Hpl.
  assert (removals_ok (run_events evs world0)) as (_ & _ & H); [|apply H].
  apply removals_run; [apply Inv_world0 | by apply fresh_for_world0 | done |].
  split; [by intros i t0 Hi|]. split; [|by intros i t0 Hi].
  by intros u _ Hin%elem_of_nil.
Qed.

End Removals.

(** ** Artifact discovery *)

Section Discovery.

Implicit Types (l files : Listing) (x y : string * Z).

Lemma head_insert_desc x l :
  head (insert_desc x l)
  = Some (match head l with
          | Some y => if snd x <? snd y then y else x
          | None => x
          end).
Proof. destruct l as [|y l]; simpl; [done|]. by destruct (snd x <? snd y). Qed.

(** The first element of the sorted list is a most recently modified
    element of the list. *)
Lemma head_sort_desc l x :
  head (sort_desc l) = Some x ->
  x ∈ l /\ forall y, y ∈ l -> snd y <= snd x.
Proof.
  revert x. induction l as [|a l IH]; intros x; [done|].
  change (sort_desc (a :: l)) with (insert_desc a (sort_desc l)).
  rewrite head_insert_desc.
  destruct (head (sort_desc l)) as [y|] eqn:Hh.
  - destruct (IH y eq_refl) as [Hy Hmax].
    destruct (Z.ltb_spec (snd a) (snd y)); intros [= <-].
    + split; [set_solver|]. intros z [->|Hz]%elem_of_cons; [lia | by apply Hmax].
    + split; [set_solver|]. intros z [->|Hz]%elem_of_cons; [lia|].
      specialize (Hmax z Hz). lia.
  - intros [= <-]. destruct l as [|b l].
    2: { change (sort_desc (b :: l)) with (insert_desc b (sort_desc l)) in Hh.
         by rewrite head_insert_desc in Hh. }
    split; [set_solver|]. intros z [->|Hz]%elem_of_cons; [lia | set_solver].
Qed.

Lemma sort_desc_nonempty x l : exists y, head (sort_desc (x :: l)) = Some y.
Proof.
  change (sort_desc (x :: l)) with (insert_desc x (sort_desc l)).
  rewrite head_insert_desc. eauto.
Qed.

Lemma filter_docx_elem files x :
  x ∈ List.filter is_docx files <-> x ∈ files /\ Str.endswith (fst x) ".docx" = true.
Proof. rewrite !list_elem_of_In. apply filter_In. Qed.

(** What one poll returns when it is not empty. *)
Lemma poll_result files :
  existsb is_crdownload files = false ->
  List.filter is_docx files <> [] ->
  exists f m,
    fst <$> head (sort_desc (List.filter is_docx files)) = Some f /\
    (f, m) ∈ files /\ Str.endswith f ".docx" = true /\
    forall g m', (g, m') ∈ files -> Str.endswith g ".docx" = true -> m' <= m.
Proof.
  intros _ Hne. destruct (List.filter is_docx files) as [|a l] eqn:Hf; [done|].
  destruct (sort_desc_nonempty a l) as [[f m] Hh].
  destruct (head_sort_desc _ _ Hh) as [Hin Hmax].
  rewrite <- Hf in Hin, Hmax. apply filter_docx_elem in Hin as [Hin Hext].
  exists f, m. rewrite Hh. repeat split; try done.
  intros g m' Hg Hgext. apply (Hmax (g, m')). by apply filter_docx_elem.
Qed.

(** One turn of the loop. *)
Lemma wait_for_download_unfold (files : Listing) (later : list Listing) :
  _wait_for_download (files :: later)
  = if existsb is_crdownload files then _wait_for_download later
    else match List.filter is_docx files with
         | [] => _wait_for_download later
         | _ :: _ => fst <$> head (sort_desc (List.filter is_docx files))
         end.
Proof. simpl. by destruct (existsb is_crdownload files). Qed.

(** A result comes from the first poll that is not empty. *)
Lemma wait_for_download_Some (polls : list Listing) (f : string) :
  _wait_for_download polls = Some f ->
  exists (before : list Listing) (files : Listing) (later : list Listing) (m : Z),
    polls = (before ++ files :: later)%list /\
    Forall poll_empty before /\
    existsb is_crdownload files = false /\
    (f, m) ∈ files /\
    Str.endswith f ".docx" = true /\
    forall g m', (g, m') ∈ files -> Str.endswith g ".docx" = true -> m' <= m.
Proof.
  induction polls as [|files later IH]; [done|].
  rewrite wait_for_download_unfold.
  destruct (existsb is_crdownload files) eqn:Hdl.
  { intros (before & fs & lt & m & -> & Hb & Hrest)%IH.
    exists (files :: before), fs, lt, m. split; [done|].
    split; [|done]. constructor; [by left | done]. }
  destruct (List.filter is_docx files) as [|a l] eqn:Hf.
  { intros (before & fs & lt & m & -> & Hb & Hrest)%IH.
    exists (files :: before), fs, lt, m. split; [done|].
    split; [|done]. constructor; [by right | done]. }
  destruct (poll_result files Hdl) as (f' & m & Hres & Hin & Hext & Hmax).
  { by rewrite Hf. }
  rewrite Hf in Hres. rewrite Hres. intros [= <-].
  exists [], files, later, m. by repeat split.
Qed.

(** No result means every poll was empty. *)
Lemma wait_for_download_None (polls : list Listing) :
  _wait_for_download polls = None -> Forall poll_empty polls.
Proof.
  induction polls as [|files later IH]; [by constructor|].
  rewrite wait_for_download_unfold.
  destruct (existsb is_crdownload files) eqn:Hdl.
  { intros H. constructor; [by left | by apply IH]. }
  destruct (List.filter is_docx files) as [|a l] eqn:Hf.
  { intros H. constructor; [by right | by apply IH]. }
  destruct (sort_desc_nonempty a l) as [y Hy]. by rewrite Hy.
Qed.

End Discovery.

(** * The claims *)

(** ** C4: artifact discovery *)

(** The stale-file case: a [.docx] file modified at time 5 sits in the
    output directory and the conversion at hand started at time 10.
    The specification's lookup, given the reference time 10, finds
    nothing; [_wait_for_download], which takes no reference time,
    returns the old file. *)
Lemma wait_for_download_returns_stale_file :
  _wait_for_download [[("old.docx", 5); ("notes.txt", 20)]] = Some "old.docx"
  /\ locateArtifact_spec [("old.docx", 5); ("notes.txt", 20)] ".docx" 10 = None
  /\ 5 < 10.
Proof. repeat split; reflexivity. Qed.

(** C4, as the code has it.  [_wait_for_download] returns a result from
    the first poll in which no [.crdownload] file is listed and some
    [.docx] file is: a name of that listing that ends in [.docx] and
    whose modification time is the largest among the [.docx] files of
    the listing, whatever their age.  It returns [None] exactly when
    every poll before the timeout was empty in that sense. *)
Theorem wait_for_download_spec (polls : list Listing) :
  match _wait_for_download polls with
  | Some f =>
      exists (before : list Listing) (files : Listing) (later : list Listing) (m : Z),
        polls = (before ++ files :: later)%list /\
        Forall poll_empty before /\
        existsb is_crdownload files = false /\
        (f, m) ∈ files /\
        Str.endswith f ".docx" = true /\
        forall g m', (g, m') ∈ files -> Str.endswith g ".docx" = true -> m' <= m
  | None => Forall poll_empty polls
  end.
Proof.
  destruct (_wait_for_download polls) as [f|] eqn:Hres.
  - by apply wait_for_download_Some.
  - by apply wait_for_download_None.
Qed.

(** ** C9 and C10: validation of the submitted file name *)

(** C9.  A submission whose file name does not end in [.pdf] (the
    handler compares the lowercased name) is answered with HTTP 400 and
    the world is left exactly as it was: no record in [conversions], no
    file written, no worker started, no external call made. *)
Theorem convert_pdf_rejects_non_pdf
    (file_filename uuid4 : string) (o : SaveOutcome) (w : World) :
  Str.endswith (Str.lower file_filename) ".pdf" = false ->
  snd (convert_pdf file_filename uuid4 o w)
    = Raise (mkHTTPException 400 "O arquivo deve ser um PDF")
  /\ fst (convert_pdf file_filename uuid4 o w) = w.
Proof. intros H. by rewrite (convert_pdf_rejected _ _ _ _ H). Qed.

Lemma convert_pdf_rejects_non_pdf_witness :
  snd (convert_pdf "report.txt" "id-1" SaveOk world0)
    = Raise (mkHTTPException 400 "O arquivo deve ser um PDF")
  /\ fst (convert_pdf "report.txt" "id-1" SaveOk world0) = world0.
Proof. apply convert_pdf_rejects_non_pdf. reflexivity. Defined.



(** ** C7: a conversion id that is already registered *)

(** A completed job sits under ["id-1"]; a second submission for which
    [uuid4] returns ["id-1"] again is accepted, and the completed
    record is replaced by a pending one. *)
Lemma convert_pdf_duplicate_id_accepted :
  conversions
    (run_events [ReqConvert "a.pdf" "id-1" SaveOk; WorkerBegin 0;
                 WorkerEnd 0 (mkEngineRun ["a.docx"] (Ok (Some "a.docx")))] world0)
    !! "id-1"
  = Some (mkJob "id-1" "completed" "Conversão concluída!"
            (Some "/download/id-1") (Some "a.docx") "a.pdf")
  /\ snd (convert_pdf "b.pdf" "id-1" SaveOk
        (run_events [ReqConvert "a.pdf" "id-1" SaveOk; WorkerBegin 0;
                     WorkerEnd 0 (mkEngineRun ["a.docx"] (Ok (Some "a.docx")))] world0))
     = Ok (accepted_response "id-1")
  /\ conversions
       (fst (convert_pdf "b.pdf" "id-1" SaveOk
          (run_events [ReqConvert "a.pdf" "id-1" SaveOk; WorkerBegin 0;
                       WorkerEnd 0 (mkEngineRun ["a.docx"] (Ok (Some "a.docx")))] world0)))
       !! "id-1"
     = Some (pending_job "id-1" "b.pdf").
Proof. repeat split; vm_compute; reflexivity. Qed.

(** C7, as the code has it.  [convert_pdf] has no check for an id that
    is already registered: an accepted submission whose upload is saved
    stores the pending record under the id [uuid4] returned, whatever
    was there before, and leaves the records under all other ids as
    they were. *)
Theorem convert_pdf_stores_unconditionally
    (file_filename uuid4 : string) (w : World) :
  Str.endswith (Str.lower file_filename) ".pdf" = true ->
  snd (convert_pdf file_filename uuid4 SaveOk w) = Ok (accepted_response uuid4)
  /\ conversions (fst (convert_pdf file_filename uuid4 SaveOk w)) !! uuid4
     = Some (pending_job uuid4 file_filename)
  /\ forall cid, cid <> uuid4 ->
       conversions (fst (convert_pdf file_filename uuid4 SaveOk w)) !! cid
       = conversions w !! cid.
Proof.
  intros Hext. rewrite (convert_pdf_saved _ _ _ Hext). simpl.
  split; [done|]. split; [apply lookup_insert_eq|].
  intros cid Hne. by apply lookup_insert_ne.
Qed.

Lemma convert_pdf_stores_unconditionally_witness :
  snd (convert_pdf "b.pdf" "id-1" SaveOk (fst (convert_pdf "a.pdf" "id-1" SaveOk world0)))
  = Ok (accepted_response "id-1")
  /\ conversions
       (fst (convert_pdf "b.pdf" "id-1" SaveOk
               (fst (convert_pdf "a.pdf" "id-1" SaveOk world0)))) !! "id-1"
     = Some (pending_job "id-1" "b.pdf")
  /\ forall cid, cid <> "id-1" ->
       conversions
         (fst (convert_pdf "b.pdf" "id-1" SaveOk
                 (fst (convert_pdf "a.pdf" "id-1" SaveOk world0)))) !! cid
       = conversions (fst (convert_pdf "a.pdf" "id-1" SaveOk world0)) !! cid.
Proof. apply convert_pdf_stores_unconditionally. reflexivity. Defined.

(** ** C5: download gating *)

(** C5.  For a registered job: a download request is answered with
    HTTP 400 whenever the status is not [completed]; it is answered
    with HTTP 404 when the status is [completed] and no artifact file
    of the job exists in the output directory; and it succeeds only for
    a completed job whose recorded artifact exists.  The request never
    changes the world. *)
Theorem download_file_gating (conversion_id : string) (w : World) (conv : Job) :
  conversions w !! conversion_id = Some conv ->
  (status conv <> "completed" ->
     exists d, download_file conversion_id w = (w, Raise (mkHTTPException 400 d)))
  /\ (status conv = "completed" ->
      (forall fname, filename conv = Some fname ->
         path_join OUTPUT_DIR fname ∉ files w) ->
      exists d, download_file conversion_id w = (w, Raise (mkHTTPException 404 d)))
  /\ (forall r, snd (download_file conversion_id w) = Ok r ->
      status conv = "completed" /\
      exists fname, filename conv = Some fname /\ fname <> "" /\
                    path_join OUTPUT_DIR fname ∈ files w /\
                    fr_path r = path_join OUTPUT_DIR fname).
Proof.
  intros Hc. unfold download_file, mbind, M_bind, get. rewrite Hc.
  destruct (String.eqb_spec (status conv) "completed") as [Heq|Hne]; simpl.
  - split; [by intros []|].
    destruct (filename conv) as [fname|] eqn:Hf.
    2: { split; [by eexists | done]. }
    destruct (Str.truthy fname) eqn:Ht.
    2: { split; [by eexists | done]. }
    unfold exists_. destruct (decide (path_join OUTPUT_DIR fname ∈ files w)) as [Hin|Hout].
    + rewrite bool_decide_eq_true_2 by done. simpl. split.
      * intros _ Hmiss. by destruct (Hmiss fname eq_refl).
      * intros r [= <-]. split; [done|]. exists fname.
        by apply truthy_spec in Ht.
    + rewrite bool_decide_eq_false_2 by done. simpl. split; [by eexists | done].
  - split; [by eexists|]. split; [done | done].
Qed.

Lemma download_file_gating_witness :
  exists d, download_file "id-1" (fst (convert_pdf "a.pdf" "id-1" SaveOk world0))
            = (fst (convert_pdf "a.pdf" "id-1" SaveOk world0),
               Raise (mkHTTPException 400 d)).
Proof.
  apply (proj1 (download_file_gating "id-1"
                  (fst (convert_pdf "a.pdf" "id-1" SaveOk world0))
                  (pending_job "id-1" "a.pdf") eq_refl)).
  discriminate.
Defined.

(** ** C8: deletion *)

(** C8.  Deleting a registered job succeeds and removes its record, so
    that a later status or download request for the id is answered with
    HTTP 404; the artifact file of the record, when one is recorded, no
    longer exists afterwards; records under other ids are untouched.
    Deleting an id that is not registered is answered with HTTP 404 and
    changes nothing. *)
Theorem delete_conversion_contract (conversion_id : string) (w : World) :
  (forall conv, conversions w !! conversion_id = Some conv ->
     let w' := fst (delete_conversion conversion_id w) in
     snd (delete_conversion conversion_id w) = Ok "Conversão removida"
     /\ conversions w' !! conversion_id = None
     /\ (forall cid, cid <> conversion_id -> conversions w' !! cid = conversions w !! cid)
     /\ (exists d, get_status conversion_id w' = (w', Raise (mkHTTPException 404 d)))
     /\ (exists d, download_file conversion_id w' = (w', Raise (mkHTTPException 404 d)))
     /\ (forall fname, filename conv = Some fname -> fname <> "" ->
          path_join OUTPUT_DIR fname ∉ files w'))
  /\ (conversions w !! conversion_id = None ->
      exists d, delete_conversion conversion_id w = (w, Raise (mkHTTPException 404 d))).
Proof.
  split.
  - intros conv Hc. rewrite (delete_conversion_present _ _ _ Hc). simpl.
    split; [done|]. split; [apply lookup_delete_eq|].
    split; [intros cid Hne; by apply lookup_delete_ne|].
    split; [|split].
    + eexists. apply get_status_absent. apply lookup_delete_eq.
    + eexists. apply download_file_absent. apply lookup_delete_eq.
    + intros fname Hf Hne. unfold artifact_path. rewrite Hf.
      apply truthy_spec in Hne. rewrite Hne. set_solver.
  - intros Hc. eexists. by apply delete_conversion_absent.
Qed.

Lemma delete_conversion_contract_witness :
  snd (delete_conversion "id-1"
         (run_events [ReqConvert "a.pdf" "id-1" SaveOk; WorkerBegin 0;
                      WorkerEnd 0 (mkEngineRun ["a.docx"] (Ok (Some "a.docx")))] world0))
  = Ok "Conversão removida".
Proof.
  apply (proj1 (delete_conversion_contract "id-1"
           (run_events [ReqConvert "a.pdf" "id-1" SaveOk; WorkerBegin 0;
                        WorkerEnd 0 (mkEngineRun ["a.docx"] (Ok (Some "a.docx")))] world0))
         (mkJob "id-1" "completed" "Conversão concluída!"
            (Some "/download/id-1") (Some "a.docx") "a.pdf")).
  vm_compute. reflexivity.
Defined.

(** ** C6: failures during background processing *)

(** What [convert] can hand to the worker: an exception of
    [driver.quit()], [None], or a name ending in [.docx]. *)
Lemma convert_cases (b : Browser) :
  (exists e, convert b = Raise e /\ quit_error b = Some e)
  \/ convert b = Ok None
  \/ (exists f, convert b = Ok (Some f) /\ Str.endswith f ".docx" = true).
Proof.
  unfold convert.
  destruct (driver_live b), (quit_error b) as [q|]; eauto;
    destruct (setup_error b), (page_error b); eauto;
    destruct (_wait_for_download (polls b)) as [f|] eqn:Hw; eauto;
    apply wait_for_download_Some in Hw as (? & ? & ? & ? & _ & _ & _ & _ & Hext & _);
    eauto 6.
Qed.

(** A browser session that times out, whether waiting for the page or
    for the download, makes [convert] return [None]. *)
Lemma convert_timeout (b : Browser) :
  quit_error b = None ->
  setup_error b <> None \/ page_error b <> None \/ Forall poll_empty (polls b) ->
  convert b = Ok None.
Proof.
  intros Hq Hfail. unfold convert. rewrite Hq.
  destruct (setup_error b) as [e|]; [by destruct (driver_live _)|].
  destruct (page_error b) as [e|]; [by destruct (driver_live _)|].
  destruct Hfail as [? | [? | Hp]]; try done.
  destruct (_wait_for_download (polls b)) as [f|] eqn:Hw; [|by destruct (driver_live _)].
  apply wait_for_download_Some in Hw
    as (before & files & later & m & Heq & _ & Hdl & Hin & Hext & _).
  rewrite Heq in Hp. apply Forall_app in Hp as [_ Hp].
  apply Forall_cons in Hp as [[Hp | Hp] _]; [congruence|].
  assert ((f, m) ∈ List.filter is_docx files) as Hmem by (by apply filter_docx_elem).
  rewrite Hp in Hmem. by apply elem_of_nil in Hmem.
Qed.

(** The engine raises an exception whose text is empty, as [str(e)] of
    a bare [Exception()] is: the worker records the status [error] with
    an empty message. *)
Lemma worker_records_empty_message :
  snd (process_conversion (mkEngineRun [] (Raise (Exception ""))) "id-1"
         (upload_path "id-1") (fst (convert_pdf "a.pdf" "id-1" SaveOk world0)))
  = Ok tt
  /\ conversions
       (fst (process_conversion (mkEngineRun [] (Raise (Exception ""))) "id-1"
               (upload_path "id-1") (fst (convert_pdf "a.pdf" "id-1" SaveOk world0))))
       !! "id-1"
     = Some (mkJob "id-1" "error" "" None None "a.pdf").
Proof. split; vm_compute; reflexivity. Qed.

(** C6, as the code has it.  When the engine call of a registered job
    fails, by returning nothing or by raising, no exception leaves the
    worker, and the job is left with the status [error] and the message
    ["Falha na conversão"] for a failed return, [str(e)] for an
    exception [e].  The message is empty only when the text of the
    exception is. *)
Theorem worker_records_failure
    (run : EngineRun) (conversion_id pdf_path : string) (w : World) (j : Job) :
  conversions w !! conversion_id = Some j ->
  failed (outcome run) ->
  snd (process_conversion run conversion_id pdf_path w) = Ok tt
  /\ exists j',
       conversions (fst (process_conversion run conversion_id pdf_path w)) !! conversion_id
       = Some j'
       /\ status j' = "error"
       /\ message j' = failure_message (outcome run)
       /\ (message j' = "" -> exists e, outcome run = Raise e /\ str e = "").
Proof.
  intros Hc Hfail. rewrite (process_conversion_present _ _ _ _ _ Hc). simpl.
  split; [done|]. eexists. split; [apply lookup_insert_eq|].
  unfold finish_job, failed, failure_message in *.
  destruct (outcome run) as [fname|e]; simpl.
  - rewrite Hfail. simpl. by repeat split.
  - repeat split. intros He. by exists e.
Qed.

Lemma worker_records_failure_witness :
  snd (process_conversion (mkEngineRun [] (Ok None)) "id-1" (upload_path "id-1")
         (fst (convert_pdf "a.pdf" "id-1" SaveOk world0)))
  = Ok tt.
Proof.
  apply (proj1 (worker_records_failure (mkEngineRun [] (Ok None)) "id-1"
                  (upload_path "id-1") (fst (convert_pdf "a.pdf" "id-1" SaveOk world0))
                  (pending_job "id-1" "a.pdf") eq_refl eq_refl)).
Defined.
(** ** C3: the uploaded file is cleaned up *)

(** The terminal status is written before the [finally] block runs:
    after lines 241 to 244 the job is [completed], with its artifact
    name and url, and the upload is still on disk, until the worker
    reaches line 257. *)
Lemma terminal_job_before_cleanup :
  conversions
    (run_events [ReqConvert "a.pdf" "id-1" SaveOk; WorkerBegin 0;
                 EngineReturn 0 (mkEngineRun ["a.docx"] (Ok (Some "a.docx")));
                 WorkerStep 0; WorkerStep 0; WorkerStep 0; WorkerStep 0] world0)
    !! "id-1"
  = Some (mkJob "id-1" "completed" "Conversão concluída!"
            (Some "/download/id-1") (Some "a.docx") "a.pdf")
  /\ upload_path "id-1" ∈
       files (run_events [ReqConvert "a.pdf" "id-1" SaveOk; WorkerBegin 0;
                          EngineReturn 0 (mkEngineRun ["a.docx"] (Ok (Some "a.docx")));
                          WorkerStep 0; WorkerStep 0; WorkerStep 0; WorkerStep 0] world0)
  /\ threads
       (run_events [ReqConvert "a.pdf" "id-1" SaveOk; WorkerBegin 0;
                    EngineReturn 0 (mkEngineRun ["a.docx"] (Ok (Some "a.docx")));
                    WorkerStep 0; WorkerStep 0; WorkerStep 0; WorkerStep 0] world0)
     = [mkThread "id-1" (upload_path "id-1") (AtLine (L257 None))].
Proof. repeat split; vm_compute; reflexivity. Qed.

(** C3, as the code has it.  Whatever the engine call does (returns a
    name, returns nothing, raises), a worker run makes the call
    [os.remove(pdf_path)] exactly once, as its last external call, and
    ends with the path absent; for a registered job the calls are
    [convert(pdf_path)] and then [os.remove(pdf_path)], and the job
    ends in a terminal status.  In the running service (with [uuid4]
    never repeating an id) the removal is the statement at line 257, it
    comes after the write of the terminal status, and no other
    statement of the worker removes a file: a job whose status is
    terminal has a worker that is past that write, and its upload is
    absent once that worker has finished; the upload of every finished
    worker is absent; [os.remove] has been called on the upload of a
    job once if its worker has finished and not at all before (the ids
    being plain names, as [uuid4] strings are); and a worker that has
    finished never acts again. *)
Theorem cleanup_guarantee :
  (forall (run : EngineRun) (conversion_id pdf_path : string) (w : World) (j : Job),
     conversions w !! conversion_id = Some j ->
     let w' := fst (process_conversion run conversion_id pdf_path w) in
     effects w' = (effects w ++ [EConvert pdf_path; ERemove pdf_path])%list
     /\ (pdf_path ∉ files w')
     /\ exists j', conversions w' !! conversion_id = Some j' /\ terminal (status j'))
  /\ (forall (run : EngineRun) (conversion_id pdf_path : string) (w : World),
        let w' := fst (process_conversion run conversion_id pdf_path w) in
        (effects w' = (effects w ++ [EConvert pdf_path; ERemove pdf_path])%list
         \/ effects w' = (effects w ++ [ERemove pdf_path])%list)
        /\ (pdf_path ∉ files w'))
  /\ (forall (evs : list Event) (conversion_id : string) (j : Job),
        NoDup (uuids evs) ->
        conversions (run_events evs world0) !! conversion_id = Some j ->
        terminal (status j) ->
        exists n t,
          threads (run_events evs world0) !! n = Some t
          /\ t_conversion_id t = conversion_id
          /\ t_pdf_path t = upload_path conversion_id
          /\ (before_cleanup (t_state t) = true
              \/ ((exists e, t_state t = Finished e)
                  /\ upload_path conversion_id ∉ files (run_events evs world0))))
  /\ (forall (evs : list Event) (n : nat) (t : Thread) (e : option exn),
        NoDup (uuids evs) ->
        threads (run_events evs world0) !! n = Some t -> t_state t = Finished e ->
        t_pdf_path t ∉ files (run_events evs world0))
  /\ (forall (evs : list Event) (n : nat) (t : Thread),
        NoDup (uuids evs) -> plain_ids evs ->
        threads (run_events evs world0) !! n = Some t ->
        removals (t_pdf_path t) (effects (run_events evs world0))
        = if finished (t_state t) then 1%nat else 0%nat)
  /\ (forall (w : World) (n : nat) (conversion_id pdf_path : string) (e : option exn),
        threads w !! n = Some (mkThread conversion_id pdf_path (AtLine (L257 e))) ->
        effects (sched_step n w) = (effects w ++ [ERemove pdf_path])%list
        /\ (pdf_path ∉ files (sched_step n w))
        /\ threads (sched_step n w) !! n
           = Some (mkThread conversion_id pdf_path (Finished e)))
  /\ (forall (w : World) (n : nat) (t : Thread) (run : EngineRun),
        threads w !! n = Some t -> (forall e, t_state t <> AtLine (L257 e)) ->
        files (sched_step n w) = files w
        /\ (effects (sched_step n w) = effects w
            \/ effects (sched_step n w) = (effects w ++ [EConvert (t_pdf_path t)])%list)
        /\ effects (sched_return n run w) = effects w)
  /\ (forall (w : World) (n : nat) (t : Thread) (e : option exn) (run : EngineRun),
        threads w !! n = Some t -> t_state t = Finished e ->
        sched_step n w = w /\ sched_return n run w = w
        /\ sched_begin n w = w /\ sched_end n run w = w).
Proof.
  split; [|split; [|split; [|split; [|split; [|split; [|split]]]]]].
  - intros run cid path w j Hc. rewrite (process_conversion_present _ _ _ _ _ Hc). simpl.
    split; [done|]. split; [set_solver|].
    eexists. split; [apply lookup_insert_eq|].
    unfold finish_job, terminal.
    destruct (outcome run) as [fname|e]; [destruct (Str.truthy_opt fname)|]; simpl; eauto.
  - intros run cid path w. destruct (conversions w !! cid) as [j|] eqn:Hc.
    + rewrite (process_conversion_present _ _ _ _ _ Hc). simpl.
      split; [by left | set_solver].
    + rewrite (process_conversion_absent _ _ _ _ Hc). simpl.
      split; [by right | set_solver].
  - intros evs cid j Hnd Hc Hterm.
    pose proof (Inv_reachable evs Hnd) as HI.
    destruct (inv_job _ HI _ _ Hc) as (n & t & Hn & Hid & Hok).
    exists n, t. split; [done|]. split; [done|].
    split; [rewrite <- Hid; by apply (inv_path _ HI n)|].
    destruct (terminal_job_finished _ _ _ Hok Hterm) as [Hb | [e He]]; [by left|].
    right. split; [by exists e|]. rewrite <- Hid. by apply (inv_done _ HI n t e).
  - intros evs n t e Hnd Hn Hst.
    pose proof (Inv_reachable evs Hnd) as HI.
    rewrite (inv_path _ HI n t Hn). by apply (inv_done _ HI n t e).
  - intros evs n t Hnd Hpl Hn. by apply (removals_reachable evs n).
  - intros w n cid path e Hn. unfold sched_step. rewrite Hn.
    unfold thread_step. simpl write_at. cbv beta iota. rewrite cleanup_eq. simpl.
    split; [done|]. split; [set_solver|]. by rewrite list_lookup_alter_eq, Hn.
  - intros w n [cid path s] run Hn Hst. simpl in Hst. split; [|split].
    + unfold sched_step. rewrite Hn.
      destruct (write_at cid s) as [[[f next] inx]|] eqn:Hw.
      * by destruct (thread_step_write cid path s w f next inx Hw)
          as [(j & _ & ->) | [_ ->]].
      * destruct (thread_step_other cid path s w Hw)
          as [[_ ->] | [(esc & -> & _) | [_ ->]]]; try done.
        by destruct (Hst esc).
    + unfold sched_step. rewrite Hn.
      destruct (write_at cid s) as [[[f next] inx]|] eqn:Hw.
      * left. by destruct (thread_step_write cid path s w f next inx Hw)
          as [(j & _ & ->) | [_ ->]].
      * destruct (thread_step_other cid path s w Hw)
          as [[_ ->] | [(esc & -> & _) | [_ ->]]]; [by right | | by left].
        by destruct (Hst esc).
    + unfold sched_return. rewrite Hn. by destruct s.
  - intros w n [c p s] e run Hn Hst. simpl in Hst. subst s.
    assert (sched_step n w = w) as Hstep.
    { unfold sched_step. rewrite Hn.
      change (thread_step c p (Finished e) w) with (w, Finished e). cbv beta iota.
      by apply (set_thread_state_same _ _ c p). }
    assert (sched_return n run w = w) as Hret.
    { unfold sched_return. rewrite Hn.
      change (engine_return run (Finished e) w) with (w, Finished e). cbv beta iota.
      by apply (set_thread_state_same _ _ c p). }
    split; [done|]. split; [done|].
    unfold sched_begin, sched_end. by rewrite Hn.
Qed.

Lemma cleanup_guarantee_witness :
  (exists n t,
    threads (run_events [ReqConvert "a.pdf" "id-1" SaveOk; WorkerBegin 0;
                         WorkerEnd 0 (mkEngineRun [] (Raise (Exception "boom")))] world0)
      !! n = Some t
    /\ t_conversion_id t = "id-1"
    /\ t_pdf_path t = upload_path "id-1"
    /\ (before_cleanup (t_state t) = true
        \/ ((exists e, t_state t = Finished e)
            /\ upload_path "id-1" ∉
                 files (run_events [ReqConvert "a.pdf" "id-1" SaveOk; WorkerBegin 0;
                                    WorkerEnd 0 (mkEngineRun [] (Raise (Exception "boom")))]
                          world0))))
  /\ removals (upload_path "id-1")
       (effects (run_events [ReqConvert "a.pdf" "id-1" SaveOk; WorkerBegin 0;
                             WorkerEnd 0 (mkEngineRun [] (Raise (Exception "boom")));
                             ReqDelete "id-1"] world0))
     = 1%nat.
Proof.
  split.
  - apply (proj1 (proj2 (proj2 cleanup_guarantee))
             [ReqConvert "a.pdf" "id-1" SaveOk; WorkerBegin 0;
              WorkerEnd 0 (mkEngineRun [] (Raise (Exception "boom")))]
             "id-1" (mkJob "id-1" "error" "boom" None None "a.pdf")).
    + vm_compute. apply NoDup_cons. split; [apply not_elem_of_nil | apply NoDup_nil_2].
    + vm_compute. reflexivity.
    + right. reflexivity.
  - apply (proj1 (proj2 (proj2 (proj2 (proj2 cleanup_guarantee))))
             [ReqConvert "a.pdf" "id-1" SaveOk; WorkerBegin 0;
              WorkerEnd 0 (mkEngineRun [] (Raise (Exception "boom")));
              ReqDelete "id-1"]
             0%nat (mkThread "id-1" (upload_path "id-1") (Finished None))).
    + vm_compute. apply NoDup_cons. split; [apply not_elem_of_nil | apply NoDup_nil_2].
    + vm_compute. apply Forall_cons. split; [reflexivity | apply Forall_nil_2].
    + vm_compute. reflexivity.
Defined.

(** ** C2: the artifact name and the status *)

(** When [uuid4] repeats an id while the first worker for it is still
    running, a record can end with the status [error] and an artifact
    name: the ids of a run have to be distinct for C2. *)
Example repeated_uuid_breaks_artifact_rule :
  conversions
    (run_events [ReqConvert "a.pdf" "id-1" SaveOk; WorkerBegin 0;
                 ReqConvert "b.pdf" "id-1" SaveOk;
                 WorkerEnd 0 (mkEngineRun ["a.docx"] (Ok (Some "a.docx")));
                 WorkerBegin 1;
                 WorkerEnd 1 (mkEngineRun [] (Ok None))] world0) !! "id-1"
  = Some (mkJob "id-1" "error" "Falha na conversão"
            (Some "/download/id-1") (Some "a.docx") "b.pdf").
Proof. vm_compute. reflexivity. Qed.

(** The status [completed] is written at line 241, the artifact name
    at line 243: in between the record is [completed] and has no
    artifact name. *)
Lemma completed_record_without_filename :
  conversions
    (run_events [ReqConvert "a.pdf" "id-1" SaveOk; WorkerBegin 0;
                 EngineReturn 0 (mkEngineRun ["a.docx"] (Ok (Some "a.docx")));
                 WorkerStep 0] world0) !! "id-1"
  = Some (mkJob "id-1" "completed" "Convertendo PDF para Word..." None None "a.pdf")
  /\ uuids [ReqConvert "a.pdf" "id-1" SaveOk; WorkerBegin 0;
            EngineReturn 0 (mkEngineRun ["a.docx"] (Ok (Some "a.docx")));
            WorkerStep 0] = ["id-1"].
Proof. split; vm_compute; reflexivity. Qed.

(** C2, as the code has it.  In every state the service reaches (with
    [uuid4] never repeating an id): a record with a non-empty artifact
    name is [completed]; a pending, processing or failed job has no
    artifact recorded at all; these four are the only statuses; a
    [completed] record has a non-empty artifact name unless its worker
    stands between the write of the status and the write of the name
    (at line 242 or 243), and then it has none; and once the worker of
    a job has made its last write, the record has a non-empty artifact
    name exactly when its status is [completed]. *)
Theorem artifact_iff_completed (evs : list Event) (conversion_id : string) (j : Job) :
  NoDup (uuids evs) ->
  conversions (run_events evs world0) !! conversion_id = Some j ->
  ((exists f, filename j = Some f /\ f <> "") -> status j = "completed")
  /\ (status j = "pending" \/ status j = "processing" \/ status j = "error" ->
      filename j = None)
  /\ (status j = "pending" \/ status j = "processing" \/
      status j = "completed" \/ status j = "error")
  /\ (status j = "completed" ->
      (exists f, filename j = Some f /\ f <> "")
      \/ (filename j = None
          /\ exists n t f,
               threads (run_events evs world0) !! n = Some t
               /\ t_conversion_id t = conversion_id
               /\ (t_state t = AtLine (L242 f) \/ t_state t = AtLine (L243 f))))
  /\ (written conversion_id (run_events evs world0) ->
      ((exists f, filename j = Some f /\ f <> "") <-> status j = "completed")).
Proof.
  intros Hnd Hc. pose proof (Inv_reachable evs Hnd) as HI.
  destruct (inv_job _ HI _ _ Hc) as (n & t & Hn & Hid & Hok).
  assert (written conversion_id (run_events evs world0) ->
          past_writes (t_state t) = true) as Hwr.
  { intros (n' & t' & Hn' & Hid' & Hpw).
    assert (n' = n) as -> by (apply (inv_unique _ HI n' n t' t); congruence).
    congruence. }
  rewrite <- !truthy_opt_spec.
  destruct (t_state t) as [|[]| |esc] eqn:Hst; simpl in Hok;
    try (destruct Hok as (Hs & Hf & Hu & Htr));
    try (destruct Hok as (Hs & Hf & Hu));
    try (destruct Hok as [(Hs & Hf & Hu) | (Hs & Hf & Hu)]);
    rewrite Hs; rewrite ?Hf; simpl;
    (split; [try done; try (by intros _; congruence)|]);
    (split; [try done; try (by intros [H | [H | H]]; discriminate H)|]);
    (split; [by eauto 6|]);
    (split; [try done; intros _; try (by left; congruence);
             try (right; split; [done|]; exists n, t; eauto 8)
            |]);
    try (intros H; specialize (Hwr H); discriminate Hwr);
    intros _; split; try done; by intros _.
Qed.

Lemma artifact_iff_completed_witness :
  ((exists f, Some "a.docx" = Some f /\ f <> "") -> "completed" = "completed")
  /\ ("completed" = "pending" \/ "completed" = "processing" \/ "completed" = "error" ->
      Some "a.docx" = None)
  /\ ("completed" = "pending" \/ "completed" = "processing" \/
      "completed" = "completed" \/ "completed" = "error")
  /\ ("completed" = "completed" ->
      (exists f, Some "a.docx" = Some f /\ f <> "")
      \/ (Some "a.docx" = None
          /\ exists n t f,
               threads
                 (run_events [ReqConvert "a.pdf" "id-1" SaveOk; WorkerBegin 0;
                              WorkerEnd 0 (mkEngineRun ["a.docx"] (Ok (Some "a.docx")))]
                    world0) !! n = Some t
               /\ t_conversion_id t = "id-1"
               /\ (t_state t = AtLine (L242 f) \/ t_state t = AtLine (L243 f))))
  /\ (written "id-1"
        (run_events [ReqConvert "a.pdf" "id-1" SaveOk; WorkerBegin 0;
                     WorkerEnd 0 (mkEngineRun ["a.docx"] (Ok (Some "a.docx")))] world0) ->
      ((exists f, Some "a.docx" = Some f /\ f <> "") <-> "completed" = "completed")).
Proof.
  apply (artifact_iff_completed
           [ReqConvert "a.pdf" "id-1" SaveOk; WorkerBegin 0;
            WorkerEnd 0 (mkEngineRun ["a.docx"] (Ok (Some "a.docx")))]
           "id-1"
           (mkJob "id-1" "completed" "Conversão concluída!"
              (Some "/download/id-1") (Some "a.docx") "a.pdf")).
  - vm_compute. apply NoDup_cons. split; [apply not_elem_of_nil | apply NoDup_nil_2].
  - vm_compute. reflexivity.
Defined.

(** ** C1: jobs in a terminal status *)

(** The worker has no guard on the current status.  Run on a job that
    is already [completed], it does not fail: it overwrites the status
    and the message. *)
Lemma process_conversion_overwrites_terminal_job :
  conversions
    (run_events [ReqConvert "a.pdf" "id-1" SaveOk; WorkerBegin 0;
                 WorkerEnd 0 (mkEngineRun ["a.docx"] (Ok (Some "a.docx")))] world0)
    !! "id-1"
  = Some (mkJob "id-1" "completed" "Conversão concluída!"
            (Some "/download/id-1") (Some "a.docx") "a.pdf")
  /\ snd (process_conversion (mkEngineRun [] (Ok None)) "id-1" (upload_path "id-1")
        (run_events [ReqConvert "a.pdf" "id-1" SaveOk; WorkerBegin 0;
                     WorkerEnd 0 (mkEngineRun ["a.docx"] (Ok (Some "a.docx")))] world0))
     = Ok tt
  /\ conversions
       (fst (process_conversion (mkEngineRun [] (Ok None)) "id-1" (upload_path "id-1")
          (run_events [ReqConvert "a.pdf" "id-1" SaveOk; WorkerBegin 0;
                       WorkerEnd 0 (mkEngineRun ["a.docx"] (Ok (Some "a.docx")))] world0)))
       !! "id-1"
     = Some (mkJob "id-1" "error" "Falha na conversão"
               (Some "/download/id-1") (Some "a.docx") "a.pdf").
Proof. repeat split; vm_compute; reflexivity. Qed.

(** C1, as the code has it.  There is no transition operation that
    rejects: the worker writes the status unconditionally.  What holds
    is that the service never attempts a transition on a terminal job:
    in a run where [uuid4] never repeats an id, once the status of a
    job is [completed] or [error], the status, the id and the original
    file name of its record are the same after any further events, for
    as long as the record exists.  The message, the artifact name and
    the url are written by the worker after the status (lines 242 to
    244, 248, 252); once the worker has made its last write, the whole
    record is the same after any further events. *)
Theorem terminal_record_fixed
    (evs later : list Event) (conversion_id : string) (j j' : Job) :
  NoDup (uuids (evs ++ later)) ->
  conversions (run_events evs world0) !! conversion_id = Some j ->
  terminal (status j) ->
  conversions (run_events (evs ++ later) world0) !! conversion_id = Some j' ->
  status j' = status j
  /\ id j' = id j
  /\ original_filename j' = original_filename j
  /\ (written conversion_id (run_events evs world0) -> j' = j).
Proof.
  intros Hnd Hc Hterm Hc'.
  pose proof (follows_later evs later conversion_id j Hnd Hc) as Hfo.
  unfold follows in Hfo. rewrite Hc' in Hfo. destruct Hfo as (Hfw & Hid & Hof).
  split; [by apply forward_terminal|]. split; [done|]. split; [done|].
  intros Hwr.
  assert (NoDup (uuids evs)) as Hnd1.
  { rewrite uuids_app in Hnd. by apply NoDup_app in Hnd as [? _]. }
  pose proof (Inv_reachable evs Hnd1) as HI.
  pose proof (fresh_for_run evs later world0 (fresh_for_world0 _ Hnd)) as Hf.
  rewrite run_events_app in Hc'.
  destruct (written_run later _ conversion_id HI Hf Hwr) as [H | H];
    rewrite H in Hc'; congruence.
Qed.

Lemma terminal_record_fixed_witness :
  status (mkJob "id-1" "completed" "Conversão concluída!" None (Some "a.docx") "a.pdf")
  = status (mkJob "id-1" "completed" "Convertendo PDF para Word..." None None "a.pdf")
  /\ id (mkJob "id-1" "completed" "Conversão concluída!" None (Some "a.docx") "a.pdf")
     = id (mkJob "id-1" "completed" "Convertendo PDF para Word..." None None "a.pdf")
  /\ original_filename
       (mkJob "id-1" "completed" "Conversão concluída!" None (Some "a.docx") "a.pdf")
     = original_filename
         (mkJob "id-1" "completed" "Convertendo PDF para Word..." None None "a.pdf")
  /\ (written "id-1"
        (run_events [ReqConvert "a.pdf" "id-1" SaveOk; WorkerBegin 0;
                     EngineReturn 0 (mkEngineRun ["a.docx"] (Ok (Some "a.docx")));
                     WorkerStep 0] world0) ->
      mkJob "id-1" "completed" "Conversão concluída!" None (Some "a.docx") "a.pdf"
      = mkJob "id-1" "completed" "Convertendo PDF para Word..." None None "a.pdf").
Proof.
  apply (terminal_record_fixed
           [ReqConvert "a.pdf" "id-1" SaveOk; WorkerBegin 0;
            EngineReturn 0 (mkEngineRun ["a.docx"] (Ok (Some "a.docx")));
            WorkerStep 0]
           [WorkerStep 0; ReqConvert "b.pdf" "id-2" SaveOk; WorkerStep 0;
            ReqStatus "id-1"]
           "id-1").
  - vm_compute. apply NoDup_cons. split.
    + intros [H | H]%elem_of_cons; [discriminate H | by apply elem_of_nil in H].
    + apply NoDup_cons. split; [apply not_elem_of_nil | apply NoDup_nil_2].
  - vm_compute. reflexivity.
  - left. reflexivity.
  - vm_compute. reflexivity.
Defined.

(** * Further properties of the code *)

(** ** The download name *)

Section DownloadName.

Lemma contains_dot_unfold (c : ascii) (s : string) :
  Str.contains_dot (String c s) = (Ascii.eqb c "."%char || Str.contains_dot s).
Proof. reflexivity. Qed.

Lemma rsplit_dot_head_unfold (c : ascii) (s : string) :
  Str.rsplit_dot_head (String c s)
  = if Str.contains_dot s then String c (Str.rsplit_dot_head s)
    else if Ascii.eqb c "."%char then EmptyString
    else String c (Str.rsplit_dot_head s).
Proof. reflexivity. Qed.

Lemma contains_dot_append_dot (stem ext : string) :
  Str.contains_dot (stem +:+ "." +:+ ext) = true.
Proof.
  induction stem as [|c stem IH].
  - reflexivity.
  - rewrite append_cons, contains_dot_unfold, IH. apply orb_true_r.
Qed.

(** [rsplit('.', 1)[0]] drops the last extension and nothing else. *)
Lemma rsplit_dot_head_stem (stem ext : string) :
  Str.contains_dot ext = false ->
  Str.rsplit_dot_head (stem +:+ "." +:+ ext) = stem.
Proof.
  intros Hext. induction stem as [|c stem IH].
  - change ("" +:+ "." +:+ ext) with (String "."%char ext).
    rewrite rsplit_dot_head_unfold, Hext. reflexivity.
  - rewrite append_cons, rsplit_dot_head_unfold, contains_dot_append_dot. by rewrite IH.
Qed.

(** X2.  A completed job whose artifact is on disk is served under the
    original name with its last extension replaced by [.docx]: an
    upload named [stem.ext] (no dot in [ext]) is downloaded as
    [stem.docx], with the Word media type, from [OUTPUT_DIR/filename]. *)
Theorem download_file_name
    (conversion_id : string) (w : World) (conv : Job) (fname stem ext : string) :
  conversions w !! conversion_id = Some conv ->
  status conv = "completed" ->
  filename conv = Some fname ->
  fname <> "" ->
  path_join OUTPUT_DIR fname ∈ files w ->
  original_filename conv = stem +:+ "." +:+ ext ->
  Str.contains_dot ext = false ->
  download_file conversion_id w
  = (w, Ok (mkFileResponse (path_join OUTPUT_DIR fname) (stem +:+ ".docx")
              docx_media_type)).
Proof.
  intros Hc Hst Hf Hne Hin Horig Hext.
  unfold download_file, mbind, M_bind, get. rewrite Hc, Hst, Hf. simpl.
  apply truthy_spec in Hne. rewrite Hne.
  unfold exists_. rewrite bool_decide_eq_true_2 by done. simpl.
  by rewrite Horig, (rsplit_dot_head_stem _ _ Hext).
Qed.

Lemma download_file_name_witness :
  download_file "id-1"
    (run_events [ReqConvert "my.report.PDF" "id-1" SaveOk; WorkerBegin 0;
                 WorkerEnd 0 (mkEngineRun ["out.docx"] (Ok (Some "out.docx")))] world0)
  = (run_events [ReqConvert "my.report.PDF" "id-1" SaveOk; WorkerBegin 0;
                 WorkerEnd 0 (mkEngineRun ["out.docx"] (Ok (Some "out.docx")))] world0,
     Ok (mkFileResponse (path_join OUTPUT_DIR "out.docx") ("my.report" +:+ ".docx")
           docx_media_type)).
Proof.
  apply (download_file_name "id-1" _
           (mkJob "id-1" "completed" "Conversão concluída!"
              (Some "/download/id-1") (Some "out.docx") "my.report.PDF")
           "out.docx" "my.report" "PDF").
  - vm_compute. reflexivity.
  - reflexivity.
  - reflexivity.
  - discriminate.
  - vm_compute. reflexivity.
  - reflexivity.
  - reflexivity.
Defined.

End DownloadName.

(** ** A submission whose upload cannot be saved *)

(** X3.  When saving the upload of a valid submission fails, the answer
    is HTTP 500 carrying the text of the error; no record is created
    and no worker is started.  A file the failed write had already
    created stays on disk: nothing removes it. *)
Theorem convert_pdf_save_failure
    (file_filename uuid4 : string) (e : exn) (created : bool) (w : World) :
  Str.endswith (Str.lower file_filename) ".pdf" = true ->
  let w' := fst (convert_pdf file_filename uuid4 (SaveFails e created) w) in
  snd (convert_pdf file_filename uuid4 (SaveFails e created) w)
  = Raise (mkHTTPException 500 ("Erro ao salvar arquivo: " +:+ str e))
  /\ conversions w' = conversions w
  /\ threads w' = threads w
  /\ files w' = (if created then files w ∪ {[upload_path uuid4]} else files w).
Proof.
  intros Hext. unfold convert_pdf. rewrite Hext. by destruct created.
Qed.

Lemma convert_pdf_save_failure_witness :
  snd (convert_pdf "a.pdf" "id-1" (SaveFails (Exception "disk full") true) world0)
  = Raise (mkHTTPException 500 ("Erro ao salvar arquivo: " +:+ "disk full")).
Proof.
  apply (convert_pdf_save_failure "a.pdf" "id-1" (Exception "disk full") true world0).
  reflexivity.
Defined.

(** ** More on artifact discovery *)

Section DiscoveryOrder.

Implicit Types (l files : Listing) (x y : string * Z).

(** The head of the sorted list is the first element of the list, in
    listing order, whose modification time is the largest. *)
Lemma head_sort_desc_first l x :
  head (sort_desc l) = Some x ->
  exists l1 l2,
    l = (l1 ++ x :: l2)%list
    /\ (forall y, y ∈ l1 -> snd y < snd x)
    /\ (forall y, y ∈ l2 -> snd y <= snd x).
Proof.
  revert x. induction l as [|a l IH]; intros x; [done|].
  change (sort_desc (a :: l)) with (insert_desc a (sort_desc l)).
  rewrite head_insert_desc.
  destruct (head (sort_desc l)) as [y|] eqn:Hh.
  - destruct (Z.ltb_spec (snd a) (snd y)); intros [= <-].
    + destruct (IH y eq_refl) as (l1 & l2 & -> & H1 & H2).
      exists (a :: l1), l2. split; [done|]. split; [|done].
      intros z [->|Hz]%elem_of_cons; [done | by apply H1].
    + exists [], l. split; [done|]. split; [by intros z Hz%elem_of_nil|].
      intros z Hz. destruct (head_sort_desc _ _ Hh) as [_ Hmax].
      specialize (Hmax z Hz). lia.
  - intros [= <-]. destruct l as [|b l].
    + exists [], []. split; [done|]. split; by intros z Hz%elem_of_nil.
    + change (sort_desc (b :: l)) with (insert_desc b (sort_desc l)) in Hh.
      by rewrite head_insert_desc in Hh.
Qed.

(** The poll a result comes from, and how the result is read off it. *)
Lemma wait_for_download_first_poll (polls : list Listing) (f : string) :
  _wait_for_download polls = Some f ->
  exists (before : list Listing) (files : Listing) (later : list Listing),
    polls = (before ++ files :: later)%list
    /\ Forall poll_empty before
    /\ existsb is_crdownload files = false
    /\ fst <$> head (sort_desc (List.filter is_docx files)) = Some f.
Proof.
  induction polls as [|files later IH]; [done|].
  rewrite wait_for_download_unfold.
  destruct (existsb is_crdownload files) eqn:Hdl.
  { intros (before & fs & lt & -> & Hb & Hrest)%IH.
    exists (files :: before), fs, lt. split; [done|].
    split; [|done]. constructor; [by left | done]. }
  destruct (List.filter is_docx files) as [|a l] eqn:Hf.
  { intros (before & fs & lt & -> & Hb & Hrest)%IH.
    exists (files :: before), fs, lt. split; [done|].
    split; [|done]. constructor; [by right | done]. }
  intros Hres. exists [], files, later. rewrite Hf. by repeat split.
Qed.

(** X16.  Among [.docx] files with the same, largest modification time
    the one that comes first in the directory listing is returned:
    every [.docx] file listed before the result is strictly older, and
    none listed after it is newer. *)
Theorem wait_for_download_prefers_first (polls : list Listing) (f : string) :
  _wait_for_download polls = Some f ->
  exists (before : list Listing) (files : Listing) (later : list Listing)
         (l1 l2 : Listing) (m : Z),
    polls = (before ++ files :: later)%list
    /\ Forall poll_empty before
    /\ List.filter is_docx files = (l1 ++ (f, m) :: l2)%list
    /\ (forall y, y ∈ l1 -> snd y < m)
    /\ (forall y, y ∈ l2 -> snd y <= m).
Proof.
  intros (before & files & later & -> & Hb & _ & Hres)%wait_for_download_first_poll.
  destruct (head (sort_desc (List.filter is_docx files))) as [[g m]|] eqn:Hh; [|done].
  injection Hres as ->.
  destruct (head_sort_desc_first _ _ Hh) as (l1 & l2 & Hl & H1 & H2).
  by exists before, files, later, l1, l2, m.
Qed.

Lemma wait_for_download_prefers_first_witness :
  exists (before : list Listing) (files : Listing) (later : list Listing)
         (l1 l2 : Listing) (m : Z),
    [[("a.docx", 7); ("b.docx", 7)]] = (before ++ files :: later)%list
    /\ Forall poll_empty before
    /\ List.filter is_docx files = (l1 ++ ("a.docx", m) :: l2)%list
    /\ (forall y, y ∈ l1 -> snd y < m)
    /\ (forall y, y ∈ l2 -> snd y <= m).
Proof.
  apply (wait_for_download_prefers_first [[("a.docx", 7); ("b.docx", 7)]] "a.docx").
  reflexivity.
Defined.

(** X17.  The loop stops at the first result: polls after it do not
    matter, and polls that gave nothing are as if they had not been
    made. *)
Theorem wait_for_download_app (polls more : list Listing) :
  _wait_for_download (polls ++ more)
  = match _wait_for_download polls with
    | Some f => Some f
    | None => _wait_for_download more
    end.
Proof.
  induction polls as [|files later IH]; [done|].
  rewrite <- app_comm_cons, !wait_for_download_unfold.
  destruct (existsb is_crdownload files); [done|].
  destruct (List.filter is_docx files) as [|a l] eqn:Hf; [done|].
  destruct (sort_desc_nonempty a l) as [y ->]. done.
Qed.

End DiscoveryOrder.

(** ** The browser session *)

(** X6.  No exception raised while driving the browser leaves
    [convert]: when [driver.quit()] does not raise (or no driver was
    started), [convert] returns normally; it returns [None] as soon as
    the setup or the page failed, and a name only when the whole
    session went through, the name being the [.docx] file the polling
    loop found. *)
Theorem convert_contains_errors (b : Browser) :
  driver_live b = false \/ quit_error b = None ->
  exists r,
    convert b = Ok r
    /\ (setup_error b <> None \/ page_error b <> None -> r = None)
    /\ (forall f, r = Some f ->
          setup_error b = None /\ page_error b = None
          /\ _wait_for_download (polls b) = Some f
          /\ Str.endswith f ".docx" = true).
Proof.
  intros Hquit.
  assert (convert b
          = match setup_error b with
            | Some _ => Ok None
            | None => match page_error b with
                      | Some _ => Ok None
                      | None => Ok (_wait_for_download (polls b))
                      end
            end) as ->.
  { unfold convert. destruct Hquit as [-> | ->].
    - by destruct (setup_error b), (page_error b).
    - by destruct (driver_live b), (setup_error b), (page_error b). }
  destruct (setup_error b) as [e|].
  { exists None. by repeat split. }
  destruct (page_error b) as [e|].
  { exists None. by repeat split. }
  exists (_wait_for_download (polls b)). split; [done|]. split.
  - by intros [? | ?].
  - intros f Hf. repeat split; try done.
    by apply wait_for_download_Some in Hf as (? & ? & ? & ? & _ & _ & _ & _ & Hext & _).
Qed.

Lemma convert_contains_errors_witness :
  convert (mkBrowser None true (Some (Exception "no such element")) [] None) = Ok None.
Proof.
  destruct (convert_contains_errors
              (mkBrowser None true (Some (Exception "no such element")) [] None))
    as (r & Hr & Hnone & _).
  - right. reflexivity.
  - rewrite Hr, Hnone; [reflexivity|]. right. discriminate.
Defined.

(** ** The worker and the engine together *)

Section WorkerEngine.

Implicit Types (w : World) (j : Job) (b : Browser).

(** X7.  An exception of [driver.quit()] replaces the result of a
    session that had succeeded: although the converted file was
    downloaded, the worker records the job as failed, with the text of
    that exception and without an artifact name. *)
Theorem quit_failure_discards_download
    b (files_written : list string) (conversion_id pdf_path : string) w j
    (f : string) (e : exn) :
  conversions w !! conversion_id = Some j ->
  setup_error b = None ->
  page_error b = None ->
  _wait_for_download (polls b) = Some f ->
  quit_error b = Some e ->
  convert b = Raise e
  /\ snd (process_conversion (mkEngineRun files_written (convert b))
            conversion_id pdf_path w) = Ok tt
  /\ conversions
       (fst (process_conversion (mkEngineRun files_written (convert b))
               conversion_id pdf_path w)) !! conversion_id
     = Some (mkJob (id j) "error" (str e) (url j) (filename j) (original_filename j)).
Proof.
  intros Hc Hs Hp Hw Hq.
  assert (convert b = Raise e) as Hconv.
  { unfold convert, driver_live. by rewrite Hs, Hp, Hq. }
  split; [done|]. rewrite (process_conversion_present _ _ _ _ _ Hc). simpl.
  split; [done|]. rewrite lookup_insert_eq, Hconv. reflexivity.
Qed.

Lemma quit_failure_discards_download_witness :
  convert (mkBrowser None true None [[("a.docx", 3)]] (Some (Exception "session gone")))
  = Raise (Exception "session gone").
Proof.
  apply (quit_failure_discards_download
           (mkBrowser None true None [[("a.docx", 3)]] (Some (Exception "session gone")))
           ["a.docx"] "id-1" (upload_path "id-1")
           (fst (convert_pdf "a.pdf" "id-1" SaveOk world0))
           (pending_job "id-1" "a.pdf") "a.docx" (Exception "session gone"));
    reflexivity.
Defined.

(** X8.  A session that runs into a timeout, while waiting for the page
    or for the download, ends the job with the status [error] and the
    message ["Falha na conversão"]; no artifact name is recorded and
    the upload is removed. *)
Theorem timeout_marks_job_failed
    b (files_written : list string) (conversion_id pdf_path : string) w j :
  conversions w !! conversion_id = Some j ->
  quit_error b = None ->
  setup_error b <> None \/ page_error b <> None \/ Forall poll_empty (polls b) ->
  let w' := fst (process_conversion (mkEngineRun files_written (convert b))
                   conversion_id pdf_path w) in
  snd (process_conversion (mkEngineRun files_written (convert b))
         conversion_id pdf_path w) = Ok tt
  /\ conversions w' !! conversion_id
     = Some (mkJob (id j) "error" "Falha na conversão" (url j) (filename j)
               (original_filename j))
  /\ pdf_path ∉ files w'.
Proof.
  intros Hc Hq Hfail.
  rewrite (process_conversion_present _ _ _ _ _ Hc). simpl.
  split; [done|]. split; [|set_solver].
  rewrite lookup_insert_eq, (convert_timeout b Hq Hfail). reflexivity.
Qed.

Lemma timeout_marks_job_failed_witness :
  snd (process_conversion
         (mkEngineRun [] (convert (mkBrowser None true None [[]; [("x.crdownload", 1)]] None)))
         "id-1" (upload_path "id-1") (fst (convert_pdf "a.pdf" "id-1" SaveOk world0)))
  = Ok tt.
Proof.
  apply (timeout_marks_job_failed
           (mkBrowser None true None [[]; [("x.crdownload", 1)]] None) []
           "id-1" (upload_path "id-1") (fst (convert_pdf "a.pdf" "id-1" SaveOk world0))
           (pending_job "id-1" "a.pdf")).
  - reflexivity.
  - reflexivity.
  - right. right. constructor; [by right|]. constructor; [by left|]. constructor.
Defined.

Lemma path_join_relative (name : string) :
  Str.startswith name "/" = false -> path_join OUTPUT_DIR name = output_file name.
Proof. intros H. unfold path_join. by rewrite H. Qed.

(** X9.  When the engine returns a name and that file is among the
    ones it left in the output directory, the job can be fetched: the
    status request shows [completed] with the name and the url
    [/download/id], and the download request succeeds and serves that
    file. *)
Theorem successful_conversion_downloadable
    (run : EngineRun) (conversion_id : string) w j (f : string) :
  conversions w !! conversion_id = Some j ->
  outcome run = Ok (Some f) ->
  f <> "" ->
  Str.startswith f "/" = false ->
  f ∈ downloaded run ->
  let w' := fst (process_conversion run conversion_id (upload_path conversion_id) w) in
  get_status conversion_id w'
  = (w', Ok (mkConversionStatus (id j) "completed" (Some "Conversão concluída!")
               (Some ("/download/" +:+ conversion_id)) (Some f)))
  /\ download_file conversion_id w'
     = (w', Ok (mkFileResponse (output_file f)
                  (Str.rsplit_dot_head (original_filename j) +:+ ".docx")
                  docx_media_type)).
Proof.
  intros Hc Hout Hne Hrel Hin.
  rewrite (process_conversion_present _ _ _ _ _ Hc). simpl.
  assert (Str.truthy f = true) as Ht by (by apply truthy_spec).
  unfold get_status, download_file, mbind, M_bind, get. simpl.
  rewrite lookup_insert_eq, Hout. simpl. rewrite Ht. simpl.
  split; [done|]. rewrite Ht, (path_join_relative _ Hrel).
  unfold exists_. rewrite bool_decide_eq_true_2; [done|]. simpl.
  apply elem_of_difference. split.
  - apply elem_of_union_r, elem_of_list_to_set, list_elem_of_fmap. by exists f.
  - intros Heq%elem_of_singleton. by apply (output_file_not_upload f conversion_id).
Qed.

Lemma successful_conversion_downloadable_witness :
  get_status "id-1"
    (fst (process_conversion (mkEngineRun ["a.docx"] (Ok (Some "a.docx"))) "id-1"
            (upload_path "id-1") (fst (convert_pdf "a.pdf" "id-1" SaveOk world0))))
  = (fst (process_conversion (mkEngineRun ["a.docx"] (Ok (Some "a.docx"))) "id-1"
            (upload_path "id-1") (fst (convert_pdf "a.pdf" "id-1" SaveOk world0))),
     Ok (mkConversionStatus "id-1" "completed" (Some "Conversão concluída!")
           (Some ("/download/" +:+ "id-1")) (Some "a.docx"))).
Proof.
  apply (successful_conversion_downloadable
           (mkEngineRun ["a.docx"] (Ok (Some "a.docx"))) "id-1"
           (fst (convert_pdf "a.pdf" "id-1" SaveOk world0))
           (pending_job "id-1" "a.pdf") "a.docx").
  - reflexivity.
  - reflexivity.
  - discriminate.
  - reflexivity.
  - apply list_elem_of_here.
Defined.

(** X10.  A worker that finds no record under its id (the job was
    deleted before the worker started) never calls the engine: its only
    external call is the removal of the upload.  The [KeyError] leaves
    the worker, and the registry is as before: the record is not
    created again. *)
Theorem worker_without_record
    (run : EngineRun) (conversion_id pdf_path : string) w :
  conversions w !! conversion_id = None ->
  let w' := fst (process_conversion run conversion_id pdf_path w) in
  snd (process_conversion run conversion_id pdf_path w) = Raise (KeyError conversion_id)
  /\ conversions w' = conversions w
  /\ effects w' = (effects w ++ [ERemove pdf_path])%list
  /\ files w' = files w ∖ {[pdf_path]}.
Proof. intros Hc. by rewrite (process_conversion_absent _ _ _ _ Hc). Qed.

Lemma worker_without_record_witness :
  snd (process_conversion (mkEngineRun [] (Ok None)) "id-1" (upload_path "id-1") world0)
  = Raise (KeyError "id-1").
Proof.
  apply (worker_without_record (mkEngineRun [] (Ok None)) "id-1"
           (upload_path "id-1") world0).
  reflexivity.
Defined.

(** X11.  A worker touches nothing but its own job: the records under
    all other ids are unchanged, no id is added to or removed from the
    registry, its own record keeps its id and original file name, no
    thread is changed, and the only new files are those the engine
    left in the output directory. *)
Theorem worker_touches_only_its_job
    (run : EngineRun) (conversion_id pdf_path : string) w :
  let w' := fst (process_conversion run conversion_id pdf_path w) in
  (forall cid, cid <> conversion_id -> conversions w' !! cid = conversions w !! cid)
  /\ dom (conversions w') = dom (conversions w)
  /\ (forall j', conversions w' !! conversion_id = Some j' ->
        exists j, conversions w !! conversion_id = Some j
                  /\ id j' = id j /\ original_filename j' = original_filename j)
  /\ threads w' = threads w
  /\ (forall p, p ∈ files w' ->
        p ∈ files w \/ exists name, name ∈ downloaded run /\ p = output_file name).
Proof.
  destruct (conversions w !! conversion_id) as [j|] eqn:Hc.
  - rewrite (process_conversion_present _ _ _ _ _ Hc). simpl.
    split; [intros cid Hne; by apply lookup_insert_ne|].
    split; [|split; [|split; [done|]]].
    + rewrite dom_insert_L. apply elem_of_dom_2 in Hc. set_solver.
    + rewrite lookup_insert_eq. intros j' [= <-]. exists j. split; [done|].
      unfold finish_job.
      by destruct (outcome run) as [fname|e]; [destruct (Str.truthy_opt fname)|].
    + intros p [[Hp | Hp]%elem_of_union _]%elem_of_difference; [by left|].
      right. apply elem_of_list_to_set, list_elem_of_fmap in Hp as (name & -> & Hin).
      by exists name.
  - rewrite (process_conversion_absent _ _ _ _ Hc). simpl.
    split; [done|]. split; [done|]. split; [by rewrite Hc|]. split; [done|].
    intros p Hp%elem_of_difference. left. apply Hp.
Qed.

End WorkerEngine.

(** ** The service over whole runs *)

Section Runs.

Implicit Types (w : World) (j : Job) (cid : string) (e : Event) (evs : list Event).

Lemma write_keeps_id cid (s : TState) f next inx j :
  write_at cid s = Some (f, next, inx) -> id (f j) = id j.
Proof. by destruct s as [|[]| |]; simpl; try done; intros [= <- <- <-]. Qed.

(** *** Ids that were never handed out *)

Lemma registered_step e w cid :
  is_Some (conversions (step e w) !! cid) ->
  is_Some (conversions w !! cid) \/ cid ∈ uuids [e].
Proof.
  assert (forall e' w', atomic e' = true ->
            is_Some (conversions (step e' w') !! cid) ->
            is_Some (conversions w' !! cid) \/ cid ∈ uuids [e']) as Hat.
  { intros e' w' Hat [j' Hj'].
    destruct (registry_step e' w' cid j' Hat Hj')
      as [H | [(f & o & -> & Hext & _) | (n & p & s & f & nx & ix & j & _ & _ & _ & H & _)]];
      eauto.
    right. simpl. rewrite Hext. apply list_elem_of_here. }
  destruct (atomic e) eqn:Ha; [by apply Hat|].
  intros H. left. revert H.
  apply (step_lift (fun w' => is_Some (conversions w' !! cid) ->
                              is_Some (conversions w !! cid))); try done.
  - by rewrite Ha.
  - intros n w' IH H. apply IH.
    destruct (Hat (WorkerStep n) w' eq_refl H) as [? | Hin]; [done|].
    by apply elem_of_nil in Hin.
  - intros n run w' IH H. apply IH.
    destruct (Hat (EngineReturn n run) w' eq_refl H) as [? | Hin]; [done|].
    by apply elem_of_nil in Hin.
Qed.

Lemma registered_run evs w cid :
  is_Some (conversions (run_events evs w) !! cid) ->
  is_Some (conversions w !! cid) \/ cid ∈ uuids evs.
Proof.
  revert w. induction evs as [|e evs IH]; intros w; [by left|].
  rewrite run_events_cons, uuids_cons. intros [H | H]%IH.
  - apply registered_step in H as [H | H]; [by left|]. right. apply elem_of_app. by left.
  - right. apply elem_of_app. by right.
Qed.

(** X1.  Whatever happened before, an id that [uuid4] never returned
    is unknown to the service: the status, download and delete requests
    for it are answered with HTTP 404 and change nothing. *)
Theorem never_issued_id_not_found evs cid :
  cid ∉ uuids evs ->
  let w := run_events evs world0 in
  get_status cid w = (w, Raise (mkHTTPException 404 "Conversão não encontrada"))
  /\ download_file cid w = (w, Raise (mkHTTPException 404 "Conversão não encontrada"))
  /\ delete_conversion cid w = (w, Raise (mkHTTPException 404 "Conversão não encontrada")).
Proof.
  intros Hnew. simpl.
  assert (conversions (run_events evs world0) !! cid = None) as Hc.
  { apply eq_None_not_Some. intros [H | H]%registered_run; [|done].
    by destruct H as [? H]. }
  split; [by apply get_status_absent|].
  split; [by apply download_file_absent | by apply delete_conversion_absent].
Qed.

Lemma never_issued_id_not_found_witness :
  get_status "id-9"
    (run_events [ReqConvert "a.pdf" "id-1" SaveOk; WorkerBegin 0] world0)
  = (run_events [ReqConvert "a.pdf" "id-1" SaveOk; WorkerBegin 0] world0,
     Raise (mkHTTPException 404 "Conversão não encontrada")).
Proof.
  apply (never_issued_id_not_found
           [ReqConvert "a.pdf" "id-1" SaveOk; WorkerBegin 0] "id-9").
  vm_compute. intros [H | H]%elem_of_cons; [discriminate H | by apply elem_of_nil in H].
Defined.

(** *** Requests that only read *)

Lemma step_query e w : is_query e = true -> step e w = w.
Proof.
  destruct e as [f u o|c|c| |c|n|n run|n|n run]; try done; simpl; intros _.
  - apply get_status_pure.
  - apply download_file_pure.
Qed.

(** X4.  Status, download and listing requests leave no trace: a run
    ends in the same state as the run with all of them taken out. *)
Theorem queries_are_transparent evs w :
  run_events evs w = run_events (List.filter (fun e => negb (is_query e)) evs) w.
Proof.
  revert w. induction evs as [|e evs IH]; intros w; [done|].
  simpl List.filter. destruct (is_query e) eqn:Hq; simpl negb; cbv iota.
  - by rewrite run_events_cons, (step_query _ _ Hq).
  - by rewrite !run_events_cons.
Qed.

(** *** The listing *)

Lemma keyed_step e w :
  (forall cid j, conversions w !! cid = Some j -> id j = cid) ->
  forall cid j, conversions (step e w) !! cid = Some j -> id j = cid.
Proof.
  assert (forall e' w', atomic e' = true ->
            (forall cid j, conversions w' !! cid = Some j -> id j = cid) ->
            forall cid j, conversions (step e' w') !! cid = Some j -> id j = cid) as Hat.
  { intros e' w' Hat Hk cid j' Hj'.
    destruct (registry_step e' w' cid j' Hat Hj')
      as [H | [(f & o & _ & _ & ->) | (n & p & s & f & nx & ix & j & _ & _ & Hw & H & ->)]].
    - by apply Hk.
    - done.
    - rewrite (write_keeps_id _ _ _ _ _ _ Hw). by apply (Hk cid j). }
  apply (step_lift (fun w' => forall cid j, conversions w' !! cid = Some j -> id j = cid)).
  - intros Ha. by apply Hat.
  - intros n w'. by apply (Hat (WorkerStep n)).
  - intros n run w'. by apply (Hat (EngineReturn n run)).
Qed.

Lemma keyed_run evs cid j :
  conversions (run_events evs world0) !! cid = Some j -> id j = cid.
Proof.
  assert (forall w, (forall c j0, conversions w !! c = Some j0 -> id j0 = c) ->
            forall c j0, conversions (run_events evs w) !! c = Some j0 -> id j0 = c) as H.
  { induction evs as [|e evs IH]; intros w Hk; [done|].
    rewrite run_events_cons. apply IH. by apply keyed_step. }
  apply H. intros c j0. simpl. by rewrite lookup_empty.
Qed.

(** X5.  The listing shows every registered record once, and nothing
    else: a record is listed exactly when it is the one registered
    under its own id, and no two listed records have the same id. *)
Theorem listing_shows_each_job_once evs (l : list Job) :
  snd (list_conversions (run_events evs world0)) = Ok l ->
  NoDup (id <$> l)
  /\ forall j, j ∈ l <-> conversions (run_events evs world0) !! id j = Some j.
Proof.
  intros [= <-]. set (m := conversions (run_events evs world0)).
  assert (id <$> (snd <$> map_to_list m) = fst <$> map_to_list m) as Hids.
  { rewrite <- list_fmap_compose. apply list_fmap_ext.
    intros i [k j] Hi. simpl.
    apply list_elem_of_lookup_2, elem_of_map_to_list in Hi. by apply (keyed_run evs). }
  split.
  - rewrite Hids. apply NoDup_fst_map_to_list.
  - intros j. rewrite list_elem_of_fmap. split.
    + intros ([k j0] & -> & Hin%elem_of_map_to_list). simpl.
      by rewrite (keyed_run evs k j0 Hin).
    + intros Hj. exists (id j, j). split; [done|]. by apply elem_of_map_to_list.
Qed.

Lemma listing_shows_each_job_once_witness :
  NoDup (id <$> [pending_job "id-1" "a.pdf"]).
Proof.
  apply (listing_shows_each_job_once [ReqConvert "a.pdf" "id-1" SaveOk]
           [pending_job "id-1" "a.pdf"]).
  vm_compute. reflexivity.
Defined.

(** *** One worker per accepted submission *)

(** X13.  The worker threads of a run are, in order, one for each
    submission that passed validation and was saved, with the id
    [uuid4] returned for it and the path of its upload; rejected
    submissions, failed saves and all other events start none. *)
Theorem one_worker_per_accepted_submission evs :
  thread_key <$> threads (run_events evs world0)
  = (fun u => (u, upload_path u)) <$> spawned_ids evs.
Proof.
  assert (forall w,
            thread_key <$> threads (run_events evs w)
            = ((thread_key <$> threads w)
               ++ ((fun u => (u, upload_path u)) <$> spawned_ids evs))%list) as H.
  { induction evs as [|e evs IH]; intros w.
    - by rewrite app_nil_r.
    - rewrite run_events_cons, IH, thread_keys_step, (spawned_ids_cons e evs), fmap_app.
      by rewrite app_assoc. }
  by rewrite H.
Qed.

(** *** Deletion is final *)

Lemma deleted_step e w cid :
  (forall u, u ∈ uuids [e] -> unused u w) ->
  served cid w -> conversions w !! cid = None ->
  conversions (step e w) !! cid = None.
Proof.
  intros Hfresh Hs Hc.
  assert (forall e' w', atomic e' = true ->
            (forall u, u ∈ uuids [e'] -> unused u w') ->
            served cid w' -> conversions w' !! cid = None ->
            conversions (step e' w') !! cid = None) as Hat.
  { intros e' w' Hat Hfr Hs' Hc'. apply eq_None_not_Some. intros [j' Hj'].
    destruct (registry_step e' w' cid j' Hat Hj')
      as [H | [(f & o & -> & Hext & _) | (n & p & s & f & nx & ix & j & _ & _ & _ & H & _)]];
      try congruence.
    apply (served_not_unused cid w' Hs'). apply Hfr.
    simpl. rewrite Hext. apply list_elem_of_here. }
  enough (served cid (step e w) /\ conversions (step e w) !! cid = None) as [_ ?] by done.
  apply (step_lift (fun w' => served cid w' /\ conversions w' !! cid = None)).
  - intros Ha _. split; [by apply served_step | by apply Hat].
  - intros n w' [Hs' Hc']. split; [by apply (served_step cid (WorkerStep n))|].
    apply (Hat (WorkerStep n)); try done. by intros u Hu%elem_of_nil.
  - intros n run w' [Hs' Hc']. split; [by apply (served_step cid (EngineReturn n run))|].
    apply (Hat (EngineReturn n run)); try done. by intros u Hu%elem_of_nil.
  - done.
Qed.

Lemma deleted_run evs w cid :
  fresh_for evs w -> served cid w -> conversions w !! cid = None ->
  conversions (run_events evs w) !! cid = None.
Proof.
  revert w. induction evs as [|e evs IH]; intros w Hf Hs Hc; [done|].
  apply fresh_for_cons in Hf as [He Hf]. rewrite run_events_cons.
  apply IH; [done | by apply served_step | by apply deleted_step].
Qed.

(** X12.  Deleting a job is final, also while its worker is still
    running: in a run where [uuid4] never repeats an id, once a
    registered job has been deleted its id is absent in every later
    state; the worker does not bring the record back. *)
Theorem deleted_job_stays_deleted evs (later : list Event) cid :
  NoDup (uuids (evs ++ ReqDelete cid :: later)) ->
  is_Some (conversions (run_events evs world0) !! cid) ->
  conversions (run_events (evs ++ ReqDelete cid :: later) world0) !! cid = None.
Proof.
  intros Hnd [j Hj].
  assert (NoDup (uuids evs)) as Hnd1.
  { rewrite uuids_app in Hnd. by apply NoDup_app in Hnd as [? _]. }
  pose proof (Inv_reachable evs Hnd1) as HI.
  pose proof (fresh_for_run evs _ world0 (fresh_for_world0 _ Hnd)) as Hf.
  apply fresh_for_cons in Hf as [_ Hf].
  rewrite run_events_app, run_events_cons.
  apply deleted_run; [done| |].
  - apply served_step. destruct (inv_job _ HI _ _ Hj) as (n & t & Hn & Hid & _).
    by exists n, t.
  - simpl. rewrite (delete_conversion_present _ _ _ Hj). simpl. apply lookup_delete_eq.
Qed.

Lemma deleted_job_stays_deleted_witness :
  conversions
    (run_events ([ReqConvert "a.pdf" "id-1" SaveOk; WorkerBegin 0]
                 ++ ReqDelete "id-1"
                 :: [WorkerEnd 0 (mkEngineRun ["a.docx"] (Ok (Some "a.docx")))])
       world0) !! "id-1"
  = None.
Proof.
  apply deleted_job_stays_deleted.
  - vm_compute. apply NoDup_cons. split; [apply not_elem_of_nil | apply NoDup_nil_2].
  - vm_compute. eexists. reflexivity.
Defined.

End Runs.

(** ** The life of a job *)

Section JobLife.

Implicit Types (w : World) (j : Job) (cid : string) (evs : list Event).

(** The order of the statuses has no way back. *)
Lemma forward_antisym (a b : string) : forward a b -> forward b a -> b = a.
Proof.
  intros [-> | [[-> [-> | Hb]] | [-> Hb]]] Hba; try done.
  - by destruct Hba as [? | [[? _] | [_ [? | ?]]]].
  - destruct Hba as [? | [[-> _] | [-> _]]]; [done | |].
    + by destruct (terminal_not_pending _ Hb).
    + by destruct (terminal_not_processing _ Hb).
  - destruct Hba as [? | [[-> _] | [-> _]]]; [done | |].
    + by destruct (terminal_not_pending _ Hb).
    + by destruct (terminal_not_processing _ Hb).
Qed.

(** X14.  The status of a job never moves back: in a run where [uuid4]
    never repeats an id, the status a record has later is the one it
    had before or one that comes after it ([pending], then
    [processing], then [completed] or [error]), so that a status once
    left is never seen again; the id and the original file name of the
    record never change.  The other fields do change while the status
    stays: the worker writes them one by one. *)
Theorem status_moves_forward evs (later : list Event) cid j j' :
  NoDup (uuids (evs ++ later)) ->
  conversions (run_events evs world0) !! cid = Some j ->
  conversions (run_events (evs ++ later) world0) !! cid = Some j' ->
  forward (status j) (status j')
  /\ (forward (status j') (status j) -> status j' = status j)
  /\ id j' = id j /\ original_filename j' = original_filename j.
Proof.
  intros Hnd Hj Hj'.
  pose proof (follows_later evs later cid j Hnd Hj) as Hfo.
  unfold follows in Hfo. rewrite Hj' in Hfo. destruct Hfo as (Hfw & Hid & Hof).
  split; [done|]. split; [by apply forward_antisym | done].
Qed.

Lemma status_moves_forward_witness :
  forward (status (pending_job "id-1" "a.pdf"))
    (status (mkJob "id-1" "completed" "Convertendo PDF para Word..." None None "a.pdf"))
  /\ (forward
        (status (mkJob "id-1" "completed" "Convertendo PDF para Word..." None None "a.pdf"))
        (status (pending_job "id-1" "a.pdf")) ->
      status (mkJob "id-1" "completed" "Convertendo PDF para Word..." None None "a.pdf")
      = status (pending_job "id-1" "a.pdf"))
  /\ id (mkJob "id-1" "completed" "Convertendo PDF para Word..." None None "a.pdf")
     = id (pending_job "id-1" "a.pdf")
  /\ original_filename
       (mkJob "id-1" "completed" "Convertendo PDF para Word..." None None "a.pdf")
     = original_filename (pending_job "id-1" "a.pdf").
Proof.
  apply (status_moves_forward [ReqConvert "a.pdf" "id-1" SaveOk]
           [WorkerBegin 0;
            EngineReturn 0 (mkEngineRun ["a.docx"] (Ok (Some "a.docx")));
            WorkerStep 0] "id-1").
  - vm_compute. apply NoDup_cons. split; [apply not_elem_of_nil | apply NoDup_nil_2].
  - vm_compute. reflexivity.
  - vm_compute. reflexivity.
Defined.

(** *** What a status request shows *)




End JobLife.

(** ** Artifacts under a shared name *)

(** X18.  Two completed jobs can carry the same artifact name (the
    engine's result is whatever [.docx] file the output directory
    offered).  Deleting one of them removes the file, and the download
    of the other is then answered with HTTP 404 although its status is
    still [completed]. *)
Theorem delete_removes_shared_artifact
    (w : World) (c1 c2 : string) (j1 j2 : Job) (f : string) :
  c1 <> c2 ->
  conversions w !! c1 = Some j1 -> filename j1 = Some f ->
  conversions w !! c2 = Some j2 -> filename j2 = Some f ->
  status j2 = "completed" ->
  f <> "" ->
  let w' := fst (delete_conversion c1 w) in
  conversions w' !! c2 = Some j2
  /\ download_file c2 w'
     = (w', Raise (mkHTTPException 404 "Arquivo não encontrado no servidor")).
Proof.
  intros Hne H1 Hf1 H2 Hf2 Hst Hnonempty.
  rewrite (delete_conversion_present _ _ _ H1). simpl.
  assert (Str.truthy f = true) as Ht by (by apply truthy_spec).
  assert (conversions w !! c2 = Some j2) as H2' by done.
  split; [by rewrite lookup_delete_ne|].
  unfold download_file, mbind, M_bind, get. simpl.
  rewrite lookup_delete_ne by done. rewrite H2, Hst, Hf2. simpl. rewrite Ht.
  unfold artifact_path, exists_. rewrite Hf1, Ht. simpl.
  rewrite bool_decide_eq_false_2; [done|]. set_solver.
Qed.

Lemma delete_removes_shared_artifact_witness :
  conversions
    (fst (delete_conversion "id-1"
       (run_events [ReqConvert "a.pdf" "id-1" SaveOk; ReqConvert "b.pdf" "id-2" SaveOk;
                    WorkerBegin 0; WorkerBegin 1;
                    WorkerEnd 0 (mkEngineRun ["a.docx"] (Ok (Some "a.docx")));
                    WorkerEnd 1 (mkEngineRun [] (Ok (Some "a.docx")))] world0)))
    !! "id-2"
  = Some (mkJob "id-2" "completed" "Conversão concluída!"
            (Some "/download/id-2") (Some "a.docx") "b.pdf").
Proof.
  apply (delete_removes_shared_artifact _ "id-1" "id-2"
           (mkJob "id-1" "completed" "Conversão concluída!"
              (Some "/download/id-1") (Some "a.docx") "a.pdf")
           (mkJob "id-2" "completed" "Conversão concluída!"
              (Some "/download/id-2") (Some "a.docx") "b.pdf") "a.docx").
  - discriminate.
  - vm_compute. reflexivity.
  - reflexivity.
  - vm_compute. reflexivity.
  - reflexivity.
  - reflexivity.
  - discriminate.
Defined.

(** ** The engine is called once per job *)

Section EngineLog.

Implicit Types (w : World) (evs : list Event).

Lemma converted_app (l1 l2 : list Effect) :
  converted (l1 ++ l2) = (converted l1 ++ converted l2)%list.
Proof. apply omap_app. Qed.

Lemma thread_by_path w n0 n (t0 t : Thread) :
  Inv w -> threads w !! n0 = Some t0 -> threads w !! n = Some t ->
  t_pdf_path t0 = t_pdf_path t -> n0 = n.
Proof.
  intros HI Hn0 Hn Hp. apply (inv_unique _ HI n0 n _ _ Hn0 Hn).
  apply upload_path_inj.
  rewrite <- (inv_path _ HI _ _ Hn0), <- (inv_path _ HI _ _ Hn). done.
Qed.

(** A step that adds no engine call, keeps the threads there are and
    puts none inside the engine. *)
Lemma engine_log_keep w w' :
  engine_log_ok w ->
  converted (effects w') = converted (effects w) ->
  (forall n t, threads w !! n = Some t -> threads w' !! n = Some t) ->
  (forall n t, threads w' !! n = Some t -> t_state t = InEngine ->
     threads w !! n = Some t) ->
  engine_log_ok w'.
Proof.
  intros (Hnd & Hpast & Hin) Heff Hth Hback. split; [|split]; rewrite Heff; [done| |].
  - intros p Hp. destruct (Hpast p Hp) as (n & t & Hn & Hpath & Hst).
    exists n, t. split; [by apply Hth | done].
  - intros n t Hn Hst. apply (Hin n t); [by apply Hback | done].
Qed.

(** A step of thread [n]: either it adds no engine call and does not
    enter the engine, or it is the call itself. *)
Lemma engine_log_move w w' n c path (s s' : TState) :
  Inv w -> engine_log_ok w ->
  threads w !! n = Some (mkThread c path s) ->
  threads w' = alter (with_state s') n (threads w) ->
  (past_call s = true -> past_call s' = true) ->
  (converted (effects w') = converted (effects w) /\ (s' = InEngine -> s = InEngine))
  \/ (converted (effects w') = (converted (effects w) ++ [path])%list
      /\ past_call s = false /\ s' = InEngine) ->
  engine_log_ok w'.
Proof.
  intros HI (Hnd & Hpast & Hin) Hn Hth Hmono Hcase.
  assert (threads w' !! n = Some (mkThread c path s')) as Hn'
    by (by rewrite Hth, list_lookup_alter_eq, Hn).
  assert (forall i, i <> n -> threads w' !! i = threads w !! i) as Hother
    by (intros i Hi; rewrite Hth; by apply list_lookup_alter_ne).
  destruct Hcase as [[Heff Hs'] | (Heff & Hs & ->)]; unfold engine_log_ok; rewrite Heff.
  - split; [done|]. split.
    + intros p Hp. destruct (Hpast p Hp) as (n0 & t & Hn0 & Hpath & Hst).
      destruct (decide (n0 = n)) as [->|Hne].
      * rewrite Hn in Hn0. injection Hn0 as <-. simpl in *.
        exists n, (mkThread c path s'). split; [done|]. split; [done | by apply Hmono].
      * exists n0, t. by rewrite Hother.
    + intros n1 t1 Hn1 Hst. destruct (decide (n1 = n)) as [->|Hne].
      * rewrite Hn' in Hn1. injection Hn1 as <-. simpl in *.
        apply (Hin n (mkThread c path s)); [done|]. by apply Hs'.
      * rewrite Hother in Hn1 by done. by apply (Hin n1).
  - assert (path ∉ converted (effects w)) as Hnew.
    { intros Hp. destruct (Hpast path Hp) as (n0 & t & Hn0 & Hpath & Hst).
      assert (n0 = n) as -> by by apply (thread_by_path w n0 n t (mkThread c path s)).
      rewrite Hn in Hn0. injection Hn0 as <-. simpl in Hst. congruence. }
    split; [|split].
    + apply NoDup_app. split; [done|]. split; [|apply NoDup_singleton].
      by intros p Hp ->%list_elem_of_singleton.
    + intros p [Hp | ->%list_elem_of_singleton]%elem_of_app.
      * destruct (Hpast p Hp) as (n0 & t & Hn0 & Hpath & Hst).
        destruct (decide (n0 = n)) as [->|Hne].
        -- rewrite Hn in Hn0. injection Hn0 as <-. simpl in Hst. congruence.
        -- exists n0, t. by rewrite Hother.
      * by exists n, (mkThread c path InEngine).
    + intros n1 t1 Hn1 Hst. apply elem_of_app.
      destruct (decide (n1 = n)) as [->|Hne].
      * rewrite Hn' in Hn1. injection Hn1 as <-. right. by apply list_elem_of_singleton.
      * rewrite Hother in Hn1 by done. left. by apply (Hin n1).
Qed.

Lemma engine_log_sched_step n w :
  Inv w -> engine_log_ok w -> engine_log_ok (sched_step n w).
Proof.
  intros HI Hlog. unfold sched_step.
  destruct (threads w !! n) as [[c path s]|] eqn:Hn; [|done].
  destruct (write_at c s) as [[[f next] inx]|] eqn:Hw.
  - assert (s <> InEngine /\ next <> InEngine /\
            (past_call s = true -> past_call next = true)) as (Hs & Hnx & Hmono)
      by (by destruct s as [|[]| |]; simpl in Hw; try done; injection Hw as <- <- <-).
    destruct (thread_step_write c path s w f next inx Hw) as [(j & _ & ->) | [_ ->]].
    + apply (engine_log_move w _ n c path s next); try done. left. by split.
    + apply (engine_log_move w _ n c path s
               (if inx then AtLine (L257 (Some (KeyError c)))
                else AtLine (L251 (KeyError c)))); try done.
      * by destruct inx.
      * left. split; [done|]. by destruct inx.
  - destruct (thread_step_other c path s w Hw)
      as [[-> ->] | [(esc & -> & ->) | [Hs ->]]].
    + apply (engine_log_move w _ n c path (AtLine L237) InEngine); try done.
      right. split; [|done]. simpl. by rewrite converted_app.
    + apply (engine_log_move w _ n c path (AtLine (L257 esc)) (Finished esc)); try done.
      left. split; [|done]. simpl. rewrite converted_app. simpl. by rewrite app_nil_r.
    + by rewrite (set_thread_state_same _ _ _ _ _ Hn).
Qed.

Lemma engine_log_sched_return n run w :
  Inv w -> engine_log_ok w -> engine_log_ok (sched_return n run w).
Proof.
  intros HI Hlog. unfold sched_return.
  destruct (threads w !! n) as [[c path s]|] eqn:Hn; [|done].
  destruct (engine_return run s w) as [w' s'] eqn:Her.
  assert (effects w' = effects w /\ threads w' = threads w
          /\ (past_call s = true -> past_call s' = true)
          /\ (s' = InEngine -> s = InEngine)) as (Heff & Hth & Hmono & Hs').
  { destruct s as [|[]| |]; simpl in Her; injection Her as <- <-; try done.
    repeat split; try done;
      by destruct (outcome run) as [fn|]; [destruct (Str.truthy_opt fn)|]. }
  apply (engine_log_move w _ n c path s s'); try done.
  - simpl. by rewrite Hth.
  - left. simpl. by rewrite Heff.
Qed.

Lemma engine_log_step (e : Event) w :
  Inv w -> (forall u, u ∈ uuids [e] -> unused u w) ->
  engine_log_ok w -> engine_log_ok (step e w).
Proof.
  intros HI Hfresh Hlog.
  enough (Inv (step e w) /\ engine_log_ok (step e w)) as [_ ?] by done.
  apply (step_lift (fun w' => Inv w' /\ engine_log_ok w')); [| | |done].
  - intros Hat _. split; [by apply Inv_step|].
    destruct e as [f u o|c|c| |c|n|n run|n|n run]; try done; simpl.
    + destruct (Str.endswith (Str.lower f) ".pdf") eqn:Hext.
      2: { by rewrite (convert_pdf_rejected _ _ _ _ Hext). }
      destruct o as [|e0 created].
      * rewrite (convert_pdf_saved _ _ _ Hext).
        apply (engine_log_keep w); simpl; [done| | |].
        -- rewrite converted_app. simpl. by rewrite app_nil_r.
        -- intros n t Hn. by apply lookup_app_l_Some.
        -- intros n t [[_ Hn] | [_ <-]]%lookup_snoc_Some Hst; [done | discriminate Hst].
      * unfold convert_pdf. rewrite Hext.
        destruct created; simpl; [|done].
        apply (engine_log_keep w); simpl; [done| |done|done].
        rewrite converted_app. simpl. by rewrite app_nil_r.
    + by rewrite get_status_pure.
    + by rewrite download_file_pure.
    + destruct (conversions w !! c) as [conv|] eqn:Hc.
      * rewrite (delete_conversion_present _ _ _ Hc).
        apply (engine_log_keep w); simpl; [done| |done|done].
        destruct (artifact_path conv); [|done].
        rewrite converted_app. simpl. by rewrite app_nil_r.
      * by rewrite (delete_conversion_absent _ _ Hc).
    + by apply engine_log_sched_step.
    + by apply engine_log_sched_return.
  - intros n w' [HI' Hlog']. split; [by apply Inv_sched_step|].
    by apply engine_log_sched_step.
  - intros n run w' [HI' Hlog']. split; [by apply Inv_sched_return|].
    by apply engine_log_sched_return.
Qed.

Lemma engine_log_run evs w :
  Inv w -> fresh_for evs w -> engine_log_ok w -> engine_log_ok (run_events evs w).
Proof.
  revert w. induction evs as [|e evs IH]; intros w HI Hf Hlog; [done|].
  apply fresh_for_cons in Hf as [He Hf]. rewrite run_events_cons.
  apply IH; [by apply Inv_step | done | by apply engine_log_step].
Qed.

(** X19.  The service never retries: in a run where [uuid4] never
    repeats an id, no upload is handed to the engine twice; every
    engine call on record was made by a worker thread, with the path
    that thread was given, and that thread is inside the engine or
    past its call; and every worker that is inside the engine has its
    call on record. *)
Theorem engine_called_once_per_job evs :
  NoDup (uuids evs) ->
  NoDup (converted (effects (run_events evs world0)))
  /\ (forall p, p ∈ converted (effects (run_events evs world0)) ->
       exists n t,
         threads (run_events evs world0) !! n = Some t
         /\ t_pdf_path t = p /\ past_call (t_state t) = true)
  /\ (forall n t,
       threads (run_events evs world0) !! n = Some t -> t_state t = InEngine ->
       t_pdf_path t ∈ converted (effects (run_events evs world0))).
Proof.
  intros Hnd. apply engine_log_run.
  - apply Inv_world0.
  - by apply fresh_for_world0.
  - split; [apply NoDup_nil_2|]. split; [by intros p Hp%elem_of_nil|].
    by intros n t Hn.
Qed.

Lemma engine_called_once_per_job_witness :
  NoDup (converted (effects
    (run_events [ReqConvert "a.pdf" "id-1" SaveOk; WorkerBegin 0;
                 ReqConvert "b.pdf" "id-2" SaveOk; WorkerBegin 1;
                 WorkerEnd 0 (mkEngineRun [] (Ok None));
                 WorkerEnd 0 (mkEngineRun [] (Ok None))] world0))).
Proof.
  apply (engine_called_once_per_job
           [ReqConvert "a.pdf" "id-1" SaveOk; WorkerBegin 0;
            ReqConvert "b.pdf" "id-2" SaveOk; WorkerBegin 1;
            WorkerEnd 0 (mkEngineRun [] (Ok None));
            WorkerEnd 0 (mkEngineRun [] (Ok None))]).
  vm_compute. apply NoDup_cons. split.
  - intros [H | H]%elem_of_cons; [discriminate H | by apply elem_of_nil in H].
  - apply NoDup_cons. split; [apply not_elem_of_nil | apply NoDup_nil_2].
Defined.

End EngineLog.
